(** * RFP response automation: the stage-routing workflow and its tools

  A shallow embedding of the Python sources

    - [agents/state.py]                  (the state dict, step and node names)
    - [agents/graph.py]                  (routers and the conditional edges)
    - [agents/sales_agent/tools.py]      (qualification and prioritisation)
    - [agents/sales_agent/node.py]       (the discovery stage)
    - [agents/technical_agent/tools.py]  (catalog matching)
    - [agents/technical_agent/node.py]   (the assessment stage)
    - [backend/core/memory_manager.py]   (conversation memory)
    - [backend/api/chat.py]              (the HTTP handlers)

  Python dicts whose keys are chosen at run time (the state, the state
  updates returned by the nodes, requirement and specification tables)
  are finite maps with string keys.  Dict literals of a fixed shape are
  records.  Python exceptions are the [Raise] branch of [result]. *)

From Stdlib Require Import ZArith QArith String Ascii List Lia DecimalString
  DecimalPos Sorted.
From stdpp Require Import gmap strings list.

Local Open Scope Z_scope.

(** ** Python values and exceptions *)

Module Py.

(** An exception object: its class name and [str(e)]. *)
Inductive exn : Type := Exn (kind : string) (msg : string).

Definition exn_str (e : exn) : string := match e with Exn _ m => m end.

Inductive result (A : Type) : Type :=
| Ok (a : A)
| Raise (e : exn).
Arguments Ok {A} a.
Arguments Raise {A} e.

Definition bind {A B} (r : result A) (k : A → result B) : result B :=
  match r with
  | Ok a => k a
  | Raise e => Raise e
  end.

#[global] Instance result_ret : MRet result := fun A a => Ok a.
#[global] Instance result_bind : MBind result := fun A B k r => bind r k.

Definition is_ok {A} (r : result A) : bool :=
  match r with Ok _ => true | Raise _ => false end.

(** [d[k]] on a key that may be missing. *)
Definition getitem {A} (k : string) (o : option A) : result A :=
  match o with
  | Some a => Ok a
  | None => Raise (Exn "KeyError" ("'" +:+ k +:+ "'"))
  end.

(** [for x in l: ...] where the body may raise: the first exception
    ends the loop. *)
Fixpoint mapM {A B} (f : A → result B) (l : list A) : result (list B) :=
  match l with
  | [] => Ok []
  | x :: l' =>
      match f x with
      | Raise e => Raise e
      | Ok y =>
          match mapM f l' with
          | Raise e => Raise e
          | Ok ys => Ok (y :: ys)
          end
      end
  end.

(** [str.lower()], on the ASCII letters.  A text is a list of bytes
    here: a letter outside ASCII, which Python lowers too, is left as
    it is, so the model follows the code on ASCII texts only. *)
Definition is_upper (c : ascii) : bool :=
  let n := nat_of_ascii c in (65 <=? n)%nat && (n <=? 90)%nat.

Definition lower_char (c : ascii) : ascii :=
  if is_upper c then ascii_of_nat (nat_of_ascii c + 32) else c.

Fixpoint lower (s : string) : string :=
  match s with
  | EmptyString => EmptyString
  | String c r => String (lower_char c) (lower r)
  end.

(** [sub in s] on strings. *)
Fixpoint contains (sub s : string) : bool :=
  String.prefix sub s ||
  match s with
  | EmptyString => false
  | String _ r => contains sub r
  end.

(** [str.strip()]: the ASCII white space that Python strips.  The
    white space outside ASCII (as U+00A0), which Python strips too, is
    kept. *)
Definition is_space (c : ascii) : bool :=
  let n := nat_of_ascii c in
  ((9 <=? n)%nat && (n <=? 13)%nat) || ((28 <=? n)%nat && (n <=? 32)%nat).

Fixpoint lstrip (s : string) : string :=
  match s with
  | EmptyString => EmptyString
  | String c r => if is_space c then lstrip r else s
  end.

Definition rev_string (s : string) : string :=
  string_of_list_ascii (rev (list_ascii_of_string s)).

Definition strip (s : string) : string :=
  rev_string (lstrip (rev_string (lstrip s))).

(** [str(n)] for an int. *)
Definition str_of_Z (z : Z) : string := NilZero.string_of_int (Z.to_int z).

Definition str_of_nat (n : nat) : string := str_of_Z (Z.of_nat n).

(** [format(n, ',')]: decimal digits in groups of three. *)
Fixpoint commas (l : list ascii) : list ascii :=
  match l with
  | a :: b :: c :: ((_ :: _) as rest) => a :: b :: c :: ","%char :: commas rest
  | _ => l
  end.

Definition fmt_commas (z : Z) : string :=
  let digits := list_ascii_of_string (str_of_Z (Z.abs z)) in
  let grouped := string_of_list_ascii (rev (commas (rev digits))) in
  if z <? 0 then "-" +:+ grouped else grouped.

(** [l[:n]] for an int [n]: a negative [n] counts from the end. *)
Definition slice_to {A} (n : Z) (l : list A) : list A :=
  if 0 <=? n then take (Z.to_nat n) l
  else take (length l - Z.to_nat (- n))%nat l.

(** [l.sort(key=..., reverse=True)]: a stable sort into non-increasing
    key order.  [le a b] decides [key a <= key b]. *)
Section Sort.
Context {A : Type} (le : A → A → bool).

Fixpoint insert_desc (x : A) (l : list A) : list A :=
  match l with
  | [] => [x]
  | y :: l' => if le y x then x :: y :: l' else y :: insert_desc x l'
  end.

Definition sort_desc (l : list A) : list A := foldr insert_desc [] l.

(** [a] may stand before [b] in a list in non-increasing order. *)
Definition before (a b : A) : Prop := le b a = true.
End Sort.

(** [round(x, 1)]: to the nearest tenth, ties to the even one. *)
Definition round_half_even (q : Q) : Z :=
  let n := Qnum q in
  let d := Z.pos (Qden q) in
  let f := n / d in
  let r := n mod d in
  if 2 * r <? d then f
  else if d <? 2 * r then f + 1
  else if Z.even f then f else f + 1.

Definition round1 (q : Q) : Q := Qred (round_half_even (q * 10) # 10).

End Py.

Import Py.


(** ** agents/sales_agent/tools.py *)

Module SalesTools.

(** The dict literal built by [qualify_rfp_tool]. *)
Record Qualification : Type := {
  q_rfp_id : string;
  q_qualified : bool;
  q_score : Z;
  q_reasons : list string;
}.

(** An RFP record of [data/mock_rfps.json], with the keys the code
    reads or writes.  [None] is a missing key.  Text keys hold strings
    and amounts hold ints, so [str(...)] and [int(...)] leave them as
    they are. *)
Record Rfp : Type := {
  r_rfp_id : option string;
  r_id : option string;
  r_title : option string;
  r_description : option string;
  r_category : option string;
  r_due_date : option string;
  r_location : option string;
  r_client : option string;
  r_submission_deadline : option string;
  r_tender_value : option Z;
  r_estimated_value : option Z;
  r_value : option Z;
  r_days_remaining : option Z;
  r_priority_score : option Z;
  r_qualification : option Qualification;
}.

(** The [criteria] dict: every key is read with [.get] and a default. *)
Record Criteria : Type := {
  c_min_tender_value : option Z;
  c_min_days_remaining : option Z;
  c_preferred_locations : option (list string);
}.

Definition rupee : string := "₹".

(** [qualification['reasons'].append(r)] *)
Definition add_reason (r : string) (q : Qualification) : Qualification :=
  {| q_rfp_id := q_rfp_id q;
     q_qualified := q_qualified q;
     q_score := q_score q;
     q_reasons := q_reasons q ++ [r] |}.

(** [qualification['score'] += n; qualification['reasons'].append(r)] *)
Definition add_points (n : Z) (r : string) (q : Qualification) : Qualification :=
  add_reason r
    {| q_rfp_id := q_rfp_id q;
       q_qualified := q_qualified q;
       q_score := q_score q + n;
       q_reasons := q_reasons q |}.

(** [qualification['qualified'] = b] *)
Definition set_qualified (b : bool) (q : Qualification) : Qualification :=
  {| q_rfp_id := q_rfp_id q;
     q_qualified := b;
     q_score := q_score q;
     q_reasons := q_reasons q |}.

Definition location_match (rfp : Rfp) (preferred_locations : list string) : bool :=
  existsb
    (fun loc => contains (lower loc) (lower (default "" (r_location rfp))))
    preferred_locations.

Definition qualify_rfp_tool (rfp : Rfp) (criteria : Criteria)
  : result Qualification :=
  rid ← getitem "rfp_id" (r_rfp_id rfp);
  let qualification :=
    {| q_rfp_id := rid; q_qualified := true; q_score := 0; q_reasons := [] |} in
  let days_remaining := default 0 (r_days_remaining rfp) in
  let min_days := default 7 (c_min_days_remaining criteria) in
  let qualification :=
    if days_remaining <? min_days then
      add_reason
        ("Insufficient time: " +:+ str_of_Z days_remaining +:+ " days (need "
           +:+ str_of_Z min_days +:+ "+)")
        (set_qualified false qualification)
    else if days_remaining <? 14 then
      add_points 15 ("Tight timeline: " +:+ str_of_Z days_remaining +:+ " days")
        qualification
    else if days_remaining <? 30 then
      add_points 25 ("Adequate time: " +:+ str_of_Z days_remaining +:+ " days")
        qualification
    else
      add_points 30 ("Good timeline: " +:+ str_of_Z days_remaining +:+ " days")
        qualification in
  let tender_value := default 0 (r_tender_value rfp) in
  let min_value := default 1000000 (c_min_tender_value criteria) in
  let qualification :=
    if tender_value <? min_value then
      add_points 10 ("Low value: " +:+ rupee +:+ fmt_commas tender_value) qualification
    else if tender_value <? min_value * 2 then
      add_points 25 ("Meets minimum: " +:+ rupee +:+ fmt_commas tender_value) qualification
    else if tender_value <? min_value * 5 then
      add_points 35 ("Good value: " +:+ rupee +:+ fmt_commas tender_value) qualification
    else
      add_points 40 ("High value: " +:+ rupee +:+ fmt_commas tender_value) qualification in
  let preferred_locations := default [] (c_preferred_locations criteria) in
  let qualification :=
    match preferred_locations with
    | [] =>
        add_points 30 ("Location: " +:+ default "N/A" (r_location rfp)) qualification
    | _ :: _ =>
        if location_match rfp preferred_locations then
          add_points 30
            ("Preferred location: " +:+ default "None" (r_location rfp)) qualification
        else
          add_points 10
            ("Non-preferred location: " +:+ default "None" (r_location rfp))
            qualification
    end in
  let qualification := set_qualified (60 <=? q_score qualification) qualification in
  mret qualification.

(** [rfp['priority_score'] = qual['score']; rfp['qualification'] = qual] *)
Definition set_priority (qual : Qualification) (rfp : Rfp) : Rfp :=
  {| r_rfp_id := r_rfp_id rfp; r_id := r_id rfp; r_title := r_title rfp;
     r_description := r_description rfp; r_category := r_category rfp;
     r_due_date := r_due_date rfp; r_location := r_location rfp;
     r_client := r_client rfp;
     r_submission_deadline := r_submission_deadline rfp;
     r_tender_value := r_tender_value rfp;
     r_estimated_value := r_estimated_value rfp; r_value := r_value rfp;
     r_days_remaining := r_days_remaining rfp;
     r_priority_score := Some (q_score qual);
     r_qualification := Some qual |}.

(** [{q['rfp_id']: q for q in qualifications}]: a later entry replaces
    an earlier one with the same id. *)
Definition qual_lookup (qualifications : list Qualification)
  : gmap string Qualification :=
  foldl (fun m q => <[q_rfp_id q := q]> m) ∅ qualifications.

(** The loop of [prioritize_rfps_tool] that collects the qualified RFPs. *)
Fixpoint scored_rfps (lookup : gmap string Qualification) (rfps : list Rfp)
  : result (list Rfp) :=
  match rfps with
  | [] => mret []
  | rfp :: rest =>
      rid ← getitem "rfp_id" (r_rfp_id rfp);
      tail ← scored_rfps lookup rest;
      match lookup !! rid with
      | Some qual =>
          if q_qualified qual then mret (set_priority qual rfp :: tail)
          else mret tail
      | None => mret tail
      end
  end.

Definition priority_le (a b : Rfp) : bool :=
  default 0 (r_priority_score a) <=? default 0 (r_priority_score b).

Definition prioritize_rfps_tool (rfps : list Rfp)
    (qualifications : list Qualification) (top_n : Z) : result (list Rfp) :=
  scored ← scored_rfps (qual_lookup qualifications) rfps;
  mret (slice_to top_n (sort_desc priority_le scored)).

(** The points that each of the three parts of [qualify_rfp_tool] adds
    to the score: for the time left, for the tender value and for the
    location. *)
Definition timeline_points (rfp : Rfp) (criteria : Criteria) : Z :=
  let days_remaining := default 0 (r_days_remaining rfp) in
  let min_days := default 7 (c_min_days_remaining criteria) in
  if days_remaining <? min_days then 0
  else if days_remaining <? 14 then 15
  else if days_remaining <? 30 then 25
  else 30.

Definition value_points (rfp : Rfp) (criteria : Criteria) : Z :=
  let tender_value := default 0 (r_tender_value rfp) in
  let min_value := default 1000000 (c_min_tender_value criteria) in
  if tender_value <? min_value then 10
  else if tender_value <? min_value * 2 then 25
  else if tender_value <? min_value * 5 then 35
  else 40.

Definition location_points (rfp : Rfp) (criteria : Criteria) : Z :=
  match default [] (c_preferred_locations criteria) with
  | [] => 30
  | (_ :: _) as preferred_locations =>
      if location_match rfp preferred_locations then 30 else 10
  end.

End SalesTools.

(** ** agents/technical_agent/tools.py *)

Module TechTools.

(** A scalar of the catalog or of the extracted requirements.  The
    numbers are ints: a float, which [normalize_value] would print with
    [str] as well, has no case here. *)
Inductive Value : Type :=
| VNone
| VBool (b : bool)
| VInt (z : Z)
| VStr (s : string).

#[global] Instance Value_eq_dec : EqDecision Value.
Proof. solve_decision. Defined.

(** Python truthiness, as in [if req_value]. *)
Definition truthy (v : Value) : bool :=
  match v with
  | VNone => false
  | VBool b => b
  | VInt z => negb (z =? 0)
  | VStr s => negb (String.eqb s "")
  end.

(** [a or b] *)
Definition py_or (a b : Value) : Value := if truthy a then a else b.

(** [d.get(k)]: a missing key reads as [None]. *)
Definition get (d : gmap string Value) (k : string) : Value :=
  default VNone (d !! k).

Definition SPEC_FIELDS : list string :=
  [ "voltage_rating"; "conductor"; "size"; "cores";
    "insulation"; "armour"; "cable_type"; "application" ].

(** [bool] is a subclass of [int], so [str(True)] is what it yields. *)
Definition normalize_value (value : Value) : option string :=
  match value with
  | VNone => None
  | VBool b => Some (if b then "True" else "False")
  | VInt z => Some (str_of_Z z)
  | VStr s => Some (lower (strip s))
  end.

Definition derive_product_field (specs : gmap string Value) (field : string) : Value :=
  match specs !! field with
  | Some v => v
  | None =>
      if String.eqb field "cable_type" then get specs "insulation"
      else if String.eqb field "application" then VNone
      else VNone
  end.

(** A catalog entry: [None] is a missing key. *)
Record Product : Type := {
  p_sku : option Value;
  p_product_name : option Value;
  p_price_per_km : option Value;
  p_specifications : option (gmap string Value);
}.

(** One entry of the [comparisons] list. *)
Record Comparison : Type := {
  cmp_field : string;
  cmp_requirement : Value;
  cmp_product : Value;
  cmp_match : bool;
}.

(** The dict literal returned by [score_catalog_product].  The float
    [match_score] is a rational: [score / 8 * 100] is exact in binary
    floating point for an int [score] of this size. *)
Record Scored : Type := {
  s_sku : Value;
  s_product_name : Value;
  s_price_per_km : Value;
  s_specifications : gmap string Value;
  s_match_score : Q;
  s_matched_fields : gmap string Value;
  s_comparison : list Comparison;
}.

(** [normalize_value(req_value) == normalize_value(spec_value) if req_value else False] *)
Definition is_match (req_value spec_value : Value) : bool :=
  if truthy req_value
  then bool_decide (normalize_value req_value = normalize_value spec_value)
  else false.

(** The loop variables of [score_catalog_product]. *)
Record Tally : Type := {
  t_score : Z;
  t_matched : gmap string Value;
  t_comparisons : list Comparison;
}.

Definition score_field (specs requirements : gmap string Value)
    (acc : Tally) (field : string) : Tally :=
  let req_value := get requirements field in
  let spec_value := derive_product_field specs field in
  let m := is_match req_value spec_value in
  {| t_score := if m then t_score acc + 1 else t_score acc;
     t_matched := if m then <[field := spec_value]> (t_matched acc) else t_matched acc;
     t_comparisons :=
       t_comparisons acc ++
         [ {| cmp_field := field; cmp_requirement := req_value;
              cmp_product := spec_value; cmp_match := m |} ] |}.

Definition match_percent (score : Z) : Q :=
  round1 ((inject_Z score / inject_Z (Z.of_nat (length SPEC_FIELDS))) * 100).

Definition score_catalog_product (product : Product)
    (requirements : gmap string Value) : Scored :=
  let specs := default ∅ (p_specifications product) in
  let t :=
    foldl (score_field specs requirements)
      {| t_score := 0; t_matched := ∅; t_comparisons := [] |} SPEC_FIELDS in
  {| s_sku := default VNone (p_sku product);
     s_product_name := default VNone (p_product_name product);
     s_price_per_km := default VNone (p_price_per_km product);
     s_specifications := specs;
     s_match_score := match_percent (t_score t);
     s_matched_fields := t_matched t;
     s_comparison := t_comparisons t |}.

(** The entry that the loop appends to [comparisons] for a field. *)
Definition compare_field (specs requirements : gmap string Value)
    (field : string) : Comparison :=
  {| cmp_field := field;
     cmp_requirement := get requirements field;
     cmp_product := derive_product_field specs field;
     cmp_match :=
       is_match (get requirements field) (derive_product_field specs field) |}.

(** The number of the eight fields on which the product matches the
    requirements. *)
Definition match_count (specs requirements : gmap string Value) : Z :=
  Z.of_nat (length (filter
    (fun field =>
       is_match (get requirements field) (derive_product_field specs field) = true)
    SPEC_FIELDS)).

Definition score_le (a b : Scored) : bool :=
  Qle_bool (s_match_score a) (s_match_score b).

Definition match_oem_products (catalog : list Product)
    (requirements : gmap string Value) (top_n : Z) : list Scored :=
  let scored := map (fun product => score_catalog_product product requirements) catalog in
  slice_to top_n (sort_desc score_le scored).

(** A row of the comparison table: a dict from ["field"] and from each
    product's [sku] to a value, in insertion order. *)
Fixpoint row_set (k v : Value) (row : list (Value * Value)) : list (Value * Value) :=
  match row with
  | [] => [(k, v)]
  | (k', v') :: row' =>
      if bool_decide (k' = k) then (k', v) :: row' else (k', v') :: row_set k v row'
  end.

Definition build_comparison_table (recommendations : list Scored)
  : list (list (Value * Value)) :=
  map
    (fun field =>
       foldl
         (fun row product =>
            row_set (s_sku product)
              (py_or (get (s_specifications product) field)
                     (derive_product_field (s_specifications product) field))
              row)
         [(VStr "field", VStr field)] recommendations)
    SPEC_FIELDS.

End TechTools.

(** ** agents/state.py *)

Module State.
Import SalesTools TechTools.

(** [HumanMessage], [AIMessage] and [SystemMessage] objects. *)
Inductive Role : Type := Human | AI | System.

Record Message : Type := { role : Role; content : string }.

Definition HumanMessage (c : string) : Message := {| role := Human; content := c |}.
Definition AIMessage (c : string) : Message := {| role := AI; content := c |}.
Definition SystemMessage (c : string) : Message := {| role := System; content := c |}.

(** The dict literal stored under ["technical_analysis"]. *)
Record TechnicalAnalysis : Type := {
  ta_rfp_id : option string;
  ta_analysis : string;
  ta_requirements : gmap string Value;
  ta_recommended_products : list Scored;
  ta_comparison_table : list (list (Value * Value));
}.

(** A value held under a key of the state dict. *)
#[warnings="-register-all"]
Inductive Field : Type :=
| FNone
| FBool (b : bool)
| FStr (s : string)
| FList (l : list Field)
| FMsg (m : Message)
| FRfp (r : Rfp)
| FAnalysis (a : TechnicalAnalysis).

(** [AgentState] is a [TypedDict]: at run time a plain dict, in which
    any key may be missing.  The updates returned by the nodes are
    dicts of the same kind. *)
Abbreviation AgentState := (gmap string Field).

Module WorkflowStep.
Definition IDLE : string := "IDLE".
Definition SCANNING : string := "SCANNING".
Definition WAITING_USER : string := "WAITING_USER".
Definition ANALYZING : string := "ANALYZING".
Definition PRICING : string := "PRICING".
Definition COMPLETE : string := "COMPLETE".
Definition ERROR : string := "ERROR".
End WorkflowStep.

Module NodeName.
Definition MAIN_AGENT : string := "main_agent".
Definition SALES_AGENT : string := "sales_agent".
Definition TECHNICAL_AGENT : string := "technical_agent".
Definition PRICING_AGENT : string := "pricing_agent".
Definition WAIT_FOR_USER : string := "wait_for_user".
Definition END : string := "END".
End NodeName.

(** [x == s] for a string constant [s]. *)
Definition field_eq_str (f : Field) (s : string) : bool :=
  match f with
  | FStr t => String.eqb t s
  | _ => false
  end.

Definition rfp_is_empty (r : Rfp) : bool :=
  match r with
  | {| r_rfp_id := None; r_id := None; r_title := None; r_description := None;
       r_category := None; r_due_date := None; r_location := None;
       r_client := None; r_submission_deadline := None; r_tender_value := None;
       r_estimated_value := None; r_value := None; r_days_remaining := None;
       r_priority_score := None; r_qualification := None |} => true
  | _ => false
  end.

(** Python truthiness of a state value. *)
Definition field_truthy (f : Field) : bool :=
  match f with
  | FNone => false
  | FBool b => b
  | FStr s => negb (String.eqb s "")
  | FList l => match l with [] => false | _ :: _ => true end
  | FMsg _ => true
  | FRfp r => negb (rfp_is_empty r)
  | FAnalysis _ => true
  end.

(** [isinstance(x, dict)], and the dict read through the RFP keys: an
    analysis dict shares the key ["rfp_id"] with them and no other. *)
Definition as_dict (f : Field) : option Rfp :=
  match f with
  | FRfp r => Some r
  | FAnalysis a =>
      Some {| r_rfp_id := ta_rfp_id a; r_id := None; r_title := None;
              r_description := None; r_category := None; r_due_date := None;
              r_location := None; r_client := None; r_submission_deadline := None;
              r_tender_value := None; r_estimated_value := None; r_value := None;
              r_days_remaining := None; r_priority_score := None;
              r_qualification := None |}
  | _ => None
  end.

(** [state.get(k)] and [state.get(k, d)] *)
Definition get (state : AgentState) (k : string) : Field :=
  default FNone (state !! k).

Definition get_or (state : AgentState) (k : string) (d : Field) : Field :=
  default d (state !! k).

Definition create_initial_state (session_id user_message : string) : AgentState :=
  list_to_map
    [ ("messages", FList [FMsg (HumanMessage user_message)]);
      ("current_step", FStr WorkflowStep.IDLE);
      ("next_node", FStr NodeName.MAIN_AGENT);
      ("rfps_identified", FList []);
      ("selected_rfp", FNone);
      ("user_selected_rfp_id", FNone);
      ("technical_analysis", FNone);
      ("pricing_analysis", FNone);
      ("final_response", FNone);
      ("report_path", FNone);
      ("report_url", FNone);
      ("product_summary", FNone);
      ("test_summary", FNone);
      ("waiting_for_user", FBool false);
      ("user_prompt", FNone);
      ("agent_reasoning", FList []);
      ("tool_calls_made", FList []);
      ("session_id", FStr session_id);
      ("error", FNone) ].

Definition is_waiting_for_user (state : AgentState) : Field :=
  get_or state "waiting_for_user" (FBool false).

(** [state.get("error") is not None] *)
Definition has_error (state : AgentState) : bool :=
  match get state "error" with
  | FNone => false
  | _ => true
  end.

Definition is_complete (state : AgentState) : bool :=
  field_eq_str (get state "current_step") WorkflowStep.COMPLETE.

Definition is_ai_message (f : Field) : option string :=
  match f with
  | FMsg {| role := AI; content := c |} => Some c
  | _ => None
  end.

Fixpoint first_ai_content (l : list Field) : option string :=
  match l with
  | [] => None
  | f :: l' =>
      match is_ai_message f with
      | Some c => Some c
      | None => first_ai_content l'
      end
  end.

(** The list under ["messages"], empty when the key was never written. *)
Definition messages_or_empty (state : AgentState) : list Field :=
  match state !! "messages" with
  | Some (FList l) => l
  | _ => []
  end.

(** [state["messages"]] must be there and must be a sequence. *)
Definition messages_of (state : AgentState) : result (list Field) :=
  f ← getitem "messages" (state !! "messages");
  match f with
  | FList l => mret l
  | _ => Raise (Exn "TypeError" "messages is not a list")
  end.

Definition get_last_ai_message_content (state : AgentState) : result string :=
  l ← messages_of state;
  mret (default "Processing your request..." (first_ai_content (rev l))).

(** The channel reducers declared by the annotations of [AgentState]:
    ["messages"] is [Annotated[List[BaseMessage], operator.add]], so an
    update is added to the list that is there (an empty list when the
    key was never written); every other key takes the update's value. *)
Definition apply_update (state update : AgentState) : result AgentState :=
  match update !! "messages" with
  | None => mret (update ∪ state)
  | Some (FList new) =>
      match state !! "messages" with
      | None => mret (<["messages" := FList new]> (update ∪ state))
      | Some (FList old) =>
          mret (<["messages" := FList (old ++ new)]> (update ∪ state))
      | Some _ => Raise (Exn "TypeError" "unsupported operand type(s) for +")
      end
  | Some _ => Raise (Exn "TypeError" "unsupported operand type(s) for +")
  end.

End State.

(** ** What the stages call

    The language model, the files on disk, the JSON printer and the
    prompt texts are left abstract, and so are the two node functions
    whose modules ([agents/main_agent/node.py],
    [agents/pricing_agent/node.py]) are imported by [agents/graph.py]. *)

Module Env.
Import SalesTools TechTools State.

Class Collaborators : Type := {
  (** [get_shared_llm()]: raises when the API key is not set; the
      function it yields is [lambda messages: llm.invoke(messages).content]. *)
  get_shared_llm : result (list Field → result string);
  (** [scan_rfps_tool.invoke({"keywords": ..., "days_ahead": ...})] *)
  scan_rfps_tool : list string → Z → result (list Rfp);
  (** [json.dumps(..., indent=2, default=str)] *)
  json_dumps_rfps : list Rfp → string;
  SALES_AGENT_SYSTEM_PROMPT : string;
  (** the f-string [format_prompt], from its four holes *)
  format_prompt : nat → nat → nat → string → string;
  TECHNICAL_AGENT_PROMPT : string;
  build_technical_prompt : Rfp → string;
  extract_requirements : string → gmap string Value;
  load_oem_catalog : list Product;
  (** the f-string [matching_context], from its three holes *)
  matching_context :
    gmap string Value → list Scored → list (list (Value * Value)) → string;
  main_agent_node : AgentState → result AgentState;
  pricing_agent_node : AgentState → result AgentState;
}.

End Env.

(** ** agents/sales_agent/node.py and agents/technical_agent/node.py *)

Module Nodes.
Import SalesTools TechTools State Env.

(** [try: body except Exception as e: handler(e)] *)
Definition try_except {A} (body : result A) (handler : exn → A) : A :=
  match body with
  | Ok a => a
  | Raise e => handler e
  end.

Definition nl : string := String (ascii_of_nat 10) EmptyString.

Definition cross_mark : string := "❌".

Section WithCollaborators.
Context `{Collaborators}.

Definition sales_keywords : list string :=
  ["cable"; "wire"; "electrical"; "xlpe"; "transmission"; "power"].

Definition sales_criteria : Criteria :=
  {| c_min_tender_value := Some 1000000;
     c_min_days_remaining := Some 7;
     c_preferred_locations := Some [] |}.

Definition sales_agent_node (state : AgentState) : result AgentState :=
  llm ← get_shared_llm;
  mret (try_except
    (scanned_rfps ← scan_rfps_tool sales_keywords 90;
     match scanned_rfps with
     | [] =>
         mret (list_to_map
           [ ("messages", FList [FMsg (AIMessage
                "No RFPs found matching your criteria. Try different search terms.")]);
             ("next_node", FStr NodeName.END);
             ("current_step", FStr WorkflowStep.COMPLETE) ])
     | _ :: _ =>
         let criteria := sales_criteria in
         qualifications ← mapM (fun rfp => qualify_rfp_tool rfp criteria) scanned_rfps;
         top_rfps ← prioritize_rfps_tool scanned_rfps qualifications 5;
         match top_rfps with
         | [] =>
             mret (list_to_map
               [ ("messages", FList [FMsg (AIMessage
                    "No RFPs qualified based on criteria. Try adjusting your requirements.")]);
                 ("next_node", FStr NodeName.END);
                 ("current_step", FStr WorkflowStep.COMPLETE) ])
         | _ :: _ =>
             let rfp_data := json_dumps_rfps top_rfps in
             history ← messages_of state;
             let messages := FMsg (SystemMessage SALES_AGENT_SYSTEM_PROMPT) :: history in
             let prompt :=
               format_prompt (length scanned_rfps)
                 (length (filter (fun q => q_qualified q = true) qualifications))
                 (length top_rfps) rfp_data in
             response ← llm (messages ++ [FMsg (HumanMessage prompt)]);
             mret (list_to_map
               [ ("messages", FList [FMsg (AIMessage response)]);
                 ("rfps_identified", FList (FRfp <$> top_rfps));
                 ("current_step", FStr WorkflowStep.WAITING_USER);
                 ("next_node", FStr NodeName.END) ])
         end
     end)
    (fun e =>
       list_to_map
         [ ("messages", FList [FMsg (AIMessage ("Error: " +:+ exn_str e))]);
           ("next_node", FStr NodeName.END);
           ("current_step", FStr WorkflowStep.ERROR) ])).

(** The [try] block of [technical_agent_node]. *)
Definition technical_analysis_of (llm : list Field → result string)
    (selected_rfp : Rfp) : result AgentState :=
  let analysis_prompt := build_technical_prompt selected_rfp in
  let rfp_text :=
    default "" (r_title selected_rfp) +:+ " " +:+
    default "" (r_description selected_rfp) in
  let requirements := extract_requirements rfp_text in
  let catalog := load_oem_catalog in
  let recommendations :=
    match catalog with
    | [] => []
    | _ :: _ => match_oem_products catalog requirements 3
    end in
  let comparison_table :=
    match recommendations with
    | [] => []
    | _ :: _ => build_comparison_table recommendations
    end in
  let context := matching_context requirements recommendations comparison_table in
  let messages :=
    [ FMsg (SystemMessage TECHNICAL_AGENT_PROMPT);
      FMsg (HumanMessage (analysis_prompt +:+ nl +:+ nl +:+ context)) ] in
  response ← llm messages;
  mret (list_to_map
    [ ("messages", FList [FMsg (AIMessage response)]);
      ("technical_analysis",
        FAnalysis
          {| ta_rfp_id := r_rfp_id selected_rfp;
             ta_analysis := response;
             ta_requirements := requirements;
             ta_recommended_products := recommendations;
             ta_comparison_table := comparison_table |});
      ("current_step", FStr WorkflowStep.PRICING);
      ("next_node", FStr NodeName.PRICING_AGENT) ]).

Definition technical_agent_node (state : AgentState) : result AgentState :=
  llm ← get_shared_llm;
  let selected_rfp := get state "selected_rfp" in
  if negb (field_truthy selected_rfp) then
    mret (list_to_map
      [ ("messages", FList [FMsg (AIMessage
           "No RFP selected. Please select an RFP first.")]);
        ("next_node", FStr NodeName.END);
        ("current_step", FStr WorkflowStep.ERROR) ])
  else
    match as_dict selected_rfp with
    | Some rfp =>
        mret (try_except (technical_analysis_of llm rfp)
          (fun e =>
             list_to_map
               [ ("messages", FList [FMsg (AIMessage
                    (cross_mark +:+ " Error analyzing RFP: " +:+ exn_str e +:+ nl +:+ nl
                       +:+ "Please check backend logs for details."))]);
                 ("next_node", FStr NodeName.END);
                 ("current_step", FStr WorkflowStep.ERROR) ]))
    | None =>
        (* [selected_rfp.get('rfp_id')] in the [print] before the test *)
        Raise (Exn "AttributeError" "object has no attribute 'get'")
    end.

End WithCollaborators.
End Nodes.

(** ** agents/graph.py *)

Module Graph.
Import State Env Nodes.

(** [langgraph.graph.END], the key and target of the terminating edge.
    It is not [NodeName.END], the value the nodes write. *)
Definition END : string := "__end__".

Definition route_from_main (state : AgentState) : string :=
  let next_node := get_or state "next_node" (FStr NodeName.END) in
  if field_eq_str next_node NodeName.SALES_AGENT then "sales_agent"
  else if field_eq_str next_node NodeName.TECHNICAL_AGENT then "technical_agent"
  else END.

Definition route_from_sales (state : AgentState) : string := END.

Definition route_from_technical (state : AgentState) : string :=
  let next_node := get_or state "next_node" (FStr NodeName.END) in
  if field_eq_str next_node NodeName.PRICING_AGENT then "pricing_agent"
  else END.

Definition route_from_pricing (state : AgentState) : string :=
  let next_node := get_or state "next_node" (FStr NodeName.END) in
  if field_eq_str next_node NodeName.MAIN_AGENT then "main_agent"
  else END.

(** The successor table that the specification declares for the routing
    rule, in the values that the nodes write to ["next_node"]:
      main_agent      : sales_agent, technical_agent, END
      sales_agent     : END
      technical_agent : pricing_agent, END
      pricing_agent   : main_agent, END *)
Definition declared_successors (node : string) : list string :=
  if String.eqb node "main_agent" then
    [NodeName.SALES_AGENT; NodeName.TECHNICAL_AGENT; NodeName.END]
  else if String.eqb node "sales_agent" then [NodeName.END]
  else if String.eqb node "technical_agent" then
    [NodeName.PRICING_AGENT; NodeName.END]
  else if String.eqb node "pricing_agent" then
    [NodeName.MAIN_AGENT; NodeName.END]
  else [].

(** What [create_workflow] hands to the engine: the node functions, the
    entry point, and for each node its router with the path map that
    turns the router's answer into a target. *)
Record StateGraph : Type := {
  nodes : gmap string (AgentState → result AgentState);
  entry_point : string;
  conditional_edges : gmap string ((AgentState → string) * gmap string string);
}.

Section WithCollaborators.
Context `{Collaborators}.

Definition create_workflow : StateGraph :=
  {| nodes :=
       <["main_agent" := main_agent_node]> (
       <["sales_agent" := sales_agent_node]> (
       <["technical_agent" := technical_agent_node]> (
       <["pricing_agent" := pricing_agent_node]> ∅)));
     entry_point := "main_agent";
     conditional_edges :=
       <["main_agent" :=
           (route_from_main,
            list_to_map [ ("sales_agent", "sales_agent");
                          ("technical_agent", "technical_agent");
                          (END, END) ])]> (
       <["sales_agent" := (route_from_sales, list_to_map [ (END, END) ])]> (
       <["technical_agent" :=
           (route_from_technical,
            list_to_map [ ("pricing_agent", "pricing_agent"); (END, END) ])]> (
       <["pricing_agent" :=
           (route_from_pricing,
            list_to_map [ ("main_agent", "main_agent"); (END, END) ])]> ∅))) |}.

End WithCollaborators.

(** *** The engine

    The graph is run by the LangGraph library.  Its loop, as far as this
    graph uses it: call the node, fold its update into the state through
    the reducers, ask the node's router, look the answer up in the path
    map, and go on with the target unless it is [END].  The number of
    node calls is capped by the [recursion_limit] of the call's config. *)

(** The conditional edge out of [node]: a router answer that is not a
    key of the path map is an error of the engine. *)
Definition route (g : StateGraph) (node : string) (state : AgentState)
  : result string :=
  match conditional_edges g !! node with
  | None => mret END
  | Some (path, path_map) =>
      match path_map !! path state with
      | Some target => mret target
      | None => Raise (Exn "KeyError" (path state))
      end
  end.

Inductive Outcome : Type :=
| Finished (state : AgentState)
| Failed (e : exn) (state : AgentState)
| OutOfSteps (state : AgentState).

(** The state that a run has reached, however it ended. *)
Definition outcome_state (o : Outcome) : AgentState :=
  match o with
  | Finished state | Failed _ state | OutOfSteps state => state
  end.

(** A node function that never writes the ["error"] key. *)
Definition leaves_error (f : AgentState → result AgentState) : Prop :=
  ∀ state update, f state = Ok update → update !! "error" = None.

(** One call of a node and of its edge. *)
Definition step (g : StateGraph) (node : string) (state : AgentState)
  : result (string * AgentState) :=
  f ← getitem node (nodes g !! node);
  update ← f state;
  state' ← apply_update state update;
  target ← route g node state';
  mret (target, state').

(** The loop from [node] on, with the nodes called in order. *)
Fixpoint run_from (g : StateGraph) (recursion_limit : nat) (node : string)
    (state : AgentState) : list string * Outcome :=
  match recursion_limit with
  | O => ([], OutOfSteps state)
  | S limit =>
      match step g node state with
      | Raise e => ([node], Failed e state)
      | Ok (target, state') =>
          if String.eqb target END then ([node], Finished state')
          else
            let '(calls, outcome) := run_from g limit target state' in
            (node :: calls, outcome)
      end
  end.

(** [app.ainvoke(input, config={"configurable": {"thread_id": t}})] on a
    graph compiled with a [MemorySaver]: the input is an update of the
    state checkpointed for the thread, the run starts at the entry
    point, and the state reached is checkpointed again. *)
Definition ainvoke (g : StateGraph) (recursion_limit : nat)
    (checkpoints : gmap string AgentState) (thread_id : string)
    (input : AgentState) : result AgentState * gmap string AgentState :=
  match apply_update (default ∅ (checkpoints !! thread_id)) input with
  | Raise e => (Raise e, checkpoints)
  | Ok state =>
      match run_from g recursion_limit (entry_point g) state with
      | (_, Finished state') => (Ok state', <[thread_id := state']> checkpoints)
      | (_, Failed e state') => (Raise e, <[thread_id := state']> checkpoints)
      | (_, OutOfSteps state') =>
          (Raise (Exn "GraphRecursionError" "Recursion limit reached"),
           <[thread_id := state']> checkpoints)
      end
  end.

End Graph.

(** ** backend/core/memory_manager.py and backend/api/chat.py *)

Module Chat.
Import SalesTools TechTools State Env Nodes Graph.

(** A row of the chat message table. *)
Record StoredMessage : Type := {
  sm_type : string;
  sm_content : string;
  sm_metadata : AgentState;
}.

(** The [reasoning] text of a logged interaction, by its template. *)
Inductive Reasoning : Type :=
| StartingWorkflow
| CompletedStep (current_step : Field)
| ErrorOccurred (msg : string).

Record Interaction : Type := {
  i_session_id : string;
  i_agent_name : string;
  i_input : string;
  i_output : AgentState;
  i_reasoning : Reasoning;
}.

(** Everything the handlers read and write: the database behind
    [drizzle_client], the two dicts of the [memory_manager] singleton,
    the module-level [chat_sessions] dict, and the [MemorySaver] of the
    compiled workflow.  Times are seconds. *)
Record Server : Type := {
  db_available : bool;
  db_sessions : gmap string AgentState;
  db_messages : gmap string (list StoredMessage);
  db_interactions : list Interaction;
  memory_cache : gmap string (list Message);
  last_sync : gmap string Z;
  chat_sessions : gmap string AgentState;
  checkpoints : gmap string AgentState;
}.

Definition with_db_sessions (v : gmap string AgentState) (s : Server) : Server :=
  {| db_available := db_available s; db_sessions := v;
     db_messages := db_messages s; db_interactions := db_interactions s;
     memory_cache := memory_cache s; last_sync := last_sync s;
     chat_sessions := chat_sessions s; checkpoints := checkpoints s |}.

Definition with_db_messages (v : gmap string (list StoredMessage)) (s : Server) : Server :=
  {| db_available := db_available s; db_sessions := db_sessions s;
     db_messages := v; db_interactions := db_interactions s;
     memory_cache := memory_cache s; last_sync := last_sync s;
     chat_sessions := chat_sessions s; checkpoints := checkpoints s |}.

Definition with_db_interactions (v : list Interaction) (s : Server) : Server :=
  {| db_available := db_available s; db_sessions := db_sessions s;
     db_messages := db_messages s; db_interactions := v;
     memory_cache := memory_cache s; last_sync := last_sync s;
     chat_sessions := chat_sessions s; checkpoints := checkpoints s |}.

Definition with_memory_cache (v : gmap string (list Message)) (s : Server) : Server :=
  {| db_available := db_available s; db_sessions := db_sessions s;
     db_messages := db_messages s; db_interactions := db_interactions s;
     memory_cache := v; last_sync := last_sync s;
     chat_sessions := chat_sessions s; checkpoints := checkpoints s |}.

Definition with_last_sync (v : gmap string Z) (s : Server) : Server :=
  {| db_available := db_available s; db_sessions := db_sessions s;
     db_messages := db_messages s; db_interactions := db_interactions s;
     memory_cache := memory_cache s; last_sync := v;
     chat_sessions := chat_sessions s; checkpoints := checkpoints s |}.

Definition with_chat_sessions (v : gmap string AgentState) (s : Server) : Server :=
  {| db_available := db_available s; db_sessions := db_sessions s;
     db_messages := db_messages s; db_interactions := db_interactions s;
     memory_cache := memory_cache s; last_sync := last_sync s;
     chat_sessions := v; checkpoints := checkpoints s |}.

Definition with_checkpoints (v : gmap string AgentState) (s : Server) : Server :=
  {| db_available := db_available s; db_sessions := db_sessions s;
     db_messages := db_messages s; db_interactions := db_interactions s;
     memory_cache := memory_cache s; last_sync := last_sync s;
     chat_sessions := chat_sessions s; checkpoints := v |}.

(** *** The database client *)

(** Modelled from the spec: [drizzle_client.save_chat_session] of
    [backend/core/db/client.py], which is not among the sources; it is
    the State Store's [put(session_id, state) -> success|failure], one
    record per session id. *)
Definition save_chat_session (session_id : string) (state : AgentState)
    (s : Server) : bool * Server :=
  if db_available s
  then (true, with_db_sessions (<[session_id := state]> (db_sessions s)) s)
  else (false, s).

(** Modelled from the spec: [drizzle_client.load_chat_session], the State
    Store's [get(session_id) -> optional WorkflowState]. *)
Definition load_chat_session (session_id : string) (s : Server)
  : option AgentState :=
  if db_available s then db_sessions s !! session_id else None.

(** Modelled from the spec: [drizzle_client.save_chat_message], a row
    added to the append-only message table of the session. *)
Definition save_chat_message (session_id : string) (m : StoredMessage)
    (s : Server) : bool * Server :=
  if db_available s
  then (true,
        with_db_messages
          (<[session_id := default [] (db_messages s !! session_id) ++ [m]]>
             (db_messages s)) s)
  else (false, s).

(** Modelled from the spec: [drizzle_client.save_agent_interaction], a
    row added to the interaction log. *)
Definition save_agent_interaction (i : Interaction) (s : Server) : bool * Server :=
  if db_available s
  then (true, with_db_interactions (db_interactions s ++ [i]) s)
  else (false, s).

(** *** AgentMemoryManager *)

(** [get_memory]: a session that is not cached gets a fresh, empty
    buffer.  [_load_messages_from_db] is a coroutine that is called here
    without [await], so its body does not run. *)
Definition get_memory (session_id : string) (s : Server) : Server :=
  match memory_cache s !! session_id with
  | Some _ => s
  | None => with_memory_cache (<[session_id := []]> (memory_cache s)) s
  end.

(** [memory.chat_memory.add_user_message] and [add_ai_message] on the
    buffer that [get_memory] returned. *)
Definition remember (session_id : string) (m : Message) (s : Server) : Server :=
  let s := get_memory session_id s in
  with_memory_cache
    (<[session_id := default [] (memory_cache s !! session_id) ++ [m]]>
       (memory_cache s)) s.

Definition save_agent_state (now : Z) (session_id : string) (state : AgentState)
    (s : Server) : bool * Server :=
  let '(success, s) := save_chat_session session_id state s in
  if success
  then (true, with_last_sync (<[session_id := now]> (last_sync s)) s)
  else (false, s).

Definition load_agent_state (session_id : string) (s : Server)
  : option AgentState :=
  load_chat_session session_id s.

Definition _sync_session_state (now : Z) (session_id : string) (s : Server) : Server :=
  let stale :=
    match last_sync s !! session_id with
    | None => true
    | Some t => 30 <? now - t
    end in
  if stale then
    let state : AgentState :=
      list_to_map
        [ ("messages", FList []);
          ("current_step", FStr "IDLE");
          ("session_id", FStr session_id) ] in
    snd (save_agent_state now session_id state s)
  else s.

Definition add_user_message (now : Z) (session_id message : string) (s : Server)
  : bool * Server :=
  let s := remember session_id (HumanMessage message) s in
  let '(success, s) :=
    save_chat_message session_id
      {| sm_type := "user"; sm_content := message; sm_metadata := ∅ |} s in
  (success, _sync_session_state now session_id s).

Definition add_ai_message (now : Z) (session_id message : string)
    (metadata : AgentState) (s : Server) : bool * Server :=
  let s := remember session_id (AIMessage message) s in
  let '(success, s) :=
    save_chat_message session_id
      {| sm_type := "assistant"; sm_content := message; sm_metadata := metadata |} s in
  (success, _sync_session_state now session_id s).

Definition clear_memory (session_id : string) (s : Server) : bool * Server :=
  let s := with_memory_cache (delete session_id (memory_cache s)) s in
  let s := with_last_sync (delete session_id (last_sync s)) s in
  (true, s).

Definition log_agent_interaction (session_id agent_name input : string)
    (output : AgentState) (reasoning : Reasoning) (s : Server) : bool * Server :=
  save_agent_interaction
    {| i_session_id := session_id; i_agent_name := agent_name; i_input := input;
       i_output := output; i_reasoning := reasoning |} s.

(** *** The handlers of backend/api/chat.py *)

Record ChatResponse : Type := {
  response : string;
  cr_session_id : string;
  timestamp : Z;
  workflow_state : AgentState;
}.

(** The state that [chat] hands to the workflow: the stored state of
    the session with its ["messages"] replaced by the new user message,
    or a fresh state when nothing (or an empty dict) is stored. *)
Definition chat_input (session_id message : string) (s : Server) : AgentState :=
  match load_agent_state session_id s with
  | Some state =>
      if bool_decide (dom state = ∅)
      then create_initial_state session_id message
      else <["messages" := FList [FMsg (HumanMessage message)]]> state
  | None => create_initial_state session_id message
  end.

Section WithCollaborators.
Context `{Collaborators}.

(** The call's config names the thread only, so the engine runs with
    the library's default recursion limit. *)
Context (recursion_limit : nat).

(** The [except Exception as e] branch of [chat]. *)
Definition chat_failed (now : Z) (session_id message : string) (e : exn)
    (s : Server) : ChatResponse * Server :=
  let '(_, s) :=
    log_agent_interaction session_id "main_agent" message ∅
      (ErrorOccurred (exn_str e)) s in
  ({| response := "Error: " +:+ exn_str e;
      cr_session_id := session_id;
      timestamp := now;
      workflow_state := {[ "current_step" := FStr "ERROR" ]} |}, s).

(** [POST /api/chat].  [t1] is the clock before the workflow runs and
    [t2] the clock after it. *)
Definition chat (t1 t2 : Z) (session_id message : string) (s : Server)
  : ChatResponse * Server :=
  let state := chat_input session_id message s in
  let '(_, s) := add_user_message t1 session_id message s in
  let '(_, s) :=
    log_agent_interaction session_id "main_agent" message ∅ StartingWorkflow s in
  let '(outcome, checkpoints') :=
    ainvoke create_workflow recursion_limit (checkpoints s) session_id state in
  let s := with_checkpoints checkpoints' s in
  match outcome with
  | Raise e => chat_failed t2 session_id message e s
  | Ok result =>
      match get_last_ai_message_content result with
      | Raise e => chat_failed t2 session_id message e s
      | Ok response_text =>
          let '(_, s) :=
            add_ai_message t2 session_id response_text
              (list_to_map
                 [ ("current_step", get result "current_step");
                   ("rfps_identified", get_or result "rfps_identified" (FList [])) ])
              s in
          let '(_, s) := save_agent_state t2 session_id result s in
          let s := with_chat_sessions (<[session_id := result]> (chat_sessions s)) s in
          let '(_, s) :=
            log_agent_interaction session_id "main_agent" message
              (list_to_map
                 [ ("response", FStr response_text);
                   ("state", get result "current_step") ])
              (CompletedStep (get result "current_step")) s in
          ({| response := response_text;
              cr_session_id := session_id;
              timestamp := t2;
              workflow_state :=
                list_to_map
                  [ ("current_step", get_or result "current_step" (FStr "COMPLETE"));
                    ("rfps_identified", get_or result "rfps_identified" (FList []));
                    ("report_url", get result "report_url") ] |}, s)
      end
  end.

End WithCollaborators.

(** [DELETE /api/chat/sessions/{session_id}] *)
Definition clear_session (session_id : string) (s : Server) : string * Server :=
  let '(_, s) := clear_memory session_id s in
  let s :=
    match chat_sessions s !! session_id with
    | Some _ => with_chat_sessions (delete session_id (chat_sessions s)) s
    | None => s
    end in
  ("Session " +:+ session_id +:+ " cleared", s).

(** [DELETE /api/chat/{session_id}], which the module defines under the
    same Python name: [chat_sessions.pop(session_id, None)]. *)
Definition clear_session_pop (session_id : string) (s : Server) : string * Server :=
  ("Session cleared",
   with_chat_sessions (delete session_id (chat_sessions s)) s).

(** One entry of [rfps_summary]. *)
Record RfpSummary : Type := {
  rs_id : string;
  rs_title : option string;
  rs_client : option string;
  rs_estimated_value : option Z;
  rs_submission_deadline : option string;
  rs_priority_score : option Z;
}.

Record SelectedSummary : Type := {
  ss_id : string;
  ss_title : option string;
  ss_client : option string;
}.

(** The two shapes of the answer of [get_workflow_state]. *)
Inductive StateView : Type :=
| NoSession (session_id : string)
| Session (session_id : string)
    (current_step next_node waiting_for_user : Field)
    (rfps_identified : list RfpSummary)
    (selected_rfp : option SelectedSummary)
    (report_url error : Field).

(** [rfp.get("id") or rfp.get("rfp_id", "")] *)
Definition get_rfp_id (rfp : Rfp) : string :=
  match r_id rfp with
  | Some i => if String.eqb i "" then default "" (r_rfp_id rfp) else i
  | None => default "" (r_rfp_id rfp)
  end.

(** [r.get("estimated_value") or r.get("value")] *)
Definition get_estimated_value (r : Rfp) : option Z :=
  match r_estimated_value r with
  | Some v => if v =? 0 then r_value r else Some v
  | None => r_value r
  end.

Definition summarize (r : Rfp) : RfpSummary :=
  {| rs_id := get_rfp_id r;
     rs_title := r_title r;
     rs_client := r_client r;
     rs_estimated_value := get_estimated_value r;
     rs_submission_deadline := r_submission_deadline r;
     rs_priority_score := r_priority_score r |}.

(** [[... for r in rfps_identified if isinstance(r, dict)]], where
    [rfps_identified] is [state.get("rfps_identified", []) or []].
    Iterating a string, a dict or a message yields no dict; a bool
    cannot be iterated. *)
Definition rfps_summary (f : Field) : result (list RfpSummary) :=
  match f with
  | FList l => mret (summarize <$> omap as_dict l)
  | FBool true => Raise (Exn "TypeError" "'bool' object is not iterable")
  | _ => mret []
  end.

(** [GET /api/chat/state/{session_id}] *)
Definition get_workflow_state (session_id : string) (s : Server)
  : result StateView * Server :=
  match chat_sessions s !! session_id with
  | None => (Ok (NoSession session_id), s)
  | Some state =>
      if bool_decide (dom state = ∅) then (Ok (NoSession session_id), s)
      else
        let selected_rfp := get state "selected_rfp" in
        (summary ← rfps_summary (get_or state "rfps_identified" (FList []));
         let selected_rfp_summary :=
           match as_dict selected_rfp with
           | Some r =>
               Some {| ss_id := get_rfp_id r; ss_title := r_title r;
                       ss_client := r_client r |}
           | None => None
           end in
         mret (Session session_id
                 (get state "current_step")
                 (get state "next_node")
                 (get_or state "waiting_for_user" (FBool false))
                 summary selected_rfp_summary
                 (get state "report_url")
                 (get state "error")),
         s)
  end.

End Chat.

(** ** Concrete inputs *)

Module Examples.
Import SalesTools TechTools State Env Nodes Graph Chat.

Definition blank_rfp : Rfp :=
  {| r_rfp_id := None; r_id := None; r_title := None; r_description := None;
     r_category := None; r_due_date := None; r_location := None;
     r_client := None; r_submission_deadline := None; r_tender_value := None;
     r_estimated_value := None; r_value := None; r_days_remaining := None;
     r_priority_score := None; r_qualification := None |}.

(** Three days left, a tender of one crore. *)
Definition late_rfp : Rfp :=
  {| r_rfp_id := Some "RFP-001"; r_id := None;
     r_title := Some "Supply of 11 kV XLPE cable";
     r_description := Some "Three core armoured copper cable";
     r_category := Some "Cables"; r_due_date := Some "2025-01-10";
     r_location := Some "Pune"; r_client := None;
     r_submission_deadline := None; r_tender_value := Some 10000000;
     r_estimated_value := None; r_value := None; r_days_remaining := Some 3;
     r_priority_score := None; r_qualification := None |}.

Definition copper_xlpe : Product :=
  {| p_sku := Some (VStr "CU-XLPE-3C"); p_product_name := Some (VStr "3C copper XLPE");
     p_price_per_km := Some (VInt 850000);
     p_specifications :=
       Some (list_to_map
         [ ("conductor", VStr " Copper "); ("cores", VInt 3);
           ("insulation", VStr "XLPE") ]) |}.

Definition unspecified : Product :=
  {| p_sku := Some (VStr "GEN-000"); p_product_name := None;
     p_price_per_km := None; p_specifications := None |}.

Definition demo_catalog : list Product := [unspecified; copper_xlpe; unspecified].

Definition demo_requirements : gmap string Value :=
  list_to_map
    [ ("voltage_rating", VNone); ("conductor", VStr "Copper"); ("size", VNone);
      ("cores", VInt 3); ("insulation", VStr "XLPE"); ("armour", VNone);
      ("cable_type", VStr "XLPE"); ("application", VNone) ].

(** Collaborators that always answer: the language model is there and
    replies, the scan finds what it is given, the catalog is
    [demo_catalog]. *)
Definition answering (found : list Rfp)
    (main pricing : AgentState → result AgentState) : Collaborators :=
  {| get_shared_llm := Ok (fun _ => Ok "Here is the analysis.");
     scan_rfps_tool := fun _ _ => Ok found;
     json_dumps_rfps := fun _ => "[]";
     SALES_AGENT_SYSTEM_PROMPT := "You are an expert Sales Agent.";
     format_prompt := fun _ _ _ data => data;
     TECHNICAL_AGENT_PROMPT := "You are a Technical Analysis Agent.";
     build_technical_prompt := fun _ => "Analyze this RFP technically:";
     extract_requirements := fun _ => demo_requirements;
     load_oem_catalog := demo_catalog;
     matching_context := fun _ _ _ => "";
     main_agent_node := main;
     pricing_agent_node := pricing |}.

(** A main agent that replies and ends the turn. *)
Definition replying : Collaborators :=
  answering []
    (fun _ =>
       Ok (list_to_map
             [ ("messages", FList [FMsg (AIMessage "How can I help?")]);
               ("next_node", FStr NodeName.END) ]))
    (fun _ => Ok {[ "next_node" := FStr NodeName.END ]}).

(** A main agent that always hands over to the technical agent and a
    pricing agent that always hands back to the main agent. *)
Definition looping : Collaborators :=
  answering []
    (fun _ => Ok {[ "next_node" := FStr NodeName.TECHNICAL_AGENT ]})
    (fun _ => Ok {[ "next_node" := FStr NodeName.MAIN_AGENT ]}).

(** A state in which an RFP has been selected. *)
Definition selected_state : AgentState :=
  <["selected_rfp" := FRfp late_rfp]> (create_initial_state "s1" "analyse RFP-001").

Definition empty_server : Server :=
  {| db_available := true; db_sessions := ∅; db_messages := ∅;
     db_interactions := []; memory_cache := ∅; last_sync := ∅;
     chat_sessions := ∅; checkpoints := ∅ |}.

End Examples.

(** ** What the discovery stage sends to the model *)

Module Discovery.
Import SalesTools State Env Nodes.

Section WithCollaborators.
Context `{Collaborators}.

(** What [sales_agent_node] sends to the model: the system prompt, the
    messages of the state, and the prompt with the three counts and the
    JSON text of the top RFPs. *)
Definition presentation (history : list Field) (scanned_rfps : list Rfp)
    (qualifications : list Qualification) (top_rfps : list Rfp) : list Field :=
  (FMsg (SystemMessage SALES_AGENT_SYSTEM_PROMPT) :: history) ++
  [FMsg (HumanMessage
     (format_prompt (length scanned_rfps)
        (length (filter (fun q => q_qualified q = true) qualifications))
        (length top_rfps) (json_dumps_rfps top_rfps)))].

End WithCollaborators.
End Discovery.

(** ** The cycle of the workflow *)

Module Cycle.
Import SalesTools State.

(** The edges of [create_workflow] close a cycle:
    main_agent → technical_agent → pricing_agent → main_agent. *)
Definition after (node : string) : string :=
  if String.eqb node "main_agent" then "technical_agent"
  else if String.eqb node "technical_agent" then "pricing_agent"
  else "main_agent".


End Cycle.

(** ** More concrete inputs *)

Module Samples.
Import SalesTools TechTools State Env Nodes Graph Chat Examples.

(** Forty days left, a tender of one crore. *)
Definition roomy_rfp : Rfp :=
  {| r_rfp_id := Some "RFP-002"; r_id := None;
     r_title := Some "Supply of 33 kV power cable";
     r_description := Some "Single core aluminium cable";
     r_category := Some "Cables"; r_due_date := Some "2025-02-16";
     r_location := Some "Pune"; r_client := None;
     r_submission_deadline := None; r_tender_value := Some 10000000;
     r_estimated_value := None; r_value := None; r_days_remaining := Some 40;
     r_priority_score := None; r_qualification := None |}.

(** A small tender in twenty days. *)
Definition small_rfp : Rfp :=
  {| r_rfp_id := Some "RFP-003"; r_id := None;
     r_title := Some "Annual maintenance of street lights";
     r_description := Some "Electrical maintenance";
     r_category := Some "Services"; r_due_date := Some "2025-01-27";
     r_location := Some "Nagpur"; r_client := None;
     r_submission_deadline := None; r_tender_value := Some 200000;
     r_estimated_value := None; r_value := None; r_days_remaining := Some 20;
     r_priority_score := None; r_qualification := None |}.

(** The scan finds three records. *)
Definition finding : Collaborators :=
  answering [late_rfp; roomy_rfp; small_rfp] (fun _ => Ok ∅) (fun _ => Ok ∅).


End Samples.

(** ** Scores that compare equal *)

Module Scores.

(** [a == b] on the floats that stand for scores. *)
#[global] Instance Qeq_decision (a b : Q) : Decision (a == b)%Q := Qeq_dec a b.

End Scores.

(** ** agents/sales_agent/tools.py: the scan *)

Module SalesScan.
Import SalesTools.

(** Instants and durations of [datetime] are counted in microseconds,
    instants from 0001-01-01T00:00:00 on, which is [datetime.min]. *)
Definition day : Z := 86400000000.

(** [timedelta(days=n)]: the day count of a [timedelta] is limited. *)
Definition timedelta_days (n : Z) : result Z :=
  if (-999999999 <=? n) && (n <=? 999999999) then Ok (n * day)
  else Raise (Exn "OverflowError"
                ("days=" +:+ str_of_Z n +:+ "; must have magnitude <= 999999999")).

(** [t + delta] on a [datetime]: the sum must be a date of the years
    1 to 9999. *)
Definition datetime_add (t delta : Z) : result Z :=
  if (0 <=? t + delta) && (t + delta <? 3652059 * day) then Ok (t + delta)
  else Raise (Exn "OverflowError" "date value out of range").

(** [(a - b).days]: a [timedelta] is normalised so that its seconds and
    microseconds are not negative, and so [days] is the floor. *)
Definition timedelta_days_of (a b : Z) : Z := (a - b) / day.

(** [rfp['days_remaining'] = d] *)
Definition set_days_remaining (d : Z) (rfp : Rfp) : Rfp :=
  {| r_rfp_id := r_rfp_id rfp; r_id := r_id rfp; r_title := r_title rfp;
     r_description := r_description rfp; r_category := r_category rfp;
     r_due_date := r_due_date rfp; r_location := r_location rfp;
     r_client := r_client rfp;
     r_submission_deadline := r_submission_deadline rfp;
     r_tender_value := r_tender_value rfp;
     r_estimated_value := r_estimated_value rfp; r_value := r_value rfp;
     r_days_remaining := Some d;
     r_priority_score := r_priority_score rfp;
     r_qualification := r_qualification rfp |}.

(** The [any(...)] over the lowered keywords. *)
Definition matches (keywords_lower : list string) (rfp : Rfp) : bool :=
  existsb
    (fun keyword =>
       contains keyword (lower (default "" (r_title rfp))) ||
       contains keyword (lower (default "" (r_description rfp))) ||
       contains keyword (lower (default "" (r_category rfp))))
    keywords_lower.

Section WithClock.

(** What the scan reads from outside: the records that [load_mock_rfps]
    finds in [data/mock_rfps.json] (an empty list when no file can be
    read), [datetime.strptime(s, "%Y-%m-%d")] with [None] for its
    [ValueError], and the clock, of which [now n] is the reading of the
    [n]-th call of [datetime.now()]. *)
Context (load_mock_rfps : list Rfp).
Context (strptime : string → option Z).
Context (now : nat → Z).

(** The second loop.  [tick] counts the clock readings made so far.
    A record without ["due_date"] ([KeyError]) or with a date that does
    not parse ([ValueError]) is passed over. *)
Fixpoint date_filter (cutoff_date : Z) (tick : nat) (filtered_rfps : list Rfp)
  : list Rfp :=
  match filtered_rfps with
  | [] => []
  | rfp :: rest =>
      match r_due_date rfp ≫= strptime with
      | Some due_date =>
          if due_date <=? cutoff_date then
            let days_remaining := timedelta_days_of due_date (now tick) in
            set_days_remaining (Z.max days_remaining 0) rfp
              :: date_filter cutoff_date (S tick) rest
          else date_filter cutoff_date tick rest
      | None => date_filter cutoff_date tick rest
      end
  end.

Definition scan_rfps_tool (keywords : list string) (days_ahead : Z)
  : result (list Rfp) :=
  let mock_rfps := load_mock_rfps in
  match mock_rfps with
  | [] => mret []
  | _ :: _ =>
      let keywords_lower := lower <$> keywords in
      let filtered_rfps :=
        filter (fun rfp => matches keywords_lower rfp = true) mock_rfps in
      delta ← timedelta_days days_ahead;
      cutoff_date ← datetime_add (now 0) delta;
      mret (date_filter cutoff_date 1 filtered_rfps)
  end.

(** A record whose due date parses and is not after the cutoff. *)
Definition due_by (cutoff_date : Z) (rfp : Rfp) : bool :=
  match r_due_date rfp ≫= strptime with
  | Some due_date => due_date <=? cutoff_date
  | None => false
  end.

End WithClock.
End SalesScan.

(** ** agents/technical_agent/tools.py: requirements from free text *)

(** The fragment of Python's [re] that the patterns of
    [extract_requirements] use, matched the way [re] matches: by
    backtracking, a repetition trying the longest run first and an
    alternation its branches from left to right.  The text is taken to
    be ASCII, as for [lower]: [\d] is then a decimal digit and [\s] the
    white space of [str.isspace]. *)
Module Re.

Inductive regex : Type :=
| Chr (p : ascii → bool)
| Eps
| Cat (a b : regex)
| Alt (a b : regex)
| Star (a : regex).

(** [a+], [a?] and a literal text *)
Definition Plus (a : regex) : regex := Cat a (Star a).

Definition Opt (a : regex) : regex := Alt a Eps.

Fixpoint Lit (s : string) : regex :=
  match s with
  | EmptyString => Eps
  | String c r => Cat (Chr (Ascii.eqb c)) (Lit r)
  end.

Definition is_digit (c : ascii) : bool :=
  let n := nat_of_ascii c in (48 <=? n)%nat && (n <=? 57)%nat.

Definition digit : regex := Chr is_digit.

Definition space : regex := Chr is_space.

(** [match_here r s k]: match [r] at the start of [s] and go on with
    [k] on what is left; when [k] fails, the next way of matching [r]
    is tried.  A round of a repetition must consume a character. *)
Fixpoint match_here {R} (r : regex) (s : string) (k : string → option R)
  : option R :=
  match r with
  | Chr p =>
      match s with
      | String c s' => if p c then k s' else None
      | EmptyString => None
      end
  | Eps => k s
  | Cat a b => match_here a s (fun s' => match_here b s' k)
  | Alt a b =>
      match match_here a s k with
      | Some x => Some x
      | None => match_here b s k
      end
  | Star a =>
      (fix star (fuel : nat) (s : string) : option R :=
         match fuel with
         | O => k s
         | S fuel' =>
             match
               match_here a s
                 (fun s' =>
                    if (String.length s' <? String.length s)%nat
                    then star fuel' s' else None)
             with
             | Some x => Some x
             | None => k s
             end
         end) (String.length s) s
  end.

(** A match of the pattern [(a)b] at the start of [s]: the text of
    group 1. *)
Definition match_group1 (a b : regex) (s : string) : option string :=
  match_here a s
    (fun s1 =>
       match_here b s1
         (fun _ => Some (substring 0 (String.length s - String.length s1) s))).

(** [re.search(r"(a)b", s)]: the leftmost match, [None] when there is
    none; of the match object the code reads [group(1)] only. *)
Fixpoint search_group1 (a b : regex) (s : string) : option string :=
  match match_group1 a b s with
  | Some g => Some g
  | None =>
      match s with
      | EmptyString => None
      | String _ s' => search_group1 a b s'
      end
  end.

(** [int(g)] for a text of decimal digits. *)
Definition int_of_digits (g : string) : Z :=
  fold_left (fun acc c => acc * 10 + (Z.of_nat (nat_of_ascii c) - 48))
    (list_ascii_of_string g) 0.

End Re.

Module Requirements.
Import TechTools Re.

Definition extract_requirements (text : string) : gmap string Value :=
  let text_lower := lower text in
  let voltage :=
    (* (\d+(\.\d+)?)\s*kv *)
    match
      search_group1 (Cat (Plus digit) (Opt (Cat (Lit ".") (Plus digit))))
        (Cat (Star space) (Lit "kv")) text_lower
    with
    | Some g => VStr (g +:+ " kV")
    | None => VNone
    end in
  let conductor :=
    if contains "copper" text_lower then VStr "Copper"
    else if contains "aluminium" text_lower || contains "aluminum" text_lower
    then VStr "Aluminum"
    else VNone in
  let size :=
    (* (\d+)\s*(sq\.?mm|mm2|mm\^2) *)
    match
      search_group1 (Plus digit)
        (Cat (Star space)
           (Alt (Cat (Lit "sq") (Cat (Opt (Lit ".")) (Lit "mm")))
              (Alt (Lit "mm2") (Lit "mm^2"))))
        text_lower
    with
    | Some g => VStr (g +:+ " sq.mm")
    | None => VNone
    end in
  let insulation :=
    if contains "xlpe" text_lower then VStr "XLPE"
    else if contains "pvc" text_lower then VStr "PVC"
    else if contains "fr" text_lower || contains "fr-lsh" text_lower
            || contains "lszh" text_lower
    then VStr "FR"
    else VNone in
  let cores :=
    (* (\d+)\s*core *)
    match search_group1 (Plus digit) (Cat (Star space) (Lit "core")) text_lower with
    | Some g => VInt (int_of_digits g)
    | None =>
        if contains "single core" text_lower then VInt 1
        else if contains "three core" text_lower || contains "three-core" text_lower
        then VInt 3
        else VNone
    end in
  let armour :=
    if contains "armour" text_lower || contains "armored" text_lower
       || contains "armoured" text_lower
    then
      if contains "steel tape" text_lower then VStr "Steel Tape"
      else if contains "swa" text_lower then VStr "SWA"
      else VStr "GI Wire"
    else VNone in
  let cable_type := if truthy insulation then insulation else VNone in
  let application :=
    if contains "underground" text_lower then VStr "Underground"
    else if contains "overhead" text_lower then VStr "Overhead"
    else VNone in
  list_to_map
    [ ("voltage_rating", voltage);
      ("conductor", conductor);
      ("size", size);
      ("cores", cores);
      ("insulation", insulation);
      ("armour", armour);
      ("cable_type", cable_type);
      ("application", application) ].

End Requirements.

(** ** agents/graph.py: the edges *)

Module CallOrder.

(** The edges that [create_workflow] declares between stages: the
    targets, other than [END], of the path maps of
    [add_conditional_edges]. *)
Definition follows (a b : string) : Prop :=
  (a = "main_agent" ∧ (b = "sales_agent" ∨ b = "technical_agent")) ∨
  (a = "technical_agent" ∧ b = "pricing_agent") ∨
  (a = "pricing_agent" ∧ b = "main_agent").

End CallOrder.

(** ** backend/core/memory_manager.py: reading the buffers *)

Module Memory.
Import State Chat.

(** The arguments with which the module builds its [memory_manager]. *)
Definition window_size : Z := 10.

Definition max_messages : Z := 100.

(** [l[start:]] for an int [start]: a negative one counts from the end. *)
Definition slice_from {A} (start : Z) (l : list A) : list A :=
  if 0 <=? start then drop (Z.to_nat start) l
  else drop (length l - Z.to_nat (- start))%nat l.

(** [memory.chat_memory.messages] of the buffer that [get_memory]
    returns. *)
Definition get_messages (session_id : string) (s : Server)
  : list Message * Server :=
  let s := get_memory session_id s in
  (default [] (memory_cache s !! session_id), s).

Definition get_recent_messages (session_id : string) (limit : Z) (s : Server)
  : list Message * Server :=
  let '(all_messages, s) := get_messages session_id s in
  (if limit <? Z.of_nat (length all_messages)
   then slice_from (- limit) all_messages
   else all_messages, s).

(** [isinstance(m, HumanMessage)] and the like. *)
Definition isinstance (m : Message) (r : Role) : bool :=
  match role m, r with
  | Human, Human | AI, AI | System, System => true
  | _, _ => false
  end.

(** The dict literal that [get_session_stats] returns. *)
Record SessionStats : Type := {
  st_session_id : string;
  st_total_messages : nat;
  st_user_messages : nat;
  st_ai_messages : nat;
  st_window_size : Z;
  st_last_sync : option Z;
  st_database_available : bool;
}.

(** [drizzle_client.is_available()], of the client that is not among
    the sources, is read as the flag [db_available]. *)
Definition get_session_stats (session_id : string) (s : Server)
  : SessionStats * Server :=
  let '(messages, s) := get_messages session_id s in
  let user_messages := filter (fun m => isinstance m Human = true) messages in
  let ai_messages := filter (fun m => isinstance m AI = true) messages in
  ({| st_session_id := session_id;
      st_total_messages := length messages;
      st_user_messages := length user_messages;
      st_ai_messages := length ai_messages;
      st_window_size := window_size;
      st_last_sync := last_sync s !! session_id;
      st_database_available := db_available s |}, s).

(** [datetime.utcnow() - timedelta(days=days_old)], in seconds from
    0001-01-01: both the [timedelta] and the difference must be in
    range. *)
Definition days_before (now days_old : Z) : result Z :=
  if (-999999999 <=? days_old) && (days_old <=? 999999999) then
    let cutoff := now - days_old * 86400 in
    if (0 <=? cutoff) && (cutoff <? 3652059 * 86400) then Ok cutoff
    else Raise (Exn "OverflowError" "date value out of range")
  else Raise (Exn "OverflowError"
                ("days=" +:+ str_of_Z days_old +:+ "; must have magnitude <= 999999999")).

(** [cleanup_old_sessions]: the sessions to remove are collected
    first, then each is cleared. *)
Definition cleanup_old_sessions (now days_old : Z) (s : Server) : result Server :=
  cutoff ← days_before now days_old;
  let sessions_to_remove :=
    (map_to_list (filter (fun entry => entry.2 < cutoff) (last_sync s))).*1 in
  mret (foldl (fun s session_id => snd (clear_memory session_id s)) s
          sessions_to_remove).

End Memory.

(** ** More concrete inputs *)

Module MoreSamples.
Import SalesTools TechTools State Env Nodes Graph Chat Examples Samples.

(** What a call returns, for a call that does return. *)
Definition returned {A} (r : result A) (otherwise : A) : A :=
  match r with
  | Ok a => a
  | Raise _ => otherwise
  end.

(** The empty analysis. *)
Definition no_analysis : TechnicalAnalysis :=
  {| ta_rfp_id := None; ta_analysis := ""; ta_requirements := ∅;
     ta_recommended_products := []; ta_comparison_table := [] |}.

Definition demo_qualifications : list Qualification :=
  [ {| q_rfp_id := "RFP-001"; q_qualified := true; q_score := 70; q_reasons := [] |};
    {| q_rfp_id := "RFP-003"; q_qualified := false; q_score := 55; q_reasons := [] |};
    {| q_rfp_id := "RFP-002"; q_qualified := true; q_score := 100; q_reasons := [] |} ].

(** No API key: [get_shared_llm] raises. *)
Definition keyless : Collaborators :=
  {| get_shared_llm := Raise (Exn "ValueError" "GROQ_API_KEY not set in environment");
     scan_rfps_tool := fun _ _ => Ok [late_rfp];
     json_dumps_rfps := fun _ => "[]";
     SALES_AGENT_SYSTEM_PROMPT := "You are an expert Sales Agent.";
     format_prompt := fun _ _ _ data => data;
     TECHNICAL_AGENT_PROMPT := "You are a Technical Analysis Agent.";
     build_technical_prompt := fun _ => "Analyze this RFP technically:";
     extract_requirements := fun _ => demo_requirements;
     load_oem_catalog := demo_catalog;
     matching_context := fun _ _ _ => "";
     main_agent_node := fun _ => Ok ∅;
     pricing_agent_node := fun _ => Ok ∅ |}.

(** A tender that closed on 2024-12-01. *)
Definition overdue_rfp : Rfp :=
  {| r_rfp_id := Some "RFP-000"; r_id := None;
     r_title := Some "Supply of XLPE Cable";
     r_description := None;
     r_category := Some "Cables"; r_due_date := Some "2024-12-01";
     r_location := Some "Pune"; r_client := None;
     r_submission_deadline := None; r_tender_value := Some 5000000;
     r_estimated_value := None; r_value := None; r_days_remaining := None;
     r_priority_score := None; r_qualification := None |}.

(** A record the scan cannot date. *)
Definition undated_rfp : Rfp :=
  {| r_rfp_id := Some "RFP-004"; r_id := None;
     r_title := Some "Power cable works";
     r_description := None;
     r_category := None; r_due_date := Some "soon";
     r_location := None; r_client := None;
     r_submission_deadline := None; r_tender_value := None;
     r_estimated_value := None; r_value := None; r_days_remaining := None;
     r_priority_score := None; r_qualification := None |}.

Definition demo_mock_rfps : list Rfp :=
  [overdue_rfp; late_rfp; small_rfp; undated_rfp; roomy_rfp].

(** The dates of the demo records, as days from 0001-01-01. *)
Definition demo_strptime (s : string) : option Z :=
  if String.eqb s "2024-12-01" then Some (739220 * SalesScan.day)
  else if String.eqb s "2025-01-10" then Some (739260 * SalesScan.day)
  else if String.eqb s "2025-01-27" then Some (739277 * SalesScan.day)
  else if String.eqb s "2025-02-16" then Some (739297 * SalesScan.day)
  else None.

(** A clock that starts at noon of 2025-01-07 and ticks a second per
    reading. *)
Definition demo_now (n : nat) : Z :=
  739257 * SalesScan.day + 43200000000 + Z.of_nat n * 1000000.

(** Collaborators that scan the demo records with that clock and read
    the requirements off the text of the RFP. *)
Definition scanning : Collaborators :=
  {| get_shared_llm := Ok (fun _ => Ok "Here is the analysis.");
     scan_rfps_tool := SalesScan.scan_rfps_tool demo_mock_rfps demo_strptime demo_now;
     json_dumps_rfps := fun _ => "[]";
     SALES_AGENT_SYSTEM_PROMPT := "You are an expert Sales Agent.";
     format_prompt := fun _ _ _ data => data;
     TECHNICAL_AGENT_PROMPT := "You are a Technical Analysis Agent.";
     build_technical_prompt := fun _ => "Analyze this RFP technically:";
     extract_requirements := Requirements.extract_requirements;
     load_oem_catalog := demo_catalog;
     matching_context := fun _ _ _ => "";
     main_agent_node := fun _ => Ok ∅;
     pricing_agent_node := fun _ => Ok ∅ |}.

(** A main agent that ends the turn without a message. *)
Definition silent : Collaborators :=
  answering []
    (fun _ => Ok {[ "next_node" := FStr NodeName.END ]})
    (fun _ => Ok {[ "next_node" := FStr NodeName.END ]}).

(** Three buffers in the cache: one synced nine days before noon of
    2025-01-07, one synced that morning, one never synced.  Times are
    seconds from 0001-01-01. *)
Definition synced_server : Server :=
  {| db_available := true; db_sessions := ∅; db_messages := ∅;
     db_interactions := [];
     memory_cache :=
       list_to_map
         [ ("old", [HumanMessage "hello"]); ("new", [HumanMessage "hi"]);
           ("unsynced", [HumanMessage "anyone there?"]) ];
     last_sync := list_to_map [ ("old", 63871000000); ("new", 63871800000) ];
     chat_sessions := ∅; checkpoints := ∅ |}.

End MoreSamples.

(** * Properties *)

(** ** Qualification *)

Module SalesToolsFacts.
Import SalesTools.

Lemma add_points_score n r q : q_score (add_points n r q) = q_score q + n.
Proof. reflexivity. Qed.

Lemma add_reason_score r q : q_score (add_reason r q) = q_score q.
Proof. reflexivity. Qed.

(** C9. For every RFP record that has an [rfp_id] and for every
    criteria, [qualify_rfp_tool] returns a qualification whose score is
    the sum of the timeline, value and location points and whose
    [qualified] flag is [score >= 60].  When [days_remaining] is below
    [min_days_remaining] the timeline part adds no points and the first
    reason is the "Insufficient time" one, and the record is still
    reported qualified as soon as the value and location points reach
    60: the last assignment to [qualified] replaces the earlier
    [False]. *)
Theorem qualify_rfp_tool_qualified_iff_score_ge_60 :
  ∀ (rfp : Rfp) (criteria : Criteria) (rid : string),
    r_rfp_id rfp = Some rid →
    ∃ q : Qualification,
      qualify_rfp_tool rfp criteria = Ok q ∧
      q_rfp_id q = rid ∧
      q_score q =
        timeline_points rfp criteria + value_points rfp criteria
        + location_points rfp criteria ∧
      q_qualified q = (60 <=? q_score q) ∧
      (default 0 (r_days_remaining rfp) < default 7 (c_min_days_remaining criteria) →
         timeline_points rfp criteria = 0 ∧
         head (q_reasons q) =
           Some ("Insufficient time: " +:+ str_of_Z (default 0 (r_days_remaining rfp))
                   +:+ " days (need "
                   +:+ str_of_Z (default 7 (c_min_days_remaining criteria)) +:+ "+)") ∧
         (q_qualified q = true ↔
            60 ≤ value_points rfp criteria + location_points rfp criteria)).
Proof.
  intros rfp criteria rid Hrid.
  unfold qualify_rfp_tool. rewrite Hrid. cbn [getitem mbind result_bind bind mret result_ret].
  eexists. split; [reflexivity|].
  unfold timeline_points, value_points, location_points.
  set (d := default 0 (r_days_remaining rfp)).
  set (m := default 7 (c_min_days_remaining criteria)).
  set (tv := default 0 (r_tender_value rfp)).
  set (mv := default 1000000 (c_min_tender_value criteria)).
  destruct (default [] (c_preferred_locations criteria)) as [|loc locs] eqn:Hloc.
  all: destruct (d <? m) eqn:Hd; [|destruct (d <? 14); [|destruct (d <? 30)]].
  all: destruct (tv <? mv); [|destruct (tv <? mv * 2); [|destruct (tv <? mv * 5)]].
  all: try destruct (location_match rfp (loc :: locs)).
  all: cbn [q_score q_qualified q_reasons q_rfp_id set_qualified add_points add_reason app head].
  all: repeat split; try reflexivity; try lia.
  all: try (intros _; reflexivity).
  all: try (apply Z.ltb_ge in Hd; lia).
  all: try (intros Hq; cbn in Hq; discriminate).
Qed.

End SalesToolsFacts.

(** ** Sorting, slicing and rounding *)

Module PyFacts.

Section SortFacts.
Context {A : Type} (le : A → A → bool).
Hypothesis le_total : ∀ a b, le a b = false → le b a = true.
Hypothesis le_trans : ∀ a b c, le a b = true → le b c = true → le a c = true.

Lemma insert_desc_Forall (P : A → Prop) x l :
  P x → Forall P l → Forall P (insert_desc le x l).
Proof.
  intros Hx Hl. induction Hl as [|y l Hy Hl IH]; cbn.
  - constructor; [exact Hx | constructor].
  - destruct (le y x); repeat constructor; assumption.
Qed.

Lemma insert_desc_length x l : length (insert_desc le x l) = S (length l).
Proof.
  induction l as [|y l IH]; cbn; [reflexivity|].
  destruct (le y x); cbn; [reflexivity | now rewrite IH].
Qed.

Lemma insert_desc_elem x l z : z ∈ insert_desc le x l ↔ z = x ∨ z ∈ l.
Proof.
  induction l as [|y l IH]; cbn.
  - rewrite elem_of_cons. reflexivity.
  - destruct (le y x).
    + rewrite elem_of_cons. reflexivity.
    + rewrite !elem_of_cons, IH. tauto.
Qed.

Lemma insert_desc_sorted x l :
  StronglySorted (before le) l → StronglySorted (before le) (insert_desc le x l).
Proof.
  intros Hsorted. induction Hsorted as [|y l Hl IH Hy]; cbn.
  - repeat constructor.
  - destruct (le y x) eqn:Hyx.
    + constructor; [constructor; assumption|].
      constructor; [exact Hyx|].
      eapply Forall_impl; [exact Hy|].
      intros z Hz. unfold before in *. eapply le_trans; eassumption.
    + constructor; [exact IH|].
      apply insert_desc_Forall; [|exact Hy].
      apply le_total, Hyx.
Qed.

Lemma sort_desc_cons x l :
  sort_desc le (x :: l) = insert_desc le x (sort_desc le l).
Proof. reflexivity. Qed.

Lemma sort_desc_sorted l : StronglySorted (before le) (sort_desc le l).
Proof.
  induction l as [|x l IH]; [constructor|].
  rewrite sort_desc_cons. apply insert_desc_sorted, IH.
Qed.

Lemma sort_desc_length l : length (sort_desc le l) = length l.
Proof.
  induction l as [|x l IH]; [reflexivity|].
  rewrite sort_desc_cons, insert_desc_length, IH. reflexivity.
Qed.

Lemma sort_desc_elem l z : z ∈ sort_desc le l ↔ z ∈ l.
Proof.
  induction l as [|x l IH]; [reflexivity|].
  rewrite sort_desc_cons, insert_desc_elem, elem_of_cons, IH. reflexivity.
Qed.

End SortFacts.

Lemma StronglySorted_take {A} (R : A → A → Prop) n l :
  StronglySorted R l → StronglySorted R (take n l).
Proof.
  intros Hl. revert n. induction Hl as [|x l Hl IH Hx]; intros [|n]; cbn;
    try constructor.
  - apply IH.
  - apply Forall_take, Hx.
Qed.

Lemma slice_to_sorted {A} (R : A → A → Prop) n l :
  StronglySorted R l → StronglySorted R (slice_to n l).
Proof. intros Hl. unfold slice_to. destruct (0 <=? n); apply StronglySorted_take, Hl. Qed.

Lemma slice_to_length {A} n (l : list A) :
  0 ≤ n → length (slice_to n l) = (Z.to_nat n `min` length l)%nat.
Proof.
  intros Hn. unfold slice_to.
  destruct (0 <=? n) eqn:E; [apply length_take | apply Z.leb_gt in E; lia].
Qed.

Lemma slice_to_elem {A} n (l : list A) z : z ∈ slice_to n l → z ∈ l.
Proof.
  unfold slice_to. destruct (0 <=? n); intros Hz;
    eapply subseteq_take; exact Hz.
Qed.

Lemma Qle_bool_total a b : Qle_bool a b = false → Qle_bool b a = true.
Proof.
  intros Hab. apply Qle_bool_iff.
  destruct (Qlt_le_dec b a) as [Hlt|Hle].
  - apply Qlt_le_weak, Hlt.
  - apply Qle_bool_iff in Hle. congruence.
Qed.

Lemma Qle_bool_trans a b c :
  Qle_bool a b = true → Qle_bool b c = true → Qle_bool a c = true.
Proof. rewrite !Qle_bool_iff. apply Qle_trans. Qed.

End PyFacts.

(** ** Catalog matching *)

Module TechToolsFacts.
Import TechTools PyFacts.

Lemma is_match_None spec_value : is_match VNone spec_value = false.
Proof. reflexivity. Qed.

Lemma score_fields_tally specs requirements fields acc :
  let t := foldl (score_field specs requirements) acc fields in
  t_score t =
    t_score acc + Z.of_nat (length (filter
      (fun field =>
         is_match (get requirements field) (derive_product_field specs field) = true)
      fields)) ∧
  t_comparisons t =
    t_comparisons acc ++ map (compare_field specs requirements) fields.
Proof.
  revert acc. induction fields as [|field fields IH]; intros acc; cbn [foldl].
  - cbn. rewrite app_nil_r. split; [lia | reflexivity].
  - destruct (IH (score_field specs requirements acc field)) as [Hs Hc].
    cbn zeta in *. rewrite Hs, Hc. clear Hs Hc IH.
    cbn [score_field t_score t_comparisons map].
    rewrite filter_cons.
    destruct (is_match (get requirements field)
                (derive_product_field specs field)) eqn:Hm.
    + rewrite decide_True by reflexivity. cbn [length].
      split; [lia|].
      rewrite <- app_assoc. unfold compare_field at 2. rewrite Hm. reflexivity.
    + rewrite decide_False by discriminate.
      split; [lia|].
      rewrite <- app_assoc. unfold compare_field at 2. rewrite Hm. reflexivity.
Qed.

Lemma score_catalog_product_score product requirements :
  s_match_score (score_catalog_product product requirements) =
    match_percent (match_count (default ∅ (p_specifications product)) requirements).
Proof.
  unfold score_catalog_product, match_count. cbn [s_match_score].
  destruct (score_fields_tally (default ∅ (p_specifications product)) requirements
              SPEC_FIELDS {| t_score := 0; t_matched := ∅; t_comparisons := [] |})
    as [Hs _].
  cbn zeta in Hs. rewrite Hs. reflexivity.
Qed.

Lemma score_catalog_product_comparison product requirements :
  s_comparison (score_catalog_product product requirements) =
    map (compare_field (default ∅ (p_specifications product)) requirements)
      SPEC_FIELDS.
Proof.
  unfold score_catalog_product. cbn [s_comparison].
  destruct (score_fields_tally (default ∅ (p_specifications product)) requirements
              SPEC_FIELDS {| t_score := 0; t_matched := ∅; t_comparisons := [] |})
    as [_ Hc].
  cbn zeta in Hc. rewrite Hc. reflexivity.
Qed.

Lemma match_count_range specs requirements :
  0 ≤ match_count specs requirements ≤ 8.
Proof.
  unfold match_count.
  pose proof (length_filter
    (fun field =>
       is_match (get requirements field) (derive_product_field specs field) = true)
    SPEC_FIELDS) as Hlen.
  change (length SPEC_FIELDS) with 8%nat in Hlen. lia.
Qed.

Lemma match_percent_exact k :
  0 ≤ k ≤ 8 →
  (match_percent k == (100 * k # 8))%Q ∧ (0 <= match_percent k <= 100)%Q.
Proof.
  intros Hk.
  assert (k = 0 ∨ k = 1 ∨ k = 2 ∨ k = 3 ∨ k = 4 ∨ k = 5 ∨ k = 6 ∨ k = 7 ∨ k = 8)
    as Hcases by lia.
  repeat destruct Hcases as [->|Hcases]; try subst k;
    vm_compute; repeat split; congruence.
Qed.

Lemma score_le_total a b : score_le a b = false → score_le b a = true.
Proof. apply Qle_bool_total. Qed.

Lemma score_le_trans a b c :
  score_le a b = true → score_le b c = true → score_le a c = true.
Proof. apply Qle_bool_trans. Qed.

(** C10. For every catalog and extracted requirements and for a
    non-negative [top_n], [match_oem_products] returns the scores of
    catalog products, [min(top_n, len(catalog))] of them and so at most
    [top_n], in non-increasing order of [match_score].  The
    [match_score] of a product is the number of the 8 fields that match,
    as a percentage, and lies between 0 and 100.  A field whose
    requirement is [None] is never a match, also when the product has
    [None] there. *)
Theorem match_oem_products_top_n_sorted_percent :
  ∀ (catalog : list Product) (requirements : gmap string Value) (top_n : Z),
    0 ≤ top_n →
    let ranked := match_oem_products catalog requirements top_n in
    Z.of_nat (length ranked) ≤ top_n ∧
    length ranked = (Z.to_nat top_n `min` length catalog)%nat ∧
    StronglySorted (fun a b => (s_match_score b <= s_match_score a)%Q) ranked ∧
    Forall
      (fun s =>
         (0 <= s_match_score s <= 100)%Q ∧
         ∃ product,
           product ∈ catalog ∧ s = score_catalog_product product requirements)
      ranked ∧
    (∀ product,
       let s := score_catalog_product product requirements in
       let specs := default ∅ (p_specifications product) in
       (s_match_score s == (100 * match_count specs requirements # 8))%Q ∧
       0 ≤ match_count specs requirements ≤ 8 ∧
       ∀ c, c ∈ s_comparison s → cmp_requirement c = VNone → cmp_match c = false) ∧
    is_match VNone VNone = false.
Proof.
  intros catalog requirements top_n Htop ranked.
  assert (Hlen : length ranked = (Z.to_nat top_n `min` length catalog)%nat).
  { unfold ranked, match_oem_products.
    rewrite slice_to_length by exact Htop.
    rewrite sort_desc_length, length_map. reflexivity. }
  split; [lia|]. split; [exact Hlen|]. split; [|split; [|split]].
  - unfold ranked, match_oem_products. apply slice_to_sorted.
    eapply Sorted.StronglySorted_ind
      with (P := StronglySorted (fun a b => (s_match_score b <= s_match_score a)%Q));
      [constructor | | apply (sort_desc_sorted score_le score_le_total score_le_trans)].
    intros a l _ IH Ha. constructor; [exact IH|].
    eapply Forall_impl; [exact Ha|].
    intros b Hb. apply Qle_bool_iff, Hb.
  - apply Forall_forall. intros s Hs.
    unfold ranked, match_oem_products in Hs.
    apply slice_to_elem, sort_desc_elem, list_elem_of_In, in_map_iff in Hs.
    destruct Hs as (product & <- & Hin).
    split.
    + rewrite score_catalog_product_score.
      apply match_percent_exact, match_count_range.
    + exists product. split; [apply list_elem_of_In, Hin | reflexivity].
  - intros product s specs. split; [|split].
    + unfold s, specs. rewrite score_catalog_product_score.
      apply match_percent_exact, match_count_range.
    + apply match_count_range.
    + intros c Hc Hreq. unfold s in Hc.
      rewrite score_catalog_product_comparison in Hc.
      apply list_elem_of_In, in_map_iff in Hc.
      destruct Hc as (field & <- & _).
      cbn in *. rewrite Hreq. reflexivity.
  - reflexivity.
Qed.

End TechToolsFacts.

(** ** Routing *)

Module GraphFacts.
Import State Env Nodes Graph.

Lemma field_eq_str_true f s : field_eq_str f s = true ↔ f = FStr s.
Proof.
  destruct f; cbn; try (split; [discriminate | congruence]).
  rewrite String.eqb_eq. split; congruence.
Qed.

Lemma field_eq_str_FStr s t : field_eq_str (FStr s) t = false ↔ s ≠ t.
Proof. cbn. apply String.eqb_neq. Qed.

Section WithCollaborators.
Context `{Collaborators}.

Lemma edges_main_agent :
  conditional_edges create_workflow !! "main_agent" =
    Some (route_from_main,
          list_to_map [ ("sales_agent", "sales_agent");
                        ("technical_agent", "technical_agent"); (END, END) ]).
Proof. reflexivity. Qed.

Lemma edges_technical_agent :
  conditional_edges create_workflow !! "technical_agent" =
    Some (route_from_technical,
          list_to_map [ ("pricing_agent", "pricing_agent"); (END, END) ]).
Proof. reflexivity. Qed.

Lemma edges_pricing_agent :
  conditional_edges create_workflow !! "pricing_agent" =
    Some (route_from_pricing,
          list_to_map [ ("main_agent", "main_agent"); (END, END) ]).
Proof. reflexivity. Qed.

Lemma route_main_agent state :
  route create_workflow "main_agent" state = Ok (route_from_main state).
Proof.
  unfold route. rewrite edges_main_agent. unfold route_from_main.
  destruct (field_eq_str _ NodeName.SALES_AGENT);
    [|destruct (field_eq_str _ NodeName.TECHNICAL_AGENT)]; reflexivity.
Qed.

Lemma route_sales_agent state :
  route create_workflow "sales_agent" state = Ok END.
Proof. reflexivity. Qed.

Lemma route_technical_agent state :
  route create_workflow "technical_agent" state = Ok (route_from_technical state).
Proof.
  unfold route. rewrite edges_technical_agent. unfold route_from_technical.
  destruct (field_eq_str _ NodeName.PRICING_AGENT); reflexivity.
Qed.

Lemma route_pricing_agent state :
  route create_workflow "pricing_agent" state = Ok (route_from_pricing state).
Proof.
  unfold route. rewrite edges_pricing_agent. unfold route_from_pricing.
  destruct (field_eq_str _ NodeName.MAIN_AGENT); reflexivity.
Qed.

Lemma route_unregistered node state :
  node ≠ "main_agent" → node ≠ "sales_agent" →
  node ≠ "technical_agent" → node ≠ "pricing_agent" →
  route create_workflow node state = Ok END.
Proof.
  intros H1 H2 H3 H4. unfold route, create_workflow. cbn [conditional_edges].
  rewrite !lookup_insert_ne by congruence. rewrite lookup_empty. reflexivity.
Qed.

(** What the routers read: [state.get("next_node", END)]. *)
Lemma get_next_node state successor :
  get state "next_node" = FStr successor →
  get_or state "next_node" (FStr NodeName.END) = FStr successor.
Proof.
  unfold get, get_or. destruct (state !! "next_node"); cbn; [auto | discriminate].
Qed.

(** C1 (amended). For every stage and every state, the router does not
    fail: the conditional edge yields a target.  When ["next_node"] names
    a non-terminal successor declared for the stage, the target is that
    successor; in every other case it is [END].  So a ["next_node"]
    outside the declared successor set (as a missing or a non-string
    one) ends the run, no [InvalidRouteError] is raised, and the
    undeclared stage is not executed. *)
Theorem route_undeclared_next_node_ends_run :
  ∀ (node : string) (state : AgentState),
    ∃ target : string,
      route create_workflow node state = Ok target ∧
      (∀ successor : string,
         successor ∈ declared_successors node →
         successor ≠ NodeName.END →
         get state "next_node" = FStr successor →
         target = successor) ∧
      (target = END ∨
       (get state "next_node" = FStr target ∧
        target ∈ declared_successors node ∧
        target ≠ NodeName.END)).
Proof.
  intros node state.
  destruct (decide (node = "main_agent")) as [->|Hmain].
  { rewrite route_main_agent. eexists; split; [reflexivity|]. split.
    - intros successor Hin Hend Hnext. apply get_next_node in Hnext.
      unfold route_from_main. rewrite Hnext.
      cbn in Hin. rewrite !elem_of_cons, elem_of_nil in Hin.
      destruct Hin as [->|[->|[->|[]]]]; [reflexivity | reflexivity | congruence].
    - unfold route_from_main, get_or, get.
      destruct (field_eq_str (default (FStr NodeName.END) (state !! "next_node"))
                  NodeName.SALES_AGENT) eqn:E1.
      + right. apply field_eq_str_true in E1.
        destruct (state !! "next_node"); cbn in *; [|discriminate].
        subst. repeat split; [set_solver | discriminate].
      + destruct (field_eq_str (default (FStr NodeName.END) (state !! "next_node"))
                    NodeName.TECHNICAL_AGENT) eqn:E2; [|left; reflexivity].
        right. apply field_eq_str_true in E2.
        destruct (state !! "next_node"); cbn in *; [|discriminate].
        subst. repeat split; [set_solver | discriminate]. }
  destruct (decide (node = "sales_agent")) as [->|Hsales].
  { rewrite route_sales_agent. eexists; split; [reflexivity|]. split.
    - intros successor Hin Hend _. cbn in Hin.
      rewrite elem_of_cons, elem_of_nil in Hin. destruct Hin as [->|[]]. congruence.
    - left; reflexivity. }
  destruct (decide (node = "technical_agent")) as [->|Htech].
  { rewrite route_technical_agent. eexists; split; [reflexivity|]. split.
    - intros successor Hin Hend Hnext. apply get_next_node in Hnext.
      unfold route_from_technical. rewrite Hnext.
      cbn in Hin. rewrite !elem_of_cons, elem_of_nil in Hin.
      destruct Hin as [->|[->|[]]]; [reflexivity | congruence].
    - unfold route_from_technical, get_or, get.
      destruct (field_eq_str (default (FStr NodeName.END) (state !! "next_node"))
                  NodeName.PRICING_AGENT) eqn:E1; [|left; reflexivity].
      right. apply field_eq_str_true in E1.
      destruct (state !! "next_node"); cbn in *; [|discriminate].
      subst. repeat split; [set_solver | discriminate]. }
  destruct (decide (node = "pricing_agent")) as [->|Hpricing].
  { rewrite route_pricing_agent. eexists; split; [reflexivity|]. split.
    - intros successor Hin Hend Hnext. apply get_next_node in Hnext.
      unfold route_from_pricing. rewrite Hnext.
      cbn in Hin. rewrite !elem_of_cons, elem_of_nil in Hin.
      destruct Hin as [->|[->|[]]]; [reflexivity | congruence].
    - unfold route_from_pricing, get_or, get.
      destruct (field_eq_str (default (FStr NodeName.END) (state !! "next_node"))
                  NodeName.MAIN_AGENT) eqn:E1; [|left; reflexivity].
      right. apply field_eq_str_true in E1.
      destruct (state !! "next_node"); cbn in *; [|discriminate].
      subst. repeat split; [set_solver | discriminate]. }
  rewrite route_unregistered by assumption.
  eexists; split; [reflexivity|]. split; [|left; reflexivity].
  intros successor Hin. exfalso. revert Hin. unfold declared_successors.
  apply String.eqb_neq in Hmain, Hsales, Htech, Hpricing.
  rewrite Hmain, Hsales, Htech, Hpricing. apply not_elem_of_nil.
Qed.

(** *** The engine's loop *)

Lemma run_from_calls_le (g : StateGraph) limit node state :
  (length (fst (run_from g limit node state)) ≤ limit)%nat.
Proof.
  revert node state. induction limit as [|limit IH]; intros node state; cbn.
  - lia.
  - destruct (step g node state) as [[target state']|e]; cbn; [|lia].
    destruct (String.eqb target END); cbn; [lia|].
    specialize (IH target state').
    destruct (run_from g limit target state') as [calls outcome]. cbn in *. lia.
Qed.

Lemma run_from_out_of_steps (g : StateGraph) limit node state st :
  snd (run_from g limit node state) = OutOfSteps st →
  length (fst (run_from g limit node state)) = limit.
Proof.
  revert node state. induction limit as [|limit IH]; intros node state; cbn.
  - reflexivity.
  - destruct (step g node state) as [[target state']|e]; cbn; [|discriminate].
    destruct (String.eqb target END); cbn; [discriminate|].
    specialize (IH target state').
    destruct (run_from g limit target state') as [calls outcome]. cbn in *.
    intros Hout. rewrite IH by exact Hout. reflexivity.
Qed.

End WithCollaborators.

(** C1 (counterexample). The state update of the technical agent names
    the sales agent, which is not a declared successor; the router
    answers [END] and raises nothing. *)
Lemma route_from_technical_to_sales_not_rejected :
  let state : AgentState := {[ "next_node" := FStr NodeName.SALES_AGENT ]} in
  ((NodeName.SALES_AGENT ∉ declared_successors "technical_agent") ∧
   route_from_technical state = END ∧
   route (@create_workflow Examples.replying) "technical_agent" state = Ok END ∧
   ¬ (∃ e, route (@create_workflow Examples.replying) "technical_agent" state = Raise e)).
Proof.
  cbn zeta. split; [|split; [reflexivity | split; [reflexivity|]]].
  - cbn. rewrite !elem_of_cons, elem_of_nil. intros [?|[?|[]]]; discriminate.
  - intros [e He]. discriminate He.
Qed.

End GraphFacts.

(** ** The stages *)

Module NodesFacts.
Import SalesTools TechTools State Env Nodes Graph Discovery.

(** What [apply_update] does to a key other than ["messages"]. *)
Lemma apply_update_lookup state update state' k :
  apply_update state update = Ok state' →
  k ≠ "messages" →
  state' !! k = match update !! k with Some v => Some v | None => state !! k end.
Proof.
  unfold apply_update. intros Happly Hk.
  assert (Hunion : (update ∪ state) !! k =
            match update !! k with Some v => Some v | None => state !! k end).
  { rewrite lookup_union. destruct (update !! k), (state !! k); reflexivity. }
  destruct (update !! "messages") as [[| | |new| | |]|]; try discriminate.
  - destruct (state !! "messages") as [[| | |old| | |]|]; try discriminate;
      injection Happly as <-; rewrite lookup_insert_ne by congruence; exact Hunion.
  - injection Happly as <-. exact Hunion.
Qed.

(** The list under ["messages"] only grows. *)
Lemma apply_update_messages state update state' old :
  apply_update state update = Ok state' →
  state !! "messages" = Some (FList old) →
  ∃ new, state' !! "messages" = Some (FList (old ++ new)).
Proof.
  unfold apply_update. intros Happly Hold. rewrite Hold in Happly.
  destruct (update !! "messages") as [[| | |new| | |]|] eqn:Hnew; try discriminate.
  - injection Happly as <-. exists new. apply lookup_insert_eq.
  - injection Happly as <-. exists []. rewrite app_nil_r.
    rewrite lookup_union_r by exact Hnew. exact Hold.
Qed.

Section WithCollaborators.
Context `{Collaborators}.

(** The four dicts that [sales_agent_node] can return. *)
Lemma sales_agent_node_update state update :
  sales_agent_node state = Ok update →
  update !! "next_node" = Some (FStr NodeName.END) ∧
  update !! "error" = None ∧
  ((update !! "current_step" = Some (FStr WorkflowStep.WAITING_USER) ∧
    ∃ rfp top, update !! "rfps_identified" = Some (FList (FRfp <$> rfp :: top))) ∨
   (update !! "current_step" = Some (FStr WorkflowStep.COMPLETE) ∧
    update !! "rfps_identified" = None) ∨
   (update !! "current_step" = Some (FStr WorkflowStep.ERROR) ∧
    update !! "rfps_identified" = None)).
Proof.
  unfold sales_agent_node.
  destruct get_shared_llm as [llm|e]; [|discriminate].
  cbn [mbind result_bind bind mret result_ret].
  intros [= <-].
  destruct (scan_rfps_tool sales_keywords 90) as [[|rfp scanned]|e];
    cbn [mbind result_bind bind mret result_ret try_except].
  - split; [reflexivity|]. split; [reflexivity|]. right; left. split; reflexivity.
  - destruct (mapM _ (rfp :: scanned)) as [qualifications|e];
      cbn [mbind result_bind bind mret result_ret try_except].
    + destruct (prioritize_rfps_tool _ qualifications 5) as [[|r top]|e];
        cbn [mbind result_bind bind mret result_ret try_except].
      * split; [reflexivity|]. split; [reflexivity|]. right; left. split; reflexivity.
      * destruct (messages_of state) as [history|e];
          cbn [mbind result_bind bind mret result_ret try_except].
        -- destruct (llm _) as [reply|e];
             cbn [mbind result_bind bind mret result_ret try_except].
           ++ split; [reflexivity|]. split; [reflexivity|]. left.
              split; [reflexivity|]. exists r, top. reflexivity.
           ++ split; [reflexivity|]. split; [reflexivity|]. right; right.
              split; reflexivity.
        -- split; [reflexivity|]. split; [reflexivity|]. right; right.
           split; reflexivity.
      * split; [reflexivity|]. split; [reflexivity|]. right; right. split; reflexivity.
    + split; [reflexivity|]. split; [reflexivity|]. right; right. split; reflexivity.
  - split; [reflexivity|]. split; [reflexivity|]. right; right. split; reflexivity.
Qed.

Ltac named_steps :=
  cbv delta [WorkflowStep.WAITING_USER WorkflowStep.COMPLETE WorkflowStep.ERROR] in *.

(** Two readings of one call agree, and what contradicts is dropped. *)
Ltac settle :=
  intros;
  repeat match goal with
  | H : ∃ _, _ |- _ => destruct H
  | H : _ ∧ _ |- _ => destruct H
  | H : _ ∨ _ |- _ => destruct H
  | H : Ok _ = Ok _ |- _ => injection H as H; subst
  | H : Ok _ = Raise _ |- _ => discriminate H
  | H : Raise _ = Ok _ |- _ => discriminate H
  | H : Some _ = Some _ |- _ => first [discriminate H | clear H]
  | H1 : ?a = Ok ?x, H2 : ?a = Ok ?y |- _ =>
      assert (y = x) by congruence; subst y; clear H2
  | H1 : ?a = Ok _, H2 : ?a = Raise _ |- _ => rewrite H1 in H2; discriminate H2
  | H : ?x ≠ ?x |- _ => destruct (H eq_refl)
  end;
  try discriminate; try congruence.

(** One of the returns of [sales_agent_node]: the update is named, its
    four keys are read, and its body is forgotten. *)
Ltac returned update step :=
  unfold mret, result_ret;
  match goal with
  | |- ∃ _ : AgentState, Ok ?u = Ok _ ∧ _ =>
      set (update := u);
      assert (update !! "next_node" = Some (FStr NodeName.END)) as Hnext
        by reflexivity;
      assert (update !! "current_step" = Some (FStr step)) as Hstep
        by reflexivity;
      exists update; split; [reflexivity|];
      split; [exact Hnext|]; split; [reflexivity|]
  end.

(** C6 (amended). Whenever the discovery stage runs with the language
    model client at hand it returns an update that routes to the end of
    the turn: ["next_node"] is [END] and [route_from_sales] answers
    [END] in every state.  ["current_step"] is [WAITING_USER] exactly
    when the scan found records, all of them were qualified without an
    exception, [prioritize_rfps_tool] returned at least one of them,
    the state had its messages and the model answered; the update then
    carries the prioritized records under ["rfps_identified"] and the
    model's answer as its message.  It is [COMPLETE] exactly when the
    scan found nothing or the prioritization returned nothing, and
    [ERROR] exactly when one of these calls raised; the message is
    then "Error: " and the text of the exception.  No other step is
    set. *)
Theorem sales_agent_node_routes_to_end :
  ∀ (state : AgentState) (llm : list Field → result string),
    get_shared_llm = Ok llm →
    ∃ update : AgentState,
      sales_agent_node state = Ok update ∧
      update !! "next_node" = Some (FStr NodeName.END) ∧
      (∀ state' : AgentState, route_from_sales state' = END) ∧
      (update !! "current_step" = Some (FStr WorkflowStep.WAITING_USER) ↔
       ∃ scanned qualifications top history reply,
         scan_rfps_tool sales_keywords 90 = Ok scanned ∧ scanned ≠ [] ∧
         mapM (fun rfp => qualify_rfp_tool rfp sales_criteria) scanned
           = Ok qualifications ∧
         prioritize_rfps_tool scanned qualifications 5 = Ok top ∧ top ≠ [] ∧
         messages_of state = Ok history ∧
         llm (presentation history scanned qualifications top) = Ok reply ∧
         update !! "rfps_identified" = Some (FList (FRfp <$> top)) ∧
         update !! "messages" = Some (FList [FMsg (AIMessage reply)])) ∧
      (update !! "current_step" = Some (FStr WorkflowStep.COMPLETE) ↔
       update !! "rfps_identified" = None ∧
       (scan_rfps_tool sales_keywords 90 = Ok [] ∨
        ∃ scanned qualifications,
          scan_rfps_tool sales_keywords 90 = Ok scanned ∧
          mapM (fun rfp => qualify_rfp_tool rfp sales_criteria) scanned
            = Ok qualifications ∧
          prioritize_rfps_tool scanned qualifications 5 = Ok [])) ∧
      (update !! "current_step" = Some (FStr WorkflowStep.ERROR) ↔
       ∃ e : exn,
         update !! "rfps_identified" = None ∧
         update !! "messages" =
           Some (FList [FMsg (AIMessage ("Error: " +:+ exn_str e))]) ∧
         (scan_rfps_tool sales_keywords 90 = Raise e ∨
          ∃ scanned,
            scan_rfps_tool sales_keywords 90 = Ok scanned ∧ scanned ≠ [] ∧
            (mapM (fun rfp => qualify_rfp_tool rfp sales_criteria) scanned = Raise e ∨
             ∃ qualifications,
               mapM (fun rfp => qualify_rfp_tool rfp sales_criteria) scanned
                 = Ok qualifications ∧
               (prioritize_rfps_tool scanned qualifications 5 = Raise e ∨
                ∃ top,
                  prioritize_rfps_tool scanned qualifications 5 = Ok top ∧ top ≠ [] ∧
                  (messages_of state = Raise e ∨
                   ∃ history,
                     messages_of state = Ok history ∧
                     llm (presentation history scanned qualifications top)
                       = Raise e))))) ∧
      (update !! "current_step" = Some (FStr WorkflowStep.WAITING_USER) ∨
       update !! "current_step" = Some (FStr WorkflowStep.COMPLETE) ∨
       update !! "current_step" = Some (FStr WorkflowStep.ERROR)).
Proof.
  intros state llm Hllm. unfold sales_agent_node. rewrite Hllm.
  cbn [mbind result_bind bind mret result_ret].
  destruct (scan_rfps_tool sales_keywords 90) as [[|rfp scanned]|e] eqn:Hscan;
    cbn [mbind result_bind bind mret result_ret try_except].
  - returned update WorkflowStep.COMPLETE.
    assert (update !! "rfps_identified" = None) as Hrfps by reflexivity.
    clearbody update. rewrite Hstep, Hrfps. named_steps.
    split; [split; settle|].
    split; [|split; [split; settle | right; left; reflexivity]].
    split; [intros _|reflexivity]. split; [reflexivity | left; reflexivity].
  - destruct (mapM (fun rfp => qualify_rfp_tool rfp sales_criteria) (rfp :: scanned))
      as [qualifications|e] eqn:Hqual;
      cbn [mbind result_bind bind mret result_ret try_except].
    + destruct (prioritize_rfps_tool (rfp :: scanned) qualifications 5)
        as [[|r top]|e] eqn:Htop;
        cbn [mbind result_bind bind mret result_ret try_except].
      * returned update WorkflowStep.COMPLETE.
        assert (update !! "rfps_identified" = None) as Hrfps by reflexivity.
        clearbody update. rewrite Hstep, Hrfps. named_steps.
        split; [split; settle|].
        split; [|split; [split; settle | right; left; reflexivity]].
        split; [intros _|reflexivity]. split; [reflexivity|].
        right. exists (rfp :: scanned), qualifications.
        split; [reflexivity|]. split; [exact Hqual | exact Htop].
      * destruct (messages_of state) as [history|e] eqn:Hhistory;
          cbn [mbind result_bind bind mret result_ret try_except].
        -- fold (presentation history (rfp :: scanned) qualifications (r :: top)).
           destruct (llm (presentation history (rfp :: scanned) qualifications
                            (r :: top))) as [reply|e] eqn:Hreply;
             cbn [mbind result_bind bind mret result_ret try_except].
           ++ returned update WorkflowStep.WAITING_USER.
              assert (update !! "rfps_identified"
                      = Some (FList (FRfp <$> r :: top))) as Hrfps by reflexivity.
              assert (update !! "messages" = Some (FList [FMsg (AIMessage reply)]))
                as Hmessages by reflexivity.
              clearbody update. rewrite Hstep, Hrfps, Hmessages. named_steps.
              split.
              { split; [intros _|reflexivity].
                exists (rfp :: scanned), qualifications, (r :: top), history, reply.
                repeat split; (reflexivity || assumption || discriminate). }
              split; [split; settle|]. split; [split; settle|].
              left; reflexivity.
           ++ returned update WorkflowStep.ERROR.
              assert (update !! "rfps_identified" = None) as Hrfps by reflexivity.
              assert (update !! "messages"
                      = Some (FList [FMsg (AIMessage ("Error: " +:+ exn_str e))]))
                as Hmessages by reflexivity.
              clearbody update. rewrite Hstep, Hrfps, Hmessages. named_steps.
              split; [split; settle|]. split; [split; settle|].
              split; [|right; right; reflexivity].
              split; [intros _|reflexivity].
              exists e. split; [reflexivity|]. split; [reflexivity|].
              right. exists (rfp :: scanned). split; [reflexivity|].
              split; [discriminate|]. right. exists qualifications.
              split; [exact Hqual|]. right. exists (r :: top).
              split; [exact Htop|]. split; [discriminate|].
              right. exists history. split; [reflexivity | exact Hreply].
        -- returned update WorkflowStep.ERROR.
           assert (update !! "rfps_identified" = None) as Hrfps by reflexivity.
           assert (update !! "messages"
                   = Some (FList [FMsg (AIMessage ("Error: " +:+ exn_str e))]))
             as Hmessages by reflexivity.
           clearbody update. rewrite Hstep, Hrfps, Hmessages. named_steps.
           split; [split; settle|]. split; [split; settle|].
           split; [|right; right; reflexivity].
           split; [intros _|reflexivity].
           exists e. split; [reflexivity|]. split; [reflexivity|].
           right. exists (rfp :: scanned). split; [reflexivity|].
           split; [discriminate|]. right. exists qualifications.
           split; [exact Hqual|]. right. exists (r :: top).
           split; [exact Htop|]. split; [discriminate|]. left. reflexivity.
      * returned update WorkflowStep.ERROR.
        assert (update !! "rfps_identified" = None) as Hrfps by reflexivity.
        assert (update !! "messages"
                = Some (FList [FMsg (AIMessage ("Error: " +:+ exn_str e))]))
          as Hmessages by reflexivity.
        clearbody update. rewrite Hstep, Hrfps, Hmessages. named_steps.
        split; [split; settle|]. split; [split; settle|].
        split; [|right; right; reflexivity].
        split; [intros _|reflexivity].
        exists e. split; [reflexivity|]. split; [reflexivity|].
        right. exists (rfp :: scanned). split; [reflexivity|].
        split; [discriminate|]. right. exists qualifications.
        split; [exact Hqual|]. left. exact Htop.
    + returned update WorkflowStep.ERROR.
      assert (update !! "rfps_identified" = None) as Hrfps by reflexivity.
      assert (update !! "messages"
              = Some (FList [FMsg (AIMessage ("Error: " +:+ exn_str e))]))
        as Hmessages by reflexivity.
      clearbody update. rewrite Hstep, Hrfps, Hmessages. named_steps.
      split; [split; settle|]. split; [split; settle|].
      split; [|right; right; reflexivity].
      split; [intros _|reflexivity].
      exists e. split; [reflexivity|]. split; [reflexivity|].
      right. exists (rfp :: scanned). split; [reflexivity|].
      split; [discriminate|]. left. exact Hqual.
  - returned update WorkflowStep.ERROR.
    assert (update !! "rfps_identified" = None) as Hrfps by reflexivity.
    assert (update !! "messages"
            = Some (FList [FMsg (AIMessage ("Error: " +:+ exn_str e))]))
      as Hmessages by reflexivity.
    clearbody update. rewrite Hstep, Hrfps, Hmessages. named_steps.
    split; [split; settle|]. split; [split; settle|].
    split; [|right; right; reflexivity].
    split; [intros _|reflexivity].
    exists e. split; [reflexivity|]. split; [reflexivity|]. left. reflexivity.
Qed.

(** The three dicts that [technical_agent_node] can return. *)
Lemma technical_agent_node_update state update :
  technical_agent_node state = Ok update →
  update !! "error" = None ∧
  ((update !! "current_step" = Some (FStr WorkflowStep.PRICING) ∧
    update !! "next_node" = Some (FStr NodeName.PRICING_AGENT)) ∨
   (update !! "current_step" = Some (FStr WorkflowStep.ERROR) ∧
    update !! "next_node" = Some (FStr NodeName.END))).
Proof.
  unfold technical_agent_node.
  destruct get_shared_llm as [llm|e]; [|discriminate].
  cbn [mbind result_bind bind mret result_ret].
  destruct (negb (field_truthy (get state "selected_rfp"))).
  - intros [= <-]. split; [reflexivity|]. right. split; reflexivity.
  - destruct (as_dict (get state "selected_rfp")) as [rfp|]; [|discriminate].
    intros [= <-]. unfold technical_analysis_of.
    destruct (llm _) as [reply|e];
      cbn [mbind result_bind bind mret result_ret try_except].
    + split; [reflexivity|]. left. split; reflexivity.
    + split; [reflexivity|]. right. split; reflexivity.
Qed.

Lemma technical_agent_node_selected state llm rfp :
  get_shared_llm = Ok llm →
  get state "selected_rfp" = FRfp rfp →
  rfp_is_empty rfp = false →
  technical_agent_node state =
    Ok (try_except (technical_analysis_of llm rfp)
          (fun e =>
             list_to_map
               [ ("messages", FList [FMsg (AIMessage
                    (cross_mark +:+ " Error analyzing RFP: " +:+ exn_str e +:+ nl +:+ nl
                       +:+ "Please check backend logs for details."))]);
                 ("next_node", FStr NodeName.END);
                 ("current_step", FStr WorkflowStep.ERROR) ])).
Proof.
  intros Hllm Hsel Hne. unfold technical_agent_node.
  rewrite Hllm. cbn [mbind result_bind bind mret result_ret].
  rewrite Hsel. cbn [field_truthy as_dict]. rewrite Hne. reflexivity.
Qed.

Lemma route_from_technical_next state next :
  state !! "next_node" = Some (FStr next) →
  route_from_technical state =
    if String.eqb next NodeName.PRICING_AGENT then "pricing_agent" else END.
Proof. intros Hnext. unfold route_from_technical, get_or. rewrite Hnext. reflexivity. Qed.

(** C4 (amended). With the language model client at hand, a state that
    enters the assessment stage with [selected_rfp] absent (or empty)
    gets an update, not an exception: ["current_step"] is [ERROR],
    ["next_node"] is [END] so that the router ends the run, and the
    diagnostic is the assistant message; the ["error"] key is not
    written and keeps the value it had.  With a non-empty [selected_rfp]
    the stage sets ["current_step"] to [PRICING] and routes to the
    pricing agent when the analysis succeeds, and reports [ERROR] and
    ends the run when the analysis raises. *)
Theorem technical_agent_node_precondition :
  ∀ (state : AgentState) (llm : list Field → result string),
    get_shared_llm = Ok llm →
    (field_truthy (get state "selected_rfp") = false →
     ∃ update : AgentState,
       technical_agent_node state = Ok update ∧
       update !! "current_step" = Some (FStr WorkflowStep.ERROR) ∧
       update !! "next_node" = Some (FStr NodeName.END) ∧
       update !! "messages" =
         Some (FList [FMsg (AIMessage "No RFP selected. Please select an RFP first.")]) ∧
       update !! "error" = None ∧
       ∀ state' : AgentState,
         apply_update state update = Ok state' →
         route_from_technical state' = END ∧
         state' !! "current_step" = Some (FStr WorkflowStep.ERROR) ∧
         state' !! "error" = state !! "error") ∧
    (∀ rfp : Rfp,
       get state "selected_rfp" = FRfp rfp →
       rfp_is_empty rfp = false →
       ∃ update : AgentState,
         technical_agent_node state = Ok update ∧
         ((is_ok (technical_analysis_of llm rfp) = true ∧
           update !! "current_step" = Some (FStr WorkflowStep.PRICING) ∧
           update !! "next_node" = Some (FStr NodeName.PRICING_AGENT) ∧
           ∀ state' : AgentState,
             apply_update state update = Ok state' →
             route_from_technical state' = "pricing_agent") ∨
          (is_ok (technical_analysis_of llm rfp) = false ∧
           update !! "current_step" = Some (FStr WorkflowStep.ERROR) ∧
           update !! "next_node" = Some (FStr NodeName.END) ∧
           ∀ state' : AgentState,
             apply_update state update = Ok state' →
             route_from_technical state' = END))).
Proof.
  intros state llm Hllm. split.
  - intros Hfalsy. eexists. split.
    { unfold technical_agent_node. rewrite Hllm.
      cbn [mbind result_bind bind mret result_ret]. rewrite Hfalsy. reflexivity. }
    repeat (split; [reflexivity|]).
    intros state' Happly. split; [|split].
    + rewrite (route_from_technical_next state' NodeName.END); [reflexivity|].
      rewrite (apply_update_lookup _ _ _ "next_node" Happly) by discriminate.
      reflexivity.
    + rewrite (apply_update_lookup _ _ _ "current_step" Happly) by discriminate.
      reflexivity.
    + rewrite (apply_update_lookup _ _ _ "error" Happly) by discriminate.
      reflexivity.
  - intros rfp Hsel Hne. eexists. split.
    { apply technical_agent_node_selected; eassumption. }
    unfold technical_analysis_of.
    destruct (llm _) as [reply|e];
      cbn [mbind result_bind bind mret result_ret try_except is_ok].
    + left. repeat (split; [reflexivity|]).
      intros state' Happly.
      rewrite (route_from_technical_next state' NodeName.PRICING_AGENT);
        [reflexivity|].
      rewrite (apply_update_lookup _ _ _ "next_node" Happly) by discriminate.
      reflexivity.
    + right. repeat (split; [reflexivity|]).
      intros state' Happly.
      rewrite (route_from_technical_next state' NodeName.END); [reflexivity|].
      rewrite (apply_update_lookup _ _ _ "next_node" Happly) by discriminate.
      reflexivity.
Qed.

End WithCollaborators.
End NodesFacts.

(** ** The engine's loop over the workflow *)

Module EngineFacts.
Import SalesTools TechTools State Env Nodes Graph NodesFacts.

(** A step of any graph only adds to the list under ["messages"]. *)
Lemma step_messages (g : StateGraph) node state target state' old :
  step g node state = Ok (target, state') →
  state !! "messages" = Some (FList old) →
  ∃ new, state' !! "messages" = Some (FList (old ++ new)).
Proof.
  unfold step. intros Hstep Hold.
  destruct (getitem node (nodes g !! node)) as [f|e]; [|discriminate].
  cbn [mbind result_bind bind] in Hstep.
  destruct (f state) as [update|e]; [|discriminate].
  cbn [mbind result_bind bind] in Hstep.
  destruct (apply_update state update) as [merged|e] eqn:Happly; [|discriminate].
  cbn [mbind result_bind bind] in Hstep.
  destruct (route g node merged) as [t|e]; [|discriminate].
  cbn in Hstep. injection Hstep as <- <-.
  eapply apply_update_messages; eassumption.
Qed.

Lemma run_from_messages (g : StateGraph) limit node state old :
  state !! "messages" = Some (FList old) →
  ∃ new,
    outcome_state (snd (run_from g limit node state)) !! "messages" =
      Some (FList (old ++ new)).
Proof.
  revert node state old.
  induction limit as [|limit IH]; intros node state old Hold; cbn [run_from].
  - exists []. rewrite app_nil_r. exact Hold.
  - destruct (step g node state) as [[target state']|e] eqn:Hstep.
    + destruct (step_messages g node state target state' old Hstep Hold)
        as [new Hnew].
      destruct (String.eqb target END).
      * exists new. exact Hnew.
      * destruct (IH target state' (old ++ new) Hnew) as [new' Hnew'].
        destruct (run_from g limit target state') as [calls outcome].
        exists (new ++ new'). rewrite app_assoc. exact Hnew'.
    + exists []. rewrite app_nil_r. exact Hold.
Qed.

Section WithCollaborators.
Context `{Collaborators}.

Lemma nodes_lookup node f :
  nodes create_workflow !! node = Some f →
  f = main_agent_node ∨ f = sales_agent_node ∨
  f = technical_agent_node ∨ f = pricing_agent_node.
Proof.
  unfold create_workflow. cbn [nodes].
  rewrite !lookup_insert, lookup_empty.
  repeat case_decide; intros [= <-]; tauto.
Qed.

Lemma sales_agent_node_leaves_error : leaves_error sales_agent_node.
Proof. intros state update Hupdate. apply (sales_agent_node_update state update Hupdate). Qed.

Lemma technical_agent_node_leaves_error : leaves_error technical_agent_node.
Proof.
  intros state update Hupdate.
  apply (technical_agent_node_update state update Hupdate).
Qed.

Lemma step_error node state target state' :
  leaves_error main_agent_node →
  leaves_error pricing_agent_node →
  step create_workflow node state = Ok (target, state') →
  state' !! "error" = state !! "error".
Proof.
  intros Hmain Hpricing. unfold step. intros Hstep.
  destruct (nodes create_workflow !! node) as [f|] eqn:Hf; [|discriminate].
  cbn [getitem mbind result_bind bind] in Hstep.
  destruct (f state) as [update|e] eqn:Hupdate; [|discriminate].
  cbn [mbind result_bind bind] in Hstep.
  destruct (apply_update state update) as [merged|e] eqn:Happly; [|discriminate].
  cbn [mbind result_bind bind] in Hstep.
  destruct (route create_workflow node merged) as [t|e]; [|discriminate].
  cbn in Hstep. injection Hstep as <- <-.
  rewrite (apply_update_lookup _ _ _ "error" Happly) by discriminate.
  assert (Hnone : update !! "error" = None).
  { destruct (nodes_lookup node f Hf) as [-> | [-> | [-> | ->]]].
    - eapply Hmain, Hupdate.
    - eapply sales_agent_node_leaves_error, Hupdate.
    - eapply technical_agent_node_leaves_error, Hupdate.
    - eapply Hpricing, Hupdate. }
  rewrite Hnone. reflexivity.
Qed.

Lemma run_from_error limit node state :
  leaves_error main_agent_node →
  leaves_error pricing_agent_node →
  outcome_state (snd (run_from create_workflow limit node state)) !! "error" =
    state !! "error".
Proof.
  intros Hmain Hpricing. revert node state.
  induction limit as [|limit IH]; intros node state; cbn [run_from].
  - reflexivity.
  - destruct (step create_workflow node state) as [[target state']|e] eqn:Hstep.
    + pose proof (step_error node state target state' Hmain Hpricing Hstep) as Herr.
      destruct (String.eqb target END); [exact Herr|].
      specialize (IH target state').
      destruct (run_from create_workflow limit target state') as [calls outcome].
      cbn in *. congruence.
    + reflexivity.
Qed.

(** C3 (amended). The discovery and the assessment stage never write
    the ["error"] key: they report a failure through ["current_step"]
    and an assistant message.  So a run of the engine, in which the two
    other stages do not write it either, ends with ["error"] as it was
    at the start, null for a session made by [create_initial_state],
    whatever ["current_step"] has become: a step other than [ERROR]
    still goes with a null ["error"], and [ERROR] does not make
    ["error"] non-null. *)
Theorem stages_never_write_error :
  leaves_error sales_agent_node ∧
  leaves_error technical_agent_node ∧
  (leaves_error main_agent_node →
   leaves_error pricing_agent_node →
   ∀ (limit : nat) (node : string) (state : AgentState),
     let final := outcome_state (snd (run_from create_workflow limit node state)) in
     final !! "error" = state !! "error" ∧
     (has_error state = false → has_error final = false)) ∧
  (∀ session_id user_message,
     has_error (create_initial_state session_id user_message) = false).
Proof.
  split; [exact sales_agent_node_leaves_error|].
  split; [exact technical_agent_node_leaves_error|].
  split; [|reflexivity].
  intros Hmain Hpricing limit node state final.
  assert (Herr : final !! "error" = state !! "error")
    by (apply run_from_error; assumption).
  split; [exact Herr|].
  unfold has_error, get. rewrite Herr. intros Hstate. exact Hstate.
Qed.

End WithCollaborators.
End EngineFacts.

(** ** The handlers *)

Module ChatFacts.
Import SalesTools TechTools State Env Nodes Graph Chat Cycle.
Import GraphFacts NodesFacts EngineFacts.

(** What the memory manager leaves alone. *)
Ltac frame :=
  intros;
  repeat match goal with x := _ |- _ => subst x end;
  unfold add_user_message, add_ai_message, log_agent_interaction,
    save_agent_interaction, _sync_session_state, save_agent_state,
    save_chat_message, save_chat_session, remember, get_memory;
  repeat (cbn -[String.append];
          match goal with
          | |- context [db_available ?s] => destruct (db_available s) eqn:?
          | |- context [match ?m !! ?k with _ => _ end] => destruct (m !! k) eqn:?
          | |- context [if ?b then _ else _] => destruct b eqn:?
          end);
  cbn -[String.append] in *; try congruence; try reflexivity.

Lemma add_user_message_frame now session_id message s :
  let s' := snd (add_user_message now session_id message s) in
  checkpoints s' = checkpoints s ∧ chat_sessions s' = chat_sessions s ∧
  db_available s' = db_available s.
Proof. frame; repeat split; try reflexivity; congruence. Qed.

Lemma add_ai_message_frame now session_id message metadata s :
  let s' := snd (add_ai_message now session_id message metadata s) in
  checkpoints s' = checkpoints s ∧ chat_sessions s' = chat_sessions s ∧
  db_available s' = db_available s.
Proof. frame; repeat split; try reflexivity; congruence. Qed.

Lemma log_agent_interaction_frame session_id agent input output reasoning s :
  let s' := snd (log_agent_interaction session_id agent input output reasoning s) in
  checkpoints s' = checkpoints s ∧ chat_sessions s' = chat_sessions s ∧
  db_available s' = db_available s ∧ db_sessions s' = db_sessions s.
Proof. frame; repeat split; try reflexivity; congruence. Qed.

Lemma save_agent_state_frame now session_id state s :
  let s' := snd (save_agent_state now session_id state s) in
  checkpoints s' = checkpoints s ∧ chat_sessions s' = chat_sessions s ∧
  db_available s' = db_available s ∧
  (db_available s = true → db_sessions s' = <[session_id := state]> (db_sessions s)).
Proof. frame; repeat split; try reflexivity; congruence. Qed.

Lemma chat_input_messages session_id message s :
  chat_input session_id message s !! "messages" =
    Some (FList [FMsg (HumanMessage message)]).
Proof.
  unfold chat_input.
  destruct (load_agent_state session_id s) as [state|]; [|reflexivity].
  destruct (bool_decide (dom state = ∅)); [reflexivity|].
  apply lookup_insert_eq.
Qed.

Section WithCollaborators.
Context `{Collaborators}.
Context (recursion_limit : nat).

(** The server on which [chat] runs the workflow. *)
Lemma chat_run t1 t2 session_id message s :
  ∃ s1 : Server,
    checkpoints s1 = checkpoints s ∧
    chat_sessions s1 = chat_sessions s ∧
    db_available s1 = db_available s ∧
    db_sessions s1 = db_sessions (snd (add_user_message t1 session_id message s)) ∧
    chat recursion_limit t1 t2 session_id message s =
      let '(outcome, checkpoints') :=
        ainvoke create_workflow recursion_limit (checkpoints s) session_id
          (chat_input session_id message s) in
      let s2 := with_checkpoints checkpoints' s1 in
      match outcome with
      | Raise e => chat_failed t2 session_id message e s2
      | Ok result =>
          match get_last_ai_message_content result with
          | Raise e => chat_failed t2 session_id message e s2
          | Ok response_text =>
              let s3 :=
                snd (add_ai_message t2 session_id response_text
                       (list_to_map
                          [ ("current_step", get result "current_step");
                            ("rfps_identified",
                              get_or result "rfps_identified" (FList [])) ])
                       s2) in
              let s4 := snd (save_agent_state t2 session_id result s3) in
              let s5 :=
                with_chat_sessions (<[session_id := result]> (chat_sessions s4)) s4 in
              let s6 :=
                snd (log_agent_interaction session_id "main_agent" message
                       (list_to_map
                          [ ("response", FStr response_text);
                            ("state", get result "current_step") ])
                       (CompletedStep (get result "current_step")) s5) in
              ({| response := response_text;
                  cr_session_id := session_id;
                  timestamp := t2;
                  workflow_state :=
                    list_to_map
                      [ ("current_step",
                          get_or result "current_step" (FStr "COMPLETE"));
                        ("rfps_identified",
                          get_or result "rfps_identified" (FList []));
                        ("report_url", get result "report_url") ] |}, s6)
          end
      end.
Proof.
  pose proof (add_user_message_frame t1 session_id message s) as Huser.
  destruct (add_user_message t1 session_id message s) as [ok0 s0] eqn:E0.
  pose proof (log_agent_interaction_frame session_id "main_agent" message ∅
                StartingWorkflow s0) as Hlog.
  destruct (log_agent_interaction session_id "main_agent" message ∅
              StartingWorkflow s0) as [ok1 s1] eqn:E1.
  cbn [snd] in *.
  destruct Huser as (Hu1 & Hu2 & Hu3). destruct Hlog as (Hl1 & Hl2 & Hl3 & Hl4).
  exists s1.
  split; [congruence|]. split; [congruence|]. split; [congruence|].
  split; [congruence|].
  unfold chat. rewrite E0, E1.
  replace (checkpoints s1) with (checkpoints s) by congruence.
  destruct (ainvoke _ _ _ _ _) as [[result|e] checkpoints']; [|reflexivity].
  destruct (get_last_ai_message_content result) as [text|e]; [|reflexivity].
  cbn zeta.
  destruct (add_ai_message _ _ _ _ _) as [ok3 s3].
  destruct (save_agent_state _ _ _ _) as [ok4 s4].
  destruct (log_agent_interaction _ _ _ _ (CompletedStep _) _) as [ok6 s6].
  reflexivity.
Qed.

Lemma chat_failed_frame now session_id message e s :
  let '(r, s') := chat_failed now session_id message e s in
  response r = "Error: " +:+ exn_str e ∧
  workflow_state r = {[ "current_step" := FStr "ERROR" ]} ∧
  chat_sessions s' = chat_sessions s ∧
  db_sessions s' = db_sessions s ∧
  checkpoints s' = checkpoints s.
Proof.
  unfold chat_failed.
  pose proof (log_agent_interaction_frame session_id "main_agent" message ∅
                (ErrorOccurred (exn_str e)) s) as Hlog.
  destruct (log_agent_interaction _ _ _ _ _ _) as [ok s'].
  cbn [snd] in Hlog. cbn [response workflow_state]. intuition congruence.
Qed.


Section RoundTheCycle.
Context (llm : list Field → result string) (rfp : Rfp).
Hypothesis Hllm : get_shared_llm = Ok llm.
Hypothesis Hanswers : ∀ messages, is_ok (llm messages) = true.
Hypothesis Hmain :
  ∀ st, main_agent_node st = Ok {[ "next_node" := FStr NodeName.TECHNICAL_AGENT ]}.
Hypothesis Hpricing :
  ∀ st, pricing_agent_node st = Ok {[ "next_node" := FStr NodeName.MAIN_AGENT ]}.
Hypothesis Hrfp : rfp_is_empty rfp = false.







End RoundTheCycle.


(** C5 (amended). [chat] hands the engine only the incoming user
    message under ["messages"]: the messages of the state loaded from
    the database are replaced, not extended.  The engine adds that
    message, and then what the stages return, to the list checkpointed
    for the session in memory.  So when the run ends, the messages of
    the result are the checkpointed ones, then the user message, then
    the stages' messages, in this order, and this result is what is put
    in the session cache, in the checkpoint and, with the database
    available, in the database. *)
Theorem chat_extends_checkpointed_messages :
  ∀ (t1 t2 : Z) (session_id message : string) (s : Server)
    (result : AgentState) (saved : gmap string AgentState),
    ainvoke create_workflow recursion_limit (checkpoints s) session_id
      (chat_input session_id message s) = (Ok result, saved) →
    let old := messages_or_empty (default ∅ (checkpoints s !! session_id)) in
    let s' := snd (chat recursion_limit t1 t2 session_id message s) in
    chat_input session_id message s !! "messages" =
      Some (FList [FMsg (HumanMessage message)]) ∧
    (∃ replies,
       result !! "messages" =
         Some (FList (old ++ FMsg (HumanMessage message) :: replies))) ∧
    chat_sessions s' !! session_id = Some result ∧
    checkpoints s' !! session_id = Some result ∧
    (db_available s = true → db_sessions s' !! session_id = Some result).
Proof.
  intros t1 t2 session_id message s result saved Hrun old s'.
  pose proof (chat_input_messages session_id message s) as Hinput.
  split; [exact Hinput|].
  (* the messages of the result *)
  assert (Hmsgs : ∃ replies,
            result !! "messages" =
              Some (FList (old ++ FMsg (HumanMessage message) :: replies)) ∧
            saved !! session_id = Some result).
  { unfold ainvoke in Hrun.
    destruct (apply_update (default ∅ (checkpoints s !! session_id))
                (chat_input session_id message s)) as [state|e] eqn:Happly;
      [|discriminate].
    assert (Hstate : state !! "messages" =
              Some (FList (old ++ [FMsg (HumanMessage message)]))).
    { unfold apply_update in Happly. rewrite Hinput in Happly.
      unfold old, messages_or_empty.
      destruct (default ∅ (checkpoints s !! session_id) !! "messages")
        as [[| | |l| | |]|]; try discriminate;
        injection Happly as <-; apply lookup_insert_eq. }
    destruct (run_from_messages create_workflow recursion_limit
                (entry_point create_workflow) state _ Hstate) as [new Hnew].
    destruct (run_from create_workflow recursion_limit
                (entry_point create_workflow) state) as [calls [st|e st|st]];
      try discriminate.
    injection Hrun as <- <-. cbn [snd outcome_state] in Hnew.
    exists new. split; [|apply lookup_insert_eq].
    rewrite Hnew, <- app_assoc. reflexivity. }
  destruct Hmsgs as (replies & Hresult & Hsaved).
  split; [exists replies; exact Hresult|].
  (* what is stored *)
  destruct (chat_run t1 t2 session_id message s)
    as (s1 & Hc & Hs & Hav & Hdb & Hchat).
  subst s'. rewrite Hchat, Hrun.
  assert (Hlast : ∃ text, get_last_ai_message_content result = Ok text).
  { unfold get_last_ai_message_content, messages_of. rewrite Hresult.
    eexists. reflexivity. }
  destruct Hlast as [text Htext]. rewrite Htext. cbn zeta. cbn [snd].
  set (s2 := with_checkpoints saved s1).
  match goal with
  | |- context [add_ai_message t2 session_id text ?m s2] =>
      pose proof (add_ai_message_frame t2 session_id text m s2) as Hai;
      set (s3 := snd (add_ai_message t2 session_id text m s2)) in *
  end.
  pose proof (save_agent_state_frame t2 session_id result s3) as Hsave.
  set (s4 := snd (save_agent_state t2 session_id result s3)) in *.
  set (s5 := with_chat_sessions (<[session_id := result]> (chat_sessions s4)) s4).
  match goal with
  | |- context [log_agent_interaction session_id ?a message ?o ?r s5] =>
      pose proof (log_agent_interaction_frame session_id a message o r s5) as Hlog;
      set (s6 := snd (log_agent_interaction session_id a message o r s5)) in *
  end.
  cbn zeta in Hai, Hsave, Hlog.
  destruct Hai as (Ha1 & Ha2 & Ha3).
  destruct Hsave as (Hs1 & Hs2 & Hs3 & Hs4).
  destruct Hlog as (Hl1 & Hl2 & Hl3 & Hl4).
  split; [|split].
  - rewrite Hl2. unfold s5. cbn [chat_sessions with_chat_sessions].
    apply lookup_insert_eq.
  - rewrite Hl1. unfold s5. cbn [checkpoints with_chat_sessions].
    rewrite Hs1, Ha1. unfold s2. cbn [checkpoints with_checkpoints].
    exact Hsaved.
  - intros Havail. rewrite Hl4. unfold s5. cbn [db_sessions with_chat_sessions].
    rewrite Hs4; [apply lookup_insert_eq|].
    rewrite Ha3. unfold s2. cbn [db_available with_checkpoints]. congruence.
Qed.

End WithCollaborators.

(** C7 (amended). The session-clear handler removes the session from
    the in-memory dicts, which are the memory cache, the last-sync table
    and the session cache, so that [get_workflow_state] then finds no
    session.  It does not touch the database or the engine's
    checkpoints: what [load_agent_state] found for the session before,
    it finds afterwards. *)
Theorem clear_session_clears_memory_only :
  ∀ (session_id : string) (s : Server),
    let s' := snd (clear_session session_id s) in
    memory_cache s' = delete session_id (memory_cache s) ∧
    last_sync s' = delete session_id (last_sync s) ∧
    chat_sessions s' = delete session_id (chat_sessions s) ∧
    fst (get_workflow_state session_id s') = Ok (NoSession session_id) ∧
    db_sessions s' = db_sessions s ∧
    db_messages s' = db_messages s ∧
    checkpoints s' = checkpoints s ∧
    load_agent_state session_id s' = load_agent_state session_id s.
Proof.
  intros session_id s s'. subst s'.
  unfold clear_session, clear_memory.
  cbn [chat_sessions with_last_sync with_memory_cache].
  destruct (chat_sessions s !! session_id) as [state|] eqn:Hcached.
  - cbn. unfold get_workflow_state. cbn. rewrite lookup_delete_eq.
    repeat split; reflexivity.
  - cbn. unfold get_workflow_state. cbn. rewrite Hcached.
    repeat split; try reflexivity.
    symmetry. apply delete_id. exact Hcached.
Qed.

(** C8. For every session id, [get_workflow_state] leaves the server as
    it is, so that a second call right after the first returns the same
    answer. *)
Theorem get_workflow_state_idempotent :
  ∀ (session_id : string) (s : Server),
    let '(r1, s1) := get_workflow_state session_id s in
    let '(r2, s2) := get_workflow_state session_id s1 in
    r1 = r2 ∧ s1 = s ∧ s2 = s.
Proof.
  intros session_id s.
  assert (Hsame : snd (get_workflow_state session_id s) = s).
  { unfold get_workflow_state.
    destruct (chat_sessions s !! session_id) as [state|]; [|reflexivity].
    destruct (bool_decide (dom state = ∅)); reflexivity. }
  destruct (get_workflow_state session_id s) as [r1 s1] eqn:E1.
  cbn [snd] in Hsame. subst s1. rewrite E1. repeat split; reflexivity.
Qed.

End ChatFacts.

(** ** The properties at concrete inputs *)

Module Scenarios.
Import SalesTools TechTools State Env Nodes Graph Chat Examples.

(** C9 (witness). Three days are left where seven are needed, and the
    tender is worth ten times the minimum: 0 + 40 + 30 points, and the
    RFP is reported qualified. *)
Lemma qualify_rfp_tool_late_rfp_qualified :
  r_rfp_id late_rfp = Some "RFP-001" ∧
  ∃ q : Qualification,
    qualify_rfp_tool late_rfp sales_criteria = Ok q ∧
    q_score q = 70 ∧ q_qualified q = true ∧
    head (q_reasons q) = Some "Insufficient time: 3 days (need 7+)".
Proof.
  split; [reflexivity|].
  destruct (SalesToolsFacts.qualify_rfp_tool_qualified_iff_score_ge_60
              late_rfp sales_criteria "RFP-001" eq_refl)
    as (q & Hq & _ & Hscore & Hqualified & Hlate).
  exists q. split; [exact Hq|].
  destruct Hlate as (_ & Hreason & _); [reflexivity|].
  split; [rewrite Hscore; reflexivity|].
  split; [rewrite Hqualified, Hscore; reflexivity | exact Hreason].
Defined.

(** C10 (witness). The best two of a catalog of three. *)
Lemma match_oem_products_top_two :
  0 ≤ 2 ∧
  length (match_oem_products demo_catalog demo_requirements 2) = 2%nat ∧
  StronglySorted (fun a b => (s_match_score b <= s_match_score a)%Q)
    (match_oem_products demo_catalog demo_requirements 2).
Proof.
  split; [lia|].
  destruct (TechToolsFacts.match_oem_products_top_n_sorted_percent
              demo_catalog demo_requirements 2 ltac:(lia))
    as (_ & Hlen & Hsorted & _).
  split; [exact Hlen | exact Hsorted].
Defined.

(** A negative [top_n] makes the slice count from the end: of three
    products all but the last are returned. *)
Lemma match_oem_products_negative_top_n :
  length (match_oem_products demo_catalog demo_requirements (-1)) = 2%nat.
Proof. reflexivity. Qed.



(** C3 (counterexample). A new session whose first turn is sent to the
    assessment stage: the state stored at the end of the turn has step
    [ERROR] and a null ["error"]. *)
Lemma stored_ERROR_state_has_null_error :
  let s' := snd (@chat looping 25 100 200 "s2" "analyse the tender" empty_server) in
  match db_sessions s' !! "s2" with
  | Some st =>
      get st "current_step" = FStr WorkflowStep.ERROR ∧
      get st "error" = FNone ∧ has_error st = false
  | None => False
  end.
Proof. vm_compute. repeat split; reflexivity. Qed.

Lemma looping_nodes_leave_error :
  leaves_error (@main_agent_node looping) ∧ leaves_error (@pricing_agent_node looping).
Proof. split; intros state update [= <-]; reflexivity. Qed.

(** C3 (witness). *)
Lemma looping_run_keeps_null_error :
  outcome_state
    (snd (run_from (@create_workflow looping) 25 "main_agent"
            (create_initial_state "s2" "analyse the tender"))) !! "error"
    = Some FNone.
Proof.
  destruct (@EngineFacts.stages_never_write_error looping) as (_ & _ & Hrun & _).
  destruct looping_nodes_leave_error as [Hmain Hpricing].
  destruct (Hrun Hmain Hpricing 25%nat "main_agent"
              (create_initial_state "s2" "analyse the tender")) as [Herror _].
  rewrite Herror. reflexivity.
Defined.

(** C4 (counterexample). The assessment stage on a state without a
    selected RFP: the step becomes [ERROR], and ["error"] is null, not a
    non-empty text. *)
Lemma assessment_without_selection_leaves_error_null :
  let state := create_initial_state "s1" "analyse the tender" in
  get state "selected_rfp" = FNone ∧
  match @technical_agent_node replying state with
  | Ok update =>
      match apply_update state update with
      | Ok state' =>
          get state' "current_step" = FStr WorkflowStep.ERROR ∧
          get state' "error" = FNone ∧
          route_from_technical state' = END
      | Raise _ => False
      end
  | Raise _ => False
  end.
Proof. vm_compute. repeat split; reflexivity. Qed.

(** C4 (witness). *)
Lemma assessment_of_selected_rfp_goes_to_pricing :
  (∃ update,
     @technical_agent_node replying (create_initial_state "s1" "analyse") = Ok update ∧
     update !! "current_step" = Some (FStr WorkflowStep.ERROR)) ∧
  (∃ update,
     @technical_agent_node replying selected_state = Ok update ∧
     update !! "current_step" = Some (FStr WorkflowStep.PRICING)).
Proof.
  destruct (@NodesFacts.technical_agent_node_precondition replying
              (create_initial_state "s1" "analyse")
              (fun _ => Ok "Here is the analysis.") eq_refl) as [Habsent _].
  destruct (@NodesFacts.technical_agent_node_precondition replying
              selected_state (fun _ => Ok "Here is the analysis.") eq_refl)
    as [_ Hpresent].
  split.
  - destruct (Habsent eq_refl) as (update & Hupdate & Hstep & _).
    exists update. split; [exact Hupdate | exact Hstep].
  - destruct (Hpresent late_rfp eq_refl eq_refl)
      as (update & Hupdate & [(_ & Hstep & _)|(Hfailed & _)]).
    + exists update. split; [exact Hupdate | exact Hstep].
    + discriminate Hfailed.
Defined.

(** C5 (counterexample). After a restart the checkpoints are empty and
    the database holds the session with one message.  The next turn
    stores a state whose messages start with the new user message: the
    loaded message is gone. *)
Lemma loaded_messages_are_not_kept :
  let s := with_db_sessions {[ "s1" := create_initial_state "s1" "first" ]} empty_server in
  let s' := snd (@chat replying 25 100 200 "s1" "hello again" s) in
  (messages_or_empty <$> load_agent_state "s1" s
     = Some [FMsg (HumanMessage "first")]) ∧
  (messages_or_empty <$> db_sessions s' !! "s1"
     = Some [FMsg (HumanMessage "hello again"); FMsg (AIMessage "How can I help?")]) ∧
  ¬ ([FMsg (HumanMessage "first")] `prefix_of`
       [FMsg (HumanMessage "hello again"); FMsg (AIMessage "How can I help?")]).
Proof.
  cbn zeta. split; [vm_compute; reflexivity|]. split; [vm_compute; reflexivity|].
  intros [rest Hrest]. discriminate Hrest.
Qed.

(** C5 (witness). *)
Lemma first_turn_messages :
  ∃ replies,
    default ∅ (chat_sessions (snd (@chat replying 25 100 200 "s1" "hello" empty_server))
                 !! "s1") !! "messages"
      = Some (FList ([] ++ FMsg (HumanMessage "hello") :: replies)).
Proof.
  destruct (@ChatFacts.chat_extends_checkpointed_messages replying 25
              100 200 "s1" "hello" empty_server
              (match fst (ainvoke (@create_workflow replying) 25 ∅ "s1"
                            (chat_input "s1" "hello" empty_server)) with
               | Ok result => result
               | Raise _ => ∅
               end)
              (snd (ainvoke (@create_workflow replying) 25 ∅ "s1"
                      (chat_input "s1" "hello" empty_server))))
    as (_ & (replies & Hmessages) & Hcache & _).
  - vm_compute. reflexivity.
  - exists replies. rewrite Hcache. exact Hmessages.
Defined.

(** C6 (counterexample). The scan finds nothing: the discovery stage
    sets the step to [COMPLETE], not to [WAITING_USER]. *)
Lemma discovery_without_results_is_COMPLETE :
  match @sales_agent_node replying (create_initial_state "s1" "find cable tenders") with
  | Ok update =>
      update !! "current_step" = Some (FStr WorkflowStep.COMPLETE) ∧
      update !! "current_step" ≠ Some (FStr WorkflowStep.WAITING_USER)
  | Raise _ => False
  end.
Proof. vm_compute. split; [reflexivity | discriminate]. Qed.

(** C6 (witness). The scan finds three records, two of them qualify
    and the model presents them: the step is [WAITING_USER] and the
    update carries the prioritized records. *)
Lemma discovery_routes_to_end :
  ∃ (update : AgentState) (top : list Rfp),
    @sales_agent_node Samples.finding (create_initial_state "s1" "find cable tenders")
      = Ok update ∧
    update !! "next_node" = Some (FStr NodeName.END) ∧
    update !! "current_step" = Some (FStr WorkflowStep.WAITING_USER) ∧
    update !! "rfps_identified" = Some (FList (FRfp <$> top)) ∧
    top ≠ [].
Proof.
  destruct (@NodesFacts.sales_agent_node_routes_to_end Samples.finding
              (create_initial_state "s1" "find cable tenders")
              (fun _ => Ok "Here is the analysis.") eq_refl)
    as (update & Hupdate & Hnext & _ & [Hwaiting _] & _).
  assert (Hstep : update !! "current_step" = Some (FStr WorkflowStep.WAITING_USER)).
  { revert Hupdate. vm_compute. intros [= <-]. reflexivity. }
  destruct (Hwaiting Hstep)
    as (scanned & qualifications & top & history & reply
        & _ & _ & _ & _ & Htop & _ & _ & Hrfps & _).
  exists update, top.
  split; [exact Hupdate|]. split; [exact Hnext|]. split; [exact Hstep|].
  split; [exact Hrfps | exact Htop].
Defined.

(** C7 (counterexample). A session that is stored and cached: after the
    session-clear handler the load from the database still finds it. *)
Lemma cleared_session_is_still_stored :
  let stored := create_initial_state "s1" "find cable tenders" in
  let s :=
    with_chat_sessions {[ "s1" := stored ]}
      (with_db_sessions {[ "s1" := stored ]} empty_server) in
  let s' := snd (clear_session "s1" s) in
  chat_sessions s' !! "s1" = None ∧
  db_sessions s' = {[ "s1" := stored ]} ∧
  load_agent_state "s1" s' = Some stored ∧
  load_agent_state "s1" s' ≠ None.
Proof.
  cbn zeta. split; [vm_compute; reflexivity|].
  split; [unfold clear_session, clear_memory; cbn;
          rewrite lookup_singleton_eq; reflexivity|].
  assert (Hload : ∀ stored : AgentState,
            load_agent_state "s1"
              (snd (clear_session "s1"
                      (with_chat_sessions {[ "s1" := stored ]}
                         (with_db_sessions {[ "s1" := stored ]} empty_server))))
            = Some stored).
  { intros stored. unfold clear_session, clear_memory. cbn.
    rewrite lookup_singleton_eq. cbn. unfold load_agent_state, load_chat_session.
    cbn. apply lookup_singleton_eq. }
  rewrite Hload. split; [reflexivity | discriminate].
Qed.

End Scenarios.

(** ** Ranking: what a stable sort followed by a slice returns *)

Module RankingFacts.
Import PyFacts.

Section Ranking.
Context {A : Type} (le : A → A → bool).

Lemma insert_desc_Permutation x l : insert_desc le x l ≡ₚ x :: l.
Proof.
  induction l as [|y l IH]; cbn; [reflexivity|].
  destruct (le y x); [reflexivity|].
  rewrite IH. apply Permutation_swap.
Qed.

Lemma sort_desc_Permutation l : sort_desc le l ≡ₚ l.
Proof.
  induction l as [|x l IH]; [reflexivity|].
  rewrite sort_desc_cons, insert_desc_Permutation, IH. reflexivity.
Qed.

(** Elements that tie with one another keep their order. *)
Lemma filter_insert_desc_tied (P : A → Prop) `{∀ a, Decision (P a)} x l :
  (∀ a b, P a → P b → le a b = true) →
  filter P (insert_desc le x l) = filter P (x :: l).
Proof.
  intros Htied. induction l as [|y l IH]; cbn [insert_desc]; [reflexivity|].
  destruct (le y x) eqn:Hyx; [reflexivity|].
  rewrite (filter_cons P y), IH, !filter_cons.
  destruct (decide (P y)) as [Hy|Hy]; [|reflexivity].
  destruct (decide (P x)) as [Hx|Hx]; [|reflexivity].
  rewrite (Htied y x Hy Hx) in Hyx. discriminate.
Qed.

Lemma filter_sort_desc_tied (P : A → Prop) `{∀ a, Decision (P a)} l :
  (∀ a b, P a → P b → le a b = true) →
  filter P (sort_desc le l) = filter P l.
Proof.
  intros Htied. induction l as [|x l IH]; [reflexivity|].
  rewrite sort_desc_cons, filter_insert_desc_tied by exact Htied.
  rewrite !filter_cons, IH. reflexivity.
Qed.

End Ranking.

Lemma slice_to_take {A} n (l : list A) : ∃ k, slice_to n l = take k l.
Proof. unfold slice_to. destruct (0 <=? n); eexists; reflexivity. Qed.

Lemma StronglySorted_app_before {A} (R : A → A → Prop) l1 l2 :
  StronglySorted R (l1 ++ l2) → ∀ a b, a ∈ l1 → b ∈ l2 → R a b.
Proof.
  induction l1 as [|x l1 IH]; cbn; intros Hsorted a b Ha Hb.
  - apply elem_of_nil in Ha. destruct Ha.
  - apply StronglySorted_inv in Hsorted. destruct Hsorted as [Hrest Hx].
    apply elem_of_cons in Ha. destruct Ha as [->|Ha].
    + rewrite Forall_forall in Hx. apply Hx, elem_of_app. right. exact Hb.
    + eapply IH; eassumption.
Qed.

Lemma filter_take_prefix {A} (P : A → Prop) `{∀ a, Decision (P a)} k (l : list A) :
  filter P (take k l) `prefix_of` filter P l.
Proof.
  exists (filter P (drop k l)).
  rewrite <- filter_app, take_drop. reflexivity.
Qed.

(** The slice of a ranking: a prefix of it, so that what is left out
    ranks no higher, and ties stay in the order of the input. *)
Lemma slice_to_sort_desc_best {A} (le : A → A → bool) n (l : list A) :
  (∀ a b, le a b = false → le b a = true) →
  (∀ a b c, le a b = true → le b c = true → le a c = true) →
  ∃ rest,
    slice_to n (sort_desc le l) ++ rest ≡ₚ l ∧
    ∀ a b, a ∈ slice_to n (sort_desc le l) → b ∈ rest → le b a = true.
Proof.
  intros Htotal Htrans.
  destruct (slice_to_take n (sort_desc le l)) as [k ->].
  exists (drop k (sort_desc le l)). split.
  - rewrite take_drop. apply sort_desc_Permutation.
  - apply (StronglySorted_app_before (before le)).
    rewrite take_drop. apply sort_desc_sorted; assumption.
Qed.

Lemma slice_to_sort_desc_stable {A} (le : A → A → bool)
    (P : A → Prop) `{∀ a, Decision (P a)} n (l : list A) :
  (∀ a b, P a → P b → le a b = true) →
  filter P (slice_to n (sort_desc le l)) `prefix_of` filter P l.
Proof.
  intros Htied.
  destruct (slice_to_take n (sort_desc le l)) as [k ->].
  rewrite <- (filter_sort_desc_tied le P l Htied).
  apply filter_take_prefix.
Qed.

End RankingFacts.

(** ** Qualification and prioritisation *)

Module SalesRankingFacts.
Import SalesTools PyFacts RankingFacts.

Lemma qualify_rfp_tool_Ok rfp criteria rid :
  r_rfp_id rfp = Some rid →
  ∃ q,
    qualify_rfp_tool rfp criteria = Ok q ∧
    q_rfp_id q = rid ∧
    q_score q =
      timeline_points rfp criteria + value_points rfp criteria
      + location_points rfp criteria ∧
    q_qualified q = (60 <=? q_score q) ∧
    length (q_reasons q) = 3%nat.
Proof.
  intros Hrid. unfold qualify_rfp_tool. rewrite Hrid.
  cbn [getitem mbind result_bind bind mret result_ret].
  eexists. split; [reflexivity|].
  unfold timeline_points, value_points, location_points.
  set (d := default 0 (r_days_remaining rfp)).
  set (m := default 7 (c_min_days_remaining criteria)).
  set (tv := default 0 (r_tender_value rfp)).
  set (mv := default 1000000 (c_min_tender_value criteria)).
  destruct (default [] (c_preferred_locations criteria)) as [|loc locs].
  all: destruct (d <? m); [|destruct (d <? 14); [|destruct (d <? 30)]].
  all: destruct (tv <? mv); [|destruct (tv <? mv * 2); [|destruct (tv <? mv * 5)]].
  all: try destruct (location_match rfp (loc :: locs)).
  all: cbn [q_score q_qualified q_reasons q_rfp_id set_qualified add_points
            add_reason app length].
  all: repeat split; reflexivity.
Qed.

Lemma timeline_points_range rfp criteria : 0 ≤ timeline_points rfp criteria ≤ 30.
Proof. unfold timeline_points. repeat case_match; lia. Qed.

Lemma value_points_range rfp criteria : 10 ≤ value_points rfp criteria ≤ 40.
Proof. unfold value_points. repeat case_match; lia. Qed.

Lemma location_points_range rfp criteria : 10 ≤ location_points rfp criteria ≤ 30.
Proof. unfold location_points. repeat case_match; lia. Qed.

Lemma timeline_points_mono rfp1 rfp2 criteria :
  default 0 (r_days_remaining rfp1) ≤ default 0 (r_days_remaining rfp2) →
  timeline_points rfp1 criteria ≤ timeline_points rfp2 criteria.
Proof. unfold timeline_points. intros Hle. repeat case_match; lia. Qed.

Lemma value_points_mono rfp1 rfp2 criteria :
  default 0 (r_tender_value rfp1) ≤ default 0 (r_tender_value rfp2) →
  value_points rfp1 criteria ≤ value_points rfp2 criteria.
Proof. unfold value_points. intros Hle. repeat case_match; lia. Qed.

Lemma location_points_location rfp1 rfp2 criteria :
  r_location rfp1 = r_location rfp2 →
  location_points rfp1 criteria = location_points rfp2 criteria.
Proof.
  intros Hloc. unfold location_points, location_match. rewrite Hloc. reflexivity.
Qed.

(** X1. [qualify_rfp_tool] raises [KeyError('rfp_id')] exactly when the
    record has no [rfp_id], whatever its other keys and the criteria are.
    Otherwise it returns a qualification for that id with exactly three
    reasons, one per part, and a score between 20 and 100; without
    preferred locations the score is at least 40. *)
Theorem qualify_rfp_tool_three_reasons_score_range :
  ∀ (rfp : Rfp) (criteria : Criteria),
    match r_rfp_id rfp with
    | None => qualify_rfp_tool rfp criteria = Raise (Exn "KeyError" "'rfp_id'")
    | Some rid =>
        ∃ q : Qualification,
          qualify_rfp_tool rfp criteria = Ok q ∧
          q_rfp_id q = rid ∧
          length (q_reasons q) = 3%nat ∧
          20 ≤ q_score q ≤ 100 ∧
          (default [] (c_preferred_locations criteria) = [] → 40 ≤ q_score q)
    end.
Proof.
  intros rfp criteria. destruct (r_rfp_id rfp) as [rid|] eqn:Hrid.
  - destruct (qualify_rfp_tool_Ok rfp criteria rid Hrid)
      as (q & Hq & Hid & Hscore & _ & Hreasons).
    exists q. split; [exact Hq|]. split; [exact Hid|]. split; [exact Hreasons|].
    pose proof (timeline_points_range rfp criteria).
    pose proof (value_points_range rfp criteria).
    pose proof (location_points_range rfp criteria).
    split; [lia|].
    intros Hnone. assert (location_points rfp criteria = 30) as Hloc.
    { unfold location_points. rewrite Hnone. reflexivity. }
    lia.
  - unfold qualify_rfp_tool. rewrite Hrid. reflexivity.
Qed.

(** X2. Of two records with the same location, the one with at least
    as many days left and at least as high a tender value gets at least
    as high a score under the same criteria, and is qualified when the
    other one is. *)
Theorem qualify_rfp_tool_monotone :
  ∀ (rfp1 rfp2 : Rfp) (criteria : Criteria) (q1 q2 : Qualification),
    qualify_rfp_tool rfp1 criteria = Ok q1 →
    qualify_rfp_tool rfp2 criteria = Ok q2 →
    r_location rfp1 = r_location rfp2 →
    default 0 (r_days_remaining rfp1) ≤ default 0 (r_days_remaining rfp2) →
    default 0 (r_tender_value rfp1) ≤ default 0 (r_tender_value rfp2) →
    q_score q1 ≤ q_score q2 ∧ (q_qualified q1 = true → q_qualified q2 = true).
Proof.
  intros rfp1 rfp2 criteria q1 q2 H1 H2 Hloc Hdays Hvalue.
  assert (Hid : ∀ rfp q, qualify_rfp_tool rfp criteria = Ok q →
            q_score q =
              timeline_points rfp criteria + value_points rfp criteria
              + location_points rfp criteria ∧
            q_qualified q = (60 <=? q_score q)).
  { intros rfp q Hq. destruct (r_rfp_id rfp) as [rid|] eqn:Hrid.
    - destruct (qualify_rfp_tool_Ok rfp criteria rid Hrid)
        as (q' & Hq' & _ & Hscore & Hqual & _).
      rewrite Hq in Hq'. injection Hq' as <-. split; assumption.
    - unfold qualify_rfp_tool in Hq. rewrite Hrid in Hq. discriminate Hq. }
  destruct (Hid rfp1 q1 H1) as [Hs1 Hq1]. destruct (Hid rfp2 q2 H2) as [Hs2 Hq2].
  pose proof (timeline_points_mono rfp1 rfp2 criteria Hdays).
  pose proof (value_points_mono rfp1 rfp2 criteria Hvalue).
  pose proof (location_points_location rfp1 rfp2 criteria Hloc).
  assert (q_score q1 ≤ q_score q2) as Hle by lia.
  split; [exact Hle|].
  rewrite Hq1, Hq2. intros Hge. apply Z.leb_le in Hge. apply Z.leb_le. lia.
Qed.

(** *** [prioritize_rfps_tool] *)

(** The dict comprehension keeps, for an id, the last qualification
    that carries it. *)
Lemma qual_lookup_last qualifications rid :
  qual_lookup qualifications !! rid =
    last (filter (fun q => q_rfp_id q = rid) qualifications).
Proof.
  unfold qual_lookup.
  induction qualifications as [|q qualifications IH] using rev_ind; [reflexivity|].
  rewrite foldl_app, filter_app. cbn [foldl]. rewrite filter_cons, filter_nil.
  destruct (decide (q_rfp_id q = rid)) as [Heq|Hne].
  - rewrite last_snoc, <- Heq. apply lookup_insert_eq.
  - rewrite app_nil_r, lookup_insert_ne by exact Hne. exact IH.
Qed.

Lemma qual_lookup_elem qualifications rid qual :
  qual_lookup qualifications !! rid = Some qual →
  qual ∈ qualifications ∧ q_rfp_id qual = rid.
Proof.
  rewrite qual_lookup_last. intros Hlast.
  assert (qual ∈ filter (fun q => q_rfp_id q = rid) qualifications) as Hin.
  { apply last_Some in Hlast. destruct Hlast as [l' ->].
    apply elem_of_app. right. apply list_elem_of_singleton. reflexivity. }
  apply list_elem_of_filter in Hin. destruct Hin. split; assumption.
Qed.

(** What the loop of [prioritize_rfps_tool] does with one record that
    has an id. *)
Lemma scored_rfps_cons lookup rfp rest rid :
  r_rfp_id rfp = Some rid →
  scored_rfps lookup (rfp :: rest) =
    match scored_rfps lookup rest with
    | Raise e => Raise e
    | Ok tail =>
        match lookup !! rid with
        | Some qual => if q_qualified qual then Ok (set_priority qual rfp :: tail) else Ok tail
        | None => Ok tail
        end
    end.
Proof.
  intros Hrid. cbn [scored_rfps]. rewrite Hrid.
  cbn [getitem mbind result_bind bind mret result_ret].
  destruct (scored_rfps lookup rest) as [tail|e]; [|reflexivity].
  cbn. destruct (lookup !! rid) as [qual|]; [|reflexivity].
  destruct (q_qualified qual); reflexivity.
Qed.

Lemma scored_rfps_raises lookup rfps :
  Exists (fun rfp => r_rfp_id rfp = None) rfps →
  scored_rfps lookup rfps = Raise (Exn "KeyError" "'rfp_id'").
Proof.
  induction rfps as [|rfp rest IH]; intros Hex.
  - apply Exists_nil in Hex. destruct Hex.
  - destruct (r_rfp_id rfp) as [rid|] eqn:Hrid.
    + rewrite (scored_rfps_cons lookup rfp rest rid Hrid).
      apply Exists_cons in Hex. destruct Hex as [Hex|Hex]; [congruence|].
      rewrite (IH Hex). reflexivity.
    + cbn [scored_rfps]. rewrite Hrid. reflexivity.
Qed.

Lemma scored_rfps_returns lookup rfps :
  Forall (fun rfp => is_Some (r_rfp_id rfp)) rfps →
  ∃ scored, scored_rfps lookup rfps = Ok scored.
Proof.
  induction 1 as [|rfp rest [rid Hrid] _ [tail IH]]; [eexists; reflexivity|].
  rewrite (scored_rfps_cons lookup rfp rest rid Hrid), IH.
  destruct (lookup !! rid) as [qual|]; [|eexists; reflexivity].
  destruct (q_qualified qual); eexists; reflexivity.
Qed.

Lemma scored_rfps_elem lookup rfps scored r :
  scored_rfps lookup rfps = Ok scored →
  r ∈ scored →
  ∃ rfp rid qual,
    rfp ∈ rfps ∧ r_rfp_id rfp = Some rid ∧ lookup !! rid = Some qual ∧
    q_qualified qual = true ∧ r = set_priority qual rfp.
Proof.
  revert scored. induction rfps as [|rfp rest IH]; intros scored Hscored Hr.
  - injection Hscored as <-. apply elem_of_nil in Hr. destruct Hr.
  - destruct (r_rfp_id rfp) as [rid|] eqn:Hrid;
      [|cbn in Hscored; rewrite Hrid in Hscored; discriminate].
    rewrite (scored_rfps_cons lookup rfp rest rid Hrid) in Hscored.
    destruct (scored_rfps lookup rest) as [tail|e]; [|discriminate].
    assert (Htail : r ∈ tail →
              ∃ rfp0 rid0 qual,
                rfp0 ∈ rfp :: rest ∧ r_rfp_id rfp0 = Some rid0 ∧
                lookup !! rid0 = Some qual ∧ q_qualified qual = true ∧
                r = set_priority qual rfp0).
    { intros Hin. destruct (IH tail eq_refl Hin) as (rfp0 & rid0 & qual & Hin0 & Hrest).
      exists rfp0, rid0, qual. split; [apply elem_of_cons; right; exact Hin0 | exact Hrest]. }
    destruct (lookup !! rid) as [qual|] eqn:Hlookup;
      [destruct (q_qualified qual) eqn:Hqual|];
      injection Hscored as <-; try (apply Htail, Hr).
    apply elem_of_cons in Hr. destruct Hr as [->|Hr]; [|apply Htail, Hr].
    exists rfp, rid, qual. repeat split; try assumption. apply elem_of_cons. left. reflexivity.
Qed.

Lemma priority_le_total a b : priority_le a b = false → priority_le b a = true.
Proof. unfold priority_le. rewrite Z.leb_gt, Z.leb_le. lia. Qed.

Lemma priority_le_trans a b c :
  priority_le a b = true → priority_le b c = true → priority_le a c = true.
Proof. unfold priority_le. rewrite !Z.leb_le. lia. Qed.

Lemma prioritize_rfps_tool_scored rfps qualifications top_n ranked :
  prioritize_rfps_tool rfps qualifications top_n = Ok ranked →
  ∃ scored,
    scored_rfps (qual_lookup qualifications) rfps = Ok scored ∧
    ranked = slice_to top_n (sort_desc priority_le scored).
Proof.
  unfold prioritize_rfps_tool.
  destruct (scored_rfps (qual_lookup qualifications) rfps) as [scored|e];
    [|discriminate].
  cbn. intros [= <-]. exists scored. split; reflexivity.
Qed.

Lemma prioritize_rfps_tool_sorted rfps qualifications top_n ranked :
  prioritize_rfps_tool rfps qualifications top_n = Ok ranked →
  StronglySorted
    (fun a b => default 0 (r_priority_score b) ≤ default 0 (r_priority_score a))
    ranked.
Proof.
  intros Hranked.
  destruct (prioritize_rfps_tool_scored _ _ _ _ Hranked) as (scored & _ & ->).
  apply slice_to_sorted.
  eapply Sorted.StronglySorted_ind
    with (P := StronglySorted
                 (fun a b => default 0 (r_priority_score b) ≤ default 0 (r_priority_score a)));
    [constructor | | apply (sort_desc_sorted priority_le priority_le_total priority_le_trans)].
  intros a l _ IH Ha. constructor; [exact IH|].
  eapply Forall_impl; [exact Ha|].
  intros b Hb. unfold before, priority_le in Hb. apply Z.leb_le, Hb.
Qed.

Lemma prioritize_rfps_tool_elem rfps qualifications top_n ranked r :
  prioritize_rfps_tool rfps qualifications top_n = Ok ranked →
  r ∈ ranked →
  ∃ rfp qual,
    rfp ∈ rfps ∧ qual ∈ qualifications ∧
    r_rfp_id rfp = Some (q_rfp_id qual) ∧
    last (filter (fun q => q_rfp_id q = q_rfp_id qual) qualifications) = Some qual ∧
    q_qualified qual = true ∧ r = set_priority qual rfp.
Proof.
  intros Hranked Hr.
  destruct (prioritize_rfps_tool_scored _ _ _ _ Hranked) as (scored & Hscored & ->).
  apply slice_to_elem, sort_desc_elem in Hr.
  destruct (scored_rfps_elem _ _ _ _ Hscored Hr)
    as (rfp & rid & qual & Hin & Hrid & Hlookup & Hqual & ->).
  destruct (qual_lookup_elem _ _ _ Hlookup) as [Hmem <-].
  exists rfp, qual. repeat split; try assumption.
  rewrite <- qual_lookup_last. exact Hlookup.
Qed.

(** X3. When [prioritize_rfps_tool] returns for a non-negative [top_n],
    it returns at most [top_n] records in non-increasing order of
    [priority_score].  Each of them is a record of [rfps] to which the
    last qualification with its [rfp_id] in [qualifications] has been
    attached; that qualification says [qualified], and its score is the
    record's [priority_score]. *)
Theorem prioritize_rfps_tool_ranks_qualified :
  ∀ (rfps : list Rfp) (qualifications : list Qualification) (top_n : Z)
    (ranked : list Rfp),
    0 ≤ top_n →
    prioritize_rfps_tool rfps qualifications top_n = Ok ranked →
    Z.of_nat (length ranked) ≤ top_n ∧
    StronglySorted
      (fun a b => default 0 (r_priority_score b) ≤ default 0 (r_priority_score a))
      ranked ∧
    Forall
      (fun r =>
         ∃ rfp qual,
           rfp ∈ rfps ∧ qual ∈ qualifications ∧
           r_rfp_id rfp = Some (q_rfp_id qual) ∧
           last (filter (fun q => q_rfp_id q = q_rfp_id qual) qualifications)
             = Some qual ∧
           q_qualified qual = true ∧
           r = set_priority qual rfp ∧
           r_priority_score r = Some (q_score qual) ∧
           r_qualification r = Some qual)
      ranked.
Proof.
  intros rfps qualifications top_n ranked Htop Hranked.
  split; [|split].
  - destruct (prioritize_rfps_tool_scored _ _ _ _ Hranked) as (scored & _ & ->).
    rewrite slice_to_length by exact Htop. lia.
  - eapply prioritize_rfps_tool_sorted, Hranked.
  - apply Forall_forall. intros r Hr.
    destruct (prioritize_rfps_tool_elem _ _ _ _ r Hranked Hr)
      as (rfp & qual & H1 & H2 & H3 & H4 & H5 & ->).
    exists rfp, qual. repeat split; assumption.
Qed.


(** X5. [prioritize_rfps_tool] reads [rfp['rfp_id']] of every record
    before it looks at the qualifications: it raises
    [KeyError('rfp_id')] as soon as one record of [rfps] has no
    [rfp_id], also when that record has no qualification, and it
    returns a list when every record has one. *)
Theorem prioritize_rfps_tool_raises_iff_rfp_id_missing :
  ∀ (rfps : list Rfp) (qualifications : list Qualification) (top_n : Z),
    (Exists (fun rfp => r_rfp_id rfp = None) rfps →
     prioritize_rfps_tool rfps qualifications top_n
       = Raise (Exn "KeyError" "'rfp_id'")) ∧
    (Forall (fun rfp => is_Some (r_rfp_id rfp)) rfps →
     ∃ ranked, prioritize_rfps_tool rfps qualifications top_n = Ok ranked).
Proof.
  intros rfps qualifications top_n. split.
  - intros Hex. unfold prioritize_rfps_tool.
    rewrite (scored_rfps_raises _ _ Hex). reflexivity.
  - intros Hall. unfold prioritize_rfps_tool.
    destruct (scored_rfps_returns (qual_lookup qualifications) _ Hall) as [scored ->].
    eexists. reflexivity.
Qed.

End SalesRankingFacts.

(** ** The discovery stage and its tools together *)

Module DiscoveryFacts.
Import SalesTools TechTools State Env Nodes Graph.
Import PyFacts RankingFacts SalesRankingFacts.

Lemma mapM_Forall2 {A B} (f : A → result B) l ys :
  mapM f l = Ok ys → Forall2 (fun x y => f x = Ok y) l ys.
Proof.
  revert ys. induction l as [|x l IH]; intros ys; cbn [mapM].
  - intros [= <-]. constructor.
  - destruct (f x) as [y|e] eqn:Hfx; [|discriminate].
    destruct (mapM f l) as [ys'|e]; [|discriminate].
    intros [= <-]. constructor; [exact Hfx | apply IH; reflexivity].
Qed.

Lemma qualify_rfp_tool_qualified rfp criteria q :
  qualify_rfp_tool rfp criteria = Ok q →
  q_qualified q = (60 <=? q_score q) ∧ q_score q ≤ 100.
Proof.
  intros Hq. destruct (r_rfp_id rfp) as [rid|] eqn:Hrid.
  - destruct (qualify_rfp_tool_Ok rfp criteria rid Hrid)
      as (q' & Hq' & _ & Hscore & Hqual & _).
    rewrite Hq in Hq'. injection Hq' as <-. split; [exact Hqual|].
    pose proof (timeline_points_range rfp criteria).
    pose proof (value_points_range rfp criteria).
    pose proof (location_points_range rfp criteria). lia.
  - unfold qualify_rfp_tool in Hq. rewrite Hrid in Hq. discriminate Hq.
Qed.

Lemma mapM_qualify_rfp_tool rfps criteria qualifications :
  mapM (fun rfp => qualify_rfp_tool rfp criteria) rfps = Ok qualifications →
  Forall (fun q => q_qualified q = (60 <=? q_score q) ∧ q_score q ≤ 100) qualifications.
Proof.
  intros Hall. apply mapM_Forall2 in Hall.
  induction Hall as [|rfp q rfps qs Hq _ IH]; constructor; [|exact IH].
  eapply qualify_rfp_tool_qualified, Hq.
Qed.

Section WithCollaborators.
Context `{Collaborators}.

(** X6. When the update of the discovery stage carries
    ["rfps_identified"], the step is [WAITING_USER] and the list holds
    between one and five RFP records in non-increasing order of
    [priority_score].  Each record carries its qualification, which says
    [qualified], and its [priority_score] is the qualification's score,
    between 60 and 100. *)
Theorem sales_agent_node_identifies_qualified_rfps :
  ∀ (state update : AgentState) (l : list Field),
    sales_agent_node state = Ok update →
    update !! "rfps_identified" = Some (FList l) →
    update !! "current_step" = Some (FStr WorkflowStep.WAITING_USER) ∧
    ∃ top : list Rfp,
      l = FRfp <$> top ∧
      (1 ≤ length top ≤ 5)%nat ∧
      StronglySorted
        (fun a b => default 0 (r_priority_score b) ≤ default 0 (r_priority_score a))
        top ∧
      Forall
        (fun r =>
           ∃ q : Qualification,
             r_qualification r = Some q ∧
             r_rfp_id r = Some (q_rfp_id q) ∧
             q_qualified q = true ∧
             r_priority_score r = Some (q_score q) ∧
             60 ≤ q_score q ≤ 100)
        top.
Proof.
  intros state update l. unfold sales_agent_node.
  destruct get_shared_llm as [llm|e]; [|discriminate].
  cbn [mbind result_bind bind mret result_ret].
  intros [= <-].
  destruct (scan_rfps_tool sales_keywords 90) as [[|rfp scanned]|e];
    cbn [mbind result_bind bind mret result_ret try_except]; try discriminate.
  destruct (mapM _ (rfp :: scanned)) as [qualifications|e] eqn:Hquals;
    cbn [mbind result_bind bind mret result_ret try_except]; try discriminate.
  destruct (prioritize_rfps_tool _ qualifications 5) as [[|r top]|e] eqn:Htop;
    cbn [mbind result_bind bind mret result_ret try_except]; try discriminate.
  destruct (messages_of state) as [history|e];
    cbn [mbind result_bind bind mret result_ret try_except]; try discriminate.
  destruct (llm _) as [reply|e];
    cbn [mbind result_bind bind mret result_ret try_except]; try discriminate.
  intros Hl. split; [reflexivity|].
  match type of Hl with
  | ?m !! _ = _ =>
      assert (m !! "rfps_identified" = Some (FList (FRfp <$> r :: top))) as Hkey
        by reflexivity
  end.
  rewrite Hkey in Hl. injection Hl as <-.
  exists (r :: top). split; [reflexivity|].
  pose proof (mapM_qualify_rfp_tool _ _ _ Hquals) as Hqualified.
  destruct (prioritize_rfps_tool_scored _ _ _ _ Htop) as (scored & _ & Hslice).
  split; [|split].
  - split; [cbn; lia|].
    rewrite Hslice, slice_to_length by lia. lia.
  - eapply prioritize_rfps_tool_sorted, Htop.
  - apply Forall_forall. intros r' Hr'.
    destruct (prioritize_rfps_tool_elem _ _ _ _ r' Htop Hr')
      as (rfp' & qual & _ & Hmem & Hid & _ & Hq & ->).
    exists qual. cbn [set_priority r_qualification r_rfp_id r_priority_score].
    rewrite Forall_forall in Hqualified. destruct (Hqualified qual Hmem) as [Hflag Hmax].
    repeat split; try assumption.
    rewrite Hq in Hflag. symmetry in Hflag. apply Z.leb_le in Hflag. exact Hflag.
Qed.

(** X7. [get_shared_llm()] is called before the [try] block of both
    stages: when it raises (no API key), the stage raises the same
    exception instead of returning an update with step [ERROR], and a
    run of the engine that reaches the stage fails there with the
    state as it was. *)
Theorem stages_raise_without_llm_client :
  ∀ (e : exn) (state : AgentState),
    get_shared_llm = Raise e →
    sales_agent_node state = Raise e ∧
    technical_agent_node state = Raise e ∧
    ∀ limit : nat,
      run_from create_workflow (S limit) "sales_agent" state
        = (["sales_agent"], Failed e state) ∧
      run_from create_workflow (S limit) "technical_agent" state
        = (["technical_agent"], Failed e state).
Proof.
  intros e state Hllm.
  assert (Hsales : sales_agent_node state = Raise e)
    by (unfold sales_agent_node; rewrite Hllm; reflexivity).
  assert (Htech : technical_agent_node state = Raise e)
    by (unfold technical_agent_node; rewrite Hllm; reflexivity).
  split; [exact Hsales|]. split; [exact Htech|].
  intros limit. split.
  - cbn [run_from]. unfold step.
    assert (nodes create_workflow !! "sales_agent" = Some sales_agent_node) as ->
      by reflexivity.
    cbn [getitem mbind result_bind bind]. rewrite Hsales. reflexivity.
  - cbn [run_from]. unfold step.
    assert (nodes create_workflow !! "technical_agent" = Some technical_agent_node) as ->
      by reflexivity.
    cbn [getitem mbind result_bind bind]. rewrite Htech. reflexivity.
Qed.

End WithCollaborators.
End DiscoveryFacts.

(** ** The scan *)

Module SalesScanFacts.
Import SalesTools SalesScan.

Section WithClock.
Context (load_mock_rfps : list Rfp).
Context (strptime : string → option Z).
Context (now : nat → Z).

Lemma day_positive : 0 < day.
Proof. reflexivity. Qed.

Lemma date_filter_Forall2 cutoff_date tick filtered_rfps :
  Forall2
    (fun r rfp =>
       ∃ (n : nat) (due_date : Z),
         r_due_date rfp ≫= strptime = Some due_date ∧
         due_date ≤ cutoff_date ∧
         r = set_days_remaining
               (Z.max (timedelta_days_of due_date (now n)) 0) rfp)
    (date_filter strptime now cutoff_date tick filtered_rfps)
    (filter (fun rfp => due_by strptime cutoff_date rfp = true) filtered_rfps).
Proof.
  revert tick. induction filtered_rfps as [|rfp rest IH]; intros tick.
  - constructor.
  - cbn [date_filter]. rewrite filter_cons.
    destruct (decide (due_by strptime cutoff_date rfp = true)) as [Hd|Hd];
      unfold due_by in Hd;
      destruct (r_due_date rfp ≫= strptime) as [due_date|] eqn:Hdue;
      try discriminate Hd; try apply IH.
    + rewrite Hd. constructor; [|apply IH].
      exists tick, due_date. apply Z.leb_le in Hd. repeat split; assumption.
    + apply not_true_is_false in Hd. rewrite Hd. apply IH.
Qed.

Lemma scan_rfps_tool_Forall2 keywords days_ahead found :
  scan_rfps_tool load_mock_rfps strptime now keywords days_ahead = Ok found →
  Forall2
    (fun r rfp =>
       ∃ (n : nat) (due_date : Z),
         r_due_date rfp ≫= strptime = Some due_date ∧
         due_date ≤ now 0 + days_ahead * day ∧
         r = set_days_remaining
               (Z.max (timedelta_days_of due_date (now n)) 0) rfp)
    found
    (filter
       (fun rfp =>
          matches (lower <$> keywords) rfp = true ∧
          due_by strptime (now 0 + days_ahead * day) rfp = true)
       load_mock_rfps).
Proof.
  unfold scan_rfps_tool.
  destruct load_mock_rfps as [|rfp0 rest] eqn:Hmock.
  { intros [= <-]. constructor. }
  rewrite <- Hmock. clear Hmock rfp0 rest.
  unfold timedelta_days. destruct (_ && _); [|discriminate].
  cbn [mbind result_bind bind]. unfold datetime_add.
  destruct (_ && _); [|discriminate].
  cbn [mbind result_bind bind mret result_ret]. intros [= <-].
  assert (Hswap :
    filter
      (fun rfp =>
         matches (lower <$> keywords) rfp = true ∧
         due_by strptime (now 0 + days_ahead * day) rfp = true)
      load_mock_rfps =
    filter (fun rfp => due_by strptime (now 0 + days_ahead * day) rfp = true)
      (filter (fun rfp => matches (lower <$> keywords) rfp = true) load_mock_rfps)).
  { rewrite list_filter_filter. apply list_filter_iff. intros rfp. tauto. }
  rewrite Hswap. apply date_filter_Forall2.
Qed.

Lemma timedelta_days_of_le a b n : a ≤ b + n * day → timedelta_days_of a b ≤ n.
Proof.
  intros Hle. unfold timedelta_days_of.
  apply Z.div_le_upper_bound; [apply day_positive|].
  pose proof day_positive. nia.
Qed.

(** X8. Every record that [scan_rfps_tool] returns is a record of the
    data file that matched a keyword and whose due date parsed, with
    ["days_remaining"] set; when the clock does not run backwards
    during the scan, ["days_remaining"] lies between 0 and [days_ahead]
    (and is 0 for a negative [days_ahead]). *)
Theorem scan_rfps_tool_days_remaining_within_window :
  ∀ (keywords : list string) (days_ahead : Z) (found : list Rfp),
    (∀ n, now 0 ≤ now n) →
    scan_rfps_tool load_mock_rfps strptime now keywords days_ahead = Ok found →
    Forall
      (fun r =>
         ∃ (rfp : Rfp) (d : Z),
           rfp ∈ load_mock_rfps ∧
           matches (lower <$> keywords) rfp = true ∧
           is_Some (r_due_date rfp ≫= strptime) ∧
           r = set_days_remaining d rfp ∧
           r_days_remaining r = Some d ∧
           0 ≤ d ≤ Z.max days_ahead 0)
      found.
Proof.
  intros keywords days_ahead found Hclock Hscan.
  pose proof (scan_rfps_tool_Forall2 keywords days_ahead found Hscan) as Hall.
  apply Forall_forall. intros r Hr.
  destruct (list_elem_of_lookup_1 _ _ Hr) as [i Hi].
  destruct (Forall2_lookup_l _ _ _ _ _ Hall Hi)
    as (rfp & Hrfp & n & due_date & Hdue & Hle & ->).
  apply list_elem_of_lookup_2, list_elem_of_filter in Hrfp.
  destruct Hrfp as [[Hmatch _] Hmem].
  exists rfp, (Z.max (timedelta_days_of due_date (now n)) 0).
  split; [exact Hmem|]. split; [exact Hmatch|].
  split; [rewrite Hdue; eexists; reflexivity|].
  split; [reflexivity|]. split; [reflexivity|].
  assert (timedelta_days_of due_date (now n) ≤ days_ahead).
  { apply timedelta_days_of_le. specialize (Hclock n). lia. }
  lia.
Qed.

(** X9. [scan_rfps_tool] keeps the order of the data file and returns,
    with ["days_remaining"] set, exactly the records that match a
    keyword and whose due date parses and is not after the cutoff
    [now + days_ahead].  The due date has no lower bound: a matching
    record that was already due when the scan started is returned, with
    ["days_remaining"] 0.  With no keyword, nothing is returned. *)
Theorem scan_rfps_tool_returns_overdue_records :
  ∀ (keywords : list string) (days_ahead : Z) (found : list Rfp),
    scan_rfps_tool load_mock_rfps strptime now keywords days_ahead = Ok found →
    Forall2
      (fun r rfp => ∃ d, r = set_days_remaining d rfp)
      found
      (filter
         (fun rfp =>
            matches (lower <$> keywords) rfp = true ∧
            due_by strptime (now 0 + days_ahead * day) rfp = true)
         load_mock_rfps) ∧
    (∀ (rfp : Rfp) (due_date : Z),
       rfp ∈ load_mock_rfps →
       matches (lower <$> keywords) rfp = true →
       r_due_date rfp ≫= strptime = Some due_date →
       0 ≤ days_ahead →
       (∀ n, due_date ≤ now n) →
       set_days_remaining 0 rfp ∈ found) ∧
    (keywords = [] → found = []).
Proof.
  intros keywords days_ahead found Hscan.
  pose proof (scan_rfps_tool_Forall2 keywords days_ahead found Hscan) as Hall.
  split; [|split].
  - eapply Forall2_impl; [exact Hall|].
    intros r rfp (n & due_date & _ & _ & ->). eexists. reflexivity.
  - intros rfp due_date Hmem Hmatch Hdue Hdays Hpast.
    assert (Hkept : rfp ∈ filter
              (fun rfp =>
                 matches (lower <$> keywords) rfp = true ∧
                 due_by strptime (now 0 + days_ahead * day) rfp = true)
              load_mock_rfps).
    { apply list_elem_of_filter. split; [|exact Hmem]. split; [exact Hmatch|].
      unfold due_by. rewrite Hdue. apply Z.leb_le.
      specialize (Hpast 0%nat). pose proof day_positive. nia. }
    destruct (list_elem_of_lookup_1 _ _ Hkept) as [i Hi].
    destruct (Forall2_lookup_r _ _ _ _ _ Hall Hi)
      as (r & Hr & n & due_date' & Hdue' & _ & ->).
    rewrite Hdue in Hdue'. injection Hdue' as <-.
    apply list_elem_of_lookup_2 in Hr.
    assert (timedelta_days_of due_date (now n) ≤ 0) as Hzero.
    { apply timedelta_days_of_le. specialize (Hpast n). lia. }
    rewrite Z.max_r in Hr by exact Hzero. exact Hr.
  - intros ->. cbn [fmap list_fmap matches existsb] in Hall.
    rewrite (list_filter_iff _ (fun _ => False)) in Hall
      by (intros rfp; split; [intros [? _]; discriminate | tauto]).
    assert (∀ l : list Rfp, filter (fun _ : Rfp => False) l = []) as Hnil.
    { intros l. induction l as [|x l IH]; [reflexivity|].
      rewrite filter_cons, decide_False by tauto. exact IH. }
    rewrite Hnil in Hall. inversion Hall. reflexivity.
Qed.

End WithClock.
End SalesScanFacts.

(** ** Normalised values *)

Module NormalizeFacts.
Import TechTools.

Lemma lower_plain s :
  Forall (fun c => is_upper c = false) (list_ascii_of_string s) → lower s = s.
Proof.
  induction s as [|c s IH]; cbn; intros Hall; [reflexivity|].
  apply Forall_cons in Hall. destruct Hall as [Hc Hs].
  unfold lower_char. rewrite Hc, (IH Hs). reflexivity.
Qed.

Lemma lstrip_plain s :
  Forall (fun c => is_space c = false) (list_ascii_of_string s) → lstrip s = s.
Proof.
  destruct s as [|c s]; cbn; intros Hall; [reflexivity|].
  apply Forall_cons in Hall. destruct Hall as [Hc _]. rewrite Hc. reflexivity.
Qed.

Lemma rev_string_involutive s : rev_string (rev_string s) = s.
Proof.
  unfold rev_string.
  rewrite list_ascii_of_string_of_list_ascii, rev_involutive.
  apply string_of_list_ascii_of_string.
Qed.

Lemma strip_plain s :
  Forall (fun c => is_space c = false) (list_ascii_of_string s) → strip s = s.
Proof.
  intros Hall. unfold strip. rewrite (lstrip_plain s Hall).
  rewrite lstrip_plain; [apply rev_string_involutive|].
  unfold rev_string. rewrite list_ascii_of_string_of_list_ascii.
  apply Forall_rev, Hall.
Qed.

Lemma string_of_uint_plain d :
  Forall (fun c => is_space c = false ∧ is_upper c = false)
    (list_ascii_of_string (NilEmpty.string_of_uint d)).
Proof.
  induction d; cbn; constructor; try assumption; split; reflexivity.
Qed.

Lemma str_of_Z_plain z :
  Forall (fun c => is_space c = false ∧ is_upper c = false)
    (list_ascii_of_string (str_of_Z z)).
Proof.
  unfold str_of_Z, NilZero.string_of_int.
  destruct (Z.to_int z) as [d|d].
  - unfold NilZero.string_of_uint. destruct d;
      try apply string_of_uint_plain.
    cbn. repeat constructor.
  - cbn. constructor; [split; reflexivity|].
    unfold NilZero.string_of_uint. destruct d;
      try apply string_of_uint_plain.
    cbn. repeat constructor.
Qed.

Lemma normalize_value_str_of_Z z :
  normalize_value (VStr (str_of_Z z)) = Some (str_of_Z z).
Proof.
  pose proof (str_of_Z_plain z) as Hplain. cbn [normalize_value].
  rewrite strip_plain, lower_plain; [reflexivity| |].
  - eapply Forall_impl; [exact Hplain|]. intros c [_ Hc]. exact Hc.
  - eapply Forall_impl; [exact Hplain|]. intros c [Hc _]. exact Hc.
Qed.

Lemma truthy_normalize_value v : truthy v = true → is_Some (normalize_value v).
Proof. destruct v; cbn; intros Ht; try discriminate; eexists; reflexivity. Qed.

Lemma is_match_product_None req : is_match req VNone = false.
Proof.
  unfold is_match. destruct (truthy req) eqn:Ht; [|reflexivity].
  destruct (truthy_normalize_value req Ht) as [n Hn].
  rewrite Hn. cbn [normalize_value]. apply bool_decide_eq_false. discriminate.
Qed.

(** X10. A requirement that Python takes for false ([None], [False], 0
    or the empty string) matches no product value, not even an equal
    one, and no requirement matches a product value [None].  A non-zero
    number matches the same number and also the string of its decimal
    digits, since both sides are compared as normalised strings. *)
Theorem is_match_falsy_requirement_never_matches :
  ∀ (req spec : Value),
    (truthy req = false → is_match req spec = false) ∧
    is_match (VInt 0) (VInt 0) = false ∧
    is_match (VStr "") (VStr "") = false ∧
    is_match req VNone = false ∧
    (∀ n : Z, n ≠ 0 →
       is_match (VInt n) (VInt n) = true ∧
       is_match (VInt n) (VStr (str_of_Z n)) = true).
Proof.
  intros req spec. split; [|split; [|split; [|split]]].
  - intros Hfalsy. unfold is_match. rewrite Hfalsy. reflexivity.
  - reflexivity.
  - reflexivity.
  - apply is_match_product_None.
  - intros n Hn.
    assert (truthy (VInt n) = true) as Ht.
    { cbn. apply negb_true_iff, Z.eqb_neq, Hn. }
    unfold is_match. rewrite Ht. split.
    + apply bool_decide_eq_true. reflexivity.
    + apply bool_decide_eq_true. rewrite normalize_value_str_of_Z. reflexivity.
Qed.

End NormalizeFacts.

(** ** Scoring a product *)

Module ScoringFacts.
Import TechTools PyFacts RankingFacts TechToolsFacts NormalizeFacts.

Lemma score_fields_matched specs requirements fields acc field :
  t_matched (foldl (score_field specs requirements) acc fields) !! field =
    if decide (field ∈ fields ∧
               is_match (get requirements field)
                 (derive_product_field specs field) = true)
    then Some (derive_product_field specs field)
    else t_matched acc !! field.
Proof.
  revert acc. induction fields as [|f fields IH]; intros acc; cbn [foldl].
  - rewrite decide_False; [reflexivity|].
    intros [Hin _]. apply elem_of_nil in Hin. exact Hin.
  - rewrite IH. cbn [score_field t_matched].
    destruct (decide (field ∈ fields ∧ _)) as [[Hin Hm]|Hno].
    + rewrite decide_True; [reflexivity|].
      split; [apply elem_of_cons; right; exact Hin | exact Hm].
    + destruct (decide (field = f)) as [->|Hne].
      * destruct (is_match (get requirements f) (derive_product_field specs f)) eqn:Hm.
        -- rewrite lookup_insert_eq, decide_True; [reflexivity|].
           split; [apply elem_of_cons; left; reflexivity | reflexivity].
        -- rewrite decide_False; [reflexivity|]. intros [_ Habs]. discriminate Habs.
      * assert (Hsame :
          (if is_match (get requirements f) (derive_product_field specs f)
           then <[f := derive_product_field specs f]> (t_matched acc)
           else t_matched acc) !! field = t_matched acc !! field).
        { destruct (is_match (get requirements f) (derive_product_field specs f));
            [apply lookup_insert_ne; congruence | reflexivity]. }
        rewrite Hsame. rewrite decide_False; [reflexivity|].
        intros [Hin Hm]. apply elem_of_cons in Hin. destruct Hin as [Heq|Hin].
        -- exact (Hne Heq).
        -- apply Hno. split; assumption.
Qed.

Lemma score_fields_size specs requirements fields acc :
  NoDup fields →
  (∀ f, f ∈ fields → t_matched acc !! f = None) →
  size (t_matched (foldl (score_field specs requirements) acc fields)) =
    (size (t_matched acc) +
     length (filter
       (fun field =>
          is_match (get requirements field) (derive_product_field specs field) = true)
       fields))%nat.
Proof.
  intros Hnodup. revert acc.
  induction Hnodup as [|f fields Hf Hnodup IH]; intros acc Hfresh; cbn [foldl].
  - cbn. lia.
  - rewrite IH.
    + rewrite filter_cons. cbn [score_field t_matched].
      destruct (is_match (get requirements f) (derive_product_field specs f)) eqn:Hm.
      * rewrite decide_True by reflexivity.
        rewrite map_size_insert_None; [cbn [length]; lia|].
        apply Hfresh, elem_of_cons. left. reflexivity.
      * rewrite decide_False by discriminate. reflexivity.
    + intros g Hg. cbn [score_field t_matched].
      assert (g ≠ f) as Hne by (intros ->; exact (Hf Hg)).
      destruct (is_match (get requirements f) (derive_product_field specs f)).
      * rewrite lookup_insert_ne by congruence.
        apply Hfresh, elem_of_cons. right. exact Hg.
      * apply Hfresh, elem_of_cons. right. exact Hg.
Qed.

Lemma SPEC_FIELDS_NoDup : NoDup SPEC_FIELDS.
Proof. apply (bool_decide_unpack (NoDup SPEC_FIELDS)). vm_compute. exact I. Qed.

Lemma score_catalog_product_size product requirements :
  Z.of_nat (size (s_matched_fields (score_catalog_product product requirements))) =
    match_count (default ∅ (p_specifications product)) requirements.
Proof.
  unfold score_catalog_product, match_count. cbn [s_matched_fields].
  rewrite score_fields_size; [cbn [t_matched]; rewrite map_size_empty; reflexivity | |].
  - apply SPEC_FIELDS_NoDup.
  - intros f _. apply lookup_empty.
Qed.

Lemma derive_product_field_empty field : derive_product_field ∅ field = VNone.
Proof.
  unfold derive_product_field. rewrite lookup_empty.
  destruct (String.eqb field "cable_type"); [reflexivity|].
  destruct (String.eqb field "application"); reflexivity.
Qed.

(** X11. In the dict that [score_catalog_product] returns, the
    ["comparison"] list has one entry for each of the eight fields, in the
    order of [SPEC_FIELDS], holding the requirement and the value derived
    from the product; ["matched_fields"] holds exactly the fields whose
    entry says [match], each with the product's value; and
    ["match_score"] is 12.5 times the number of matched fields.  A
    product without ["specifications"] matches nothing and scores 0. *)
Theorem score_catalog_product_matched_fields_agree :
  ∀ (product : Product) (requirements : gmap string Value),
    let s := score_catalog_product product requirements in
    let specs := default ∅ (p_specifications product) in
    cmp_field <$> s_comparison s = SPEC_FIELDS ∧
    (∀ c : Comparison,
       c ∈ s_comparison s →
       cmp_requirement c = get requirements (cmp_field c) ∧
       cmp_product c = derive_product_field specs (cmp_field c) ∧
       s_matched_fields s !! cmp_field c =
         (if cmp_match c then Some (cmp_product c) else None)) ∧
    (∀ field : string, field ∉ SPEC_FIELDS → s_matched_fields s !! field = None) ∧
    (s_match_score s == (100 * Z.of_nat (size (s_matched_fields s)) # 8))%Q ∧
    (p_specifications product = None →
     (s_match_score s == 0)%Q ∧ s_matched_fields s = ∅).
Proof.
  intros product requirements s specs.
  assert (Hlookup : ∀ field,
    s_matched_fields s !! field =
      if decide (field ∈ SPEC_FIELDS ∧
                 is_match (get requirements field)
                   (derive_product_field specs field) = true)
      then Some (derive_product_field specs field) else None).
  { intros field. unfold s, score_catalog_product. cbn [s_matched_fields].
    rewrite score_fields_matched. cbn [t_matched]. rewrite lookup_empty. reflexivity. }
  assert (Hscore : (s_match_score s ==
            (100 * Z.of_nat (size (s_matched_fields s)) # 8))%Q).
  { unfold s. rewrite score_catalog_product_size, score_catalog_product_score.
    apply match_percent_exact, match_count_range. }
  split; [|split; [|split; [|split]]].
  - unfold s. rewrite score_catalog_product_comparison.
    rewrite <- list_fmap_compose. apply list_fmap_id.
  - intros c Hc. unfold s in Hc. rewrite score_catalog_product_comparison in Hc.
    apply list_elem_of_fmap in Hc. destruct Hc as (field & -> & Hfield).
    cbn [compare_field cmp_field cmp_requirement cmp_product cmp_match].
    split; [reflexivity|]. split; [reflexivity|].
    rewrite Hlookup. fold specs.
    destruct (is_match (get requirements field) (derive_product_field specs field)).
    + rewrite decide_True; [reflexivity | split; [exact Hfield | reflexivity]].
    + rewrite decide_False; [reflexivity | intros [_ Habs]; discriminate Habs].
  - intros field Hfield. rewrite Hlookup.
    rewrite decide_False; [reflexivity | intros [Hin _]; exact (Hfield Hin)].
  - exact Hscore.
  - intros Hnone.
    assert (s_matched_fields s = ∅) as Hempty.
    { apply map_eq. intros field. rewrite Hlookup, lookup_empty.
      rewrite decide_False; [reflexivity|].
      intros [_ Hm]. unfold specs in Hm. rewrite Hnone in Hm. cbn [default] in Hm.
      rewrite derive_product_field_empty, is_match_product_None in Hm.
      discriminate Hm. }
    split; [|exact Hempty].
    rewrite Hscore, Hempty, map_size_empty. reflexivity.
Qed.

Lemma match_count_two specs requirements f g :
  f ∈ SPEC_FIELDS → g ∈ SPEC_FIELDS → f ≠ g →
  is_match (get requirements f) (derive_product_field specs f) = true →
  is_match (get requirements g) (derive_product_field specs g) = true →
  2 ≤ match_count specs requirements.
Proof.
  intros Hf Hg Hne Hmf Hmg. unfold match_count.
  assert ([f; g] ⊆+
            filter
              (fun field =>
                 is_match (get requirements field)
                   (derive_product_field specs field) = true)
              SPEC_FIELDS) as Hsub.
  { apply NoDup_submseteq.
    - repeat constructor; [|apply not_elem_of_nil].
      rewrite list_elem_of_singleton. exact Hne.
    - intros x Hx. apply list_elem_of_filter.
      apply elem_of_cons in Hx. destruct Hx as [->|Hx]; [split; assumption|].
      apply list_elem_of_singleton in Hx. subst x. split; assumption. }
  apply submseteq_length in Hsub. cbn [length] in Hsub. lia.
Qed.

(** X12. When the requirements name the same value under
    ["cable_type"] and under ["insulation"] and the product has no
    ["cable_type"] of its own, the two fields are compared with the same
    product value, the product's ["insulation"]: they match together or
    not at all, and a product that matches on the insulation scores at
    least 25. *)
Theorem insulation_match_counts_for_cable_type :
  ∀ (product : Product) (requirements : gmap string Value),
    let specs := default ∅ (p_specifications product) in
    get requirements "cable_type" = get requirements "insulation" →
    specs !! "cable_type" = None →
    derive_product_field specs "cable_type" = derive_product_field specs "insulation" ∧
    is_match (get requirements "cable_type") (derive_product_field specs "cable_type")
      = is_match (get requirements "insulation")
          (derive_product_field specs "insulation") ∧
    (is_match (get requirements "insulation")
       (derive_product_field specs "insulation") = true →
     (25 <= s_match_score (score_catalog_product product requirements))%Q).
Proof.
  intros product requirements specs Hreq Hmissing.
  assert (Hderive : derive_product_field specs "cable_type"
                    = derive_product_field specs "insulation").
  { unfold derive_product_field at 1. rewrite Hmissing. cbn [String.eqb Ascii.eqb].
    unfold derive_product_field, get.
    destruct (specs !! "insulation"); reflexivity. }
  split; [exact Hderive|]. split; [rewrite Hreq, Hderive; reflexivity|].
  intros Hmatch.
  assert (2 ≤ match_count specs requirements) as Htwo.
  { apply (match_count_two specs requirements "insulation" "cable_type").
    - unfold SPEC_FIELDS. set_solver.
    - unfold SPEC_FIELDS. set_solver.
    - discriminate.
    - exact Hmatch.
    - rewrite Hreq, Hderive. exact Hmatch. }
  rewrite score_catalog_product_score. fold specs.
  pose proof (match_count_range specs requirements) as Hrange.
  destruct (match_percent_exact (match_count specs requirements) Hrange) as [Hexact _].
  rewrite Hexact. unfold Qle. cbn [Qnum Qden]. lia.
Qed.

(** X13. [match_oem_products] returns the head of a stable ranking of
    the scored catalog: every product it leaves out scores no higher
    than any it returns, and products with the same score come in the
    order of the catalog.  This holds for every [top_n]. *)
Theorem match_oem_products_keeps_the_best :
  ∀ (catalog : list Product) (requirements : gmap string Value) (top_n : Z),
    let scored := map (fun product => score_catalog_product product requirements) catalog in
    let ranked := match_oem_products catalog requirements top_n in
    (∃ rest,
       ranked ++ rest ≡ₚ scored ∧
       ∀ a b, a ∈ ranked → b ∈ rest → (s_match_score b <= s_match_score a)%Q) ∧
    (∀ score : Q,
       filter (fun s => (s_match_score s == score)%Q) ranked
         `prefix_of` filter (fun s => (s_match_score s == score)%Q) scored).
Proof.
  intros catalog requirements top_n scored ranked. split.
  - destruct (slice_to_sort_desc_best score_le top_n scored
                score_le_total score_le_trans) as (rest & Hperm & Hbest).
    exists rest. split; [exact Hperm|].
    intros a b Ha Hb. apply Qle_bool_iff. exact (Hbest a b Ha Hb).
  - intros score. apply slice_to_sort_desc_stable.
    intros a b Ha Hb. unfold score_le. apply Qle_bool_iff.
    rewrite Ha, Hb. apply Qle_refl.
Qed.

(** *** The comparison table *)

Lemma py_or_derive_product_field specs field :
  py_or (get specs field) (derive_product_field specs field)
    = derive_product_field specs field.
Proof.
  unfold py_or, get, derive_product_field.
  destruct (specs !! field) as [v|]; cbn.
  - destruct (truthy v); reflexivity.
  - reflexivity.
Qed.

Lemma row_set_fresh k v row :
  k ∉ row.*1 → row_set k v row = row ++ [(k, v)].
Proof.
  induction row as [|[k' v'] row IH]; cbn [row_set]; intros Hfresh; [reflexivity|].
  cbn in Hfresh. apply not_elem_of_cons in Hfresh. destruct Hfresh as [Hne Hfresh].
  rewrite bool_decide_eq_false_2 by congruence.
  rewrite (IH Hfresh). reflexivity.
Qed.

Lemma comparison_row_columns field (recommendations : list Scored) row :
  NoDup (s_sku <$> recommendations) →
  (∀ k, k ∈ row.*1 → k ∉ s_sku <$> recommendations) →
  foldl
    (fun row product =>
       row_set (s_sku product)
         (py_or (get (s_specifications product) field)
                (derive_product_field (s_specifications product) field))
         row)
    row recommendations =
  row ++
    map (fun product =>
           (s_sku product, derive_product_field (s_specifications product) field))
      recommendations.
Proof.
  revert row. induction recommendations as [|p recs IH]; intros row Hnodup Hrow.
  - cbn. rewrite app_nil_r. reflexivity.
  - cbn [foldl map]. cbn [fmap list_fmap] in Hnodup, Hrow.
    apply NoDup_cons in Hnodup. destruct Hnodup as [Hp Hnodup].
    rewrite py_or_derive_product_field, row_set_fresh.
    + rewrite IH; [rewrite <- app_assoc; reflexivity | exact Hnodup |].
      intros k Hk. rewrite fmap_app in Hk. apply elem_of_app in Hk.
      destruct Hk as [Hk|Hk].
      * specialize (Hrow k Hk). intros Hin. apply Hrow, elem_of_cons. right. exact Hin.
      * cbn in Hk. apply list_elem_of_singleton in Hk. subst k. exact Hp.
    + intros Hin. apply (Hrow _ Hin), elem_of_cons. left. reflexivity.
Qed.

(** X14. [build_comparison_table] returns one row for each of the
    eight fields, in the order of [SPEC_FIELDS].  The [or] in its loop
    changes nothing: the cell of a product is the value that
    [derive_product_field] gives.  For products with pairwise distinct
    string [sku]s, none of them ["field"], a row is the ["field"] entry
    followed by one cell per product, in the order of the
    recommendations. *)
Theorem build_comparison_table_one_column_per_sku :
  ∀ recommendations : list Scored,
    length (build_comparison_table recommendations) = 8%nat ∧
    (∀ specs field,
       py_or (get specs field) (derive_product_field specs field)
         = derive_product_field specs field) ∧
    (NoDup (s_sku <$> recommendations) →
     Forall (fun p => ∃ sku, s_sku p = VStr sku ∧ sku ≠ "field") recommendations →
     build_comparison_table recommendations =
       map
         (fun field =>
            (VStr "field", VStr field) ::
            map (fun p => (s_sku p, derive_product_field (s_specifications p) field))
              recommendations)
         SPEC_FIELDS).
Proof.
  intros recommendations. split; [|split].
  - unfold build_comparison_table. rewrite length_map. reflexivity.
  - apply py_or_derive_product_field.
  - intros Hnodup Hskus. unfold build_comparison_table.
    apply map_ext. intros field.
    rewrite comparison_row_columns; [reflexivity | exact Hnodup |].
    intros k Hk. cbn in Hk. apply list_elem_of_singleton in Hk. subst k.
    intros Hin. apply list_elem_of_fmap in Hin. destruct Hin as (p & Hp & Hmem).
    rewrite Forall_forall in Hskus. destruct (Hskus p Hmem) as (sku & Hsku & Hne).
    rewrite Hsku in Hp. injection Hp as Hp. congruence.
Qed.

End ScoringFacts.

(** ** Requirements from free text *)

Module RequirementsFacts.
Import TechTools Re Requirements.

Lemma prefix_trans p q t :
  String.prefix p q = true → String.prefix q t = true → String.prefix p t = true.
Proof.
  revert q t. induction p as [|c p IH]; intros q t Hpq Hqt;
    [destruct t; reflexivity|].
  destruct q as [|d q]; [discriminate Hpq|].
  destruct t as [|e t]; [discriminate Hqt|].
  cbn in *.
  destruct (ascii_dec c d) as [->|]; [|discriminate Hpq].
  destruct (ascii_dec d e) as [->|]; [|discriminate Hqt].
  eapply IH; eassumption.
Qed.

(** A text that contains [q] contains every prefix of [q]. *)
Lemma contains_prefix p q t :
  String.prefix p q = true → contains q t = true → contains p t = true.
Proof.
  intros Hpq. induction t as [|c t IH]; cbn [contains]; intros Hq.
  - apply orb_true_iff in Hq. destruct Hq as [Hq|Hq]; [|discriminate Hq].
    rewrite (prefix_trans p q "" Hpq Hq). reflexivity.
  - apply orb_true_iff in Hq. destruct Hq as [Hq|Hq].
    + rewrite (prefix_trans p q _ Hpq Hq). reflexivity.
    + rewrite (IH Hq). apply orb_true_r.
Qed.

Lemma lower_char_idempotent c : lower_char (lower_char c) = lower_char c.
Proof. destruct c as [[] [] [] [] [] [] [] []]; reflexivity. Qed.

Lemma lower_idempotent s : lower (lower s) = lower s.
Proof.
  induction s as [|c s IH]; cbn; [reflexivity|].
  rewrite lower_char_idempotent, IH. reflexivity.
Qed.

Lemma is_digit_lower_char c : is_digit (lower_char c) = is_digit c.
Proof. destruct c as [[] [] [] [] [] [] [] []]; reflexivity. Qed.

Lemma lower_no_digit s :
  Forall (fun c => is_digit c = false) (list_ascii_of_string s) →
  Forall (fun c => is_digit c = false) (list_ascii_of_string (lower s)).
Proof.
  induction s as [|c s IH]; cbn; intros Hall; [constructor|].
  apply Forall_cons in Hall. destruct Hall as [Hc Hs].
  constructor; [rewrite is_digit_lower_char; exact Hc | apply IH, Hs].
Qed.

(** A pattern that starts with [\d] finds nothing in a text without
    digits. *)
Lemma search_group1_no_digit (a b : regex) s :
  (∀ t (k : string → option string),
     ∃ k', match_here a t k = match_here digit t k') →
  Forall (fun c => is_digit c = false) (list_ascii_of_string s) →
  search_group1 a b s = None.
Proof.
  intros Hstart.
  assert (Hnone : ∀ t (k : string → option string),
            Forall (fun c => is_digit c = false) (list_ascii_of_string t) →
            match_here a t k = None).
  { intros t k Ht.
    assert (Hd : ∀ k' : string → option string, match_here digit t k' = None).
    { intros k'. destruct t as [|c t]; [reflexivity|]. cbn in *.
      apply Forall_cons in Ht. destruct Ht as [Hc _]. rewrite Hc. reflexivity. }
    destruct (Hstart t k) as [k' ->]. apply Hd. }
  induction s as [|c s IH]; intros Hall; cbn [search_group1]; unfold match_group1.
  - rewrite Hnone by exact Hall. reflexivity.
  - rewrite Hnone by exact Hall.
    apply IH. cbn in Hall. apply Forall_cons in Hall. apply Hall.
Qed.

Lemma Plus_digit_start t (k : string → option string) :
  ∃ k', match_here (Plus digit) t k = match_here digit t k'.
Proof. eexists. reflexivity. Qed.

Lemma number_start X t (k : string → option string) :
  ∃ k', match_here (Cat (Plus digit) X) t k = match_here digit t k'.
Proof. eexists. reflexivity. Qed.

(** The eight values of the dict that [extract_requirements] builds. *)
Lemma requirements_lookups (v c s k i a ct ap : Value) :
  let r : gmap string Value :=
    list_to_map
      [ ("voltage_rating", v); ("conductor", c); ("size", s); ("cores", k);
        ("insulation", i); ("armour", a); ("cable_type", ct); ("application", ap) ] in
  get r "voltage_rating" = v ∧ get r "conductor" = c ∧ get r "size" = s ∧
  get r "cores" = k ∧ get r "insulation" = i ∧ get r "armour" = a ∧
  get r "cable_type" = ct ∧ get r "application" = ap ∧
  dom r = list_to_set SPEC_FIELDS.
Proof.
  intros r. repeat (split; [reflexivity|]).
  unfold r. rewrite dom_list_to_map_L. reflexivity.
Qed.

Ltac requirements text :=
  unfold extract_requirements; cbn zeta;
  match goal with
  | |- context [list_to_map
                  [ (_, ?v); (_, ?c); (_, ?s); (_, ?k);
                    (_, ?i); (_, ?a); (_, ?ct); (_, ?ap) ]] =>
      destruct (requirements_lookups v c s k i a ct ap)
        as (Hv & Hc & Hs & Hk & Hi & Ha & Hct & Hap & Hdom);
      cbn zeta in Hv, Hc, Hs, Hk, Hi, Ha, Hct, Hap, Hdom;
      rewrite ?Hv, ?Hc, ?Hs, ?Hk, ?Hi, ?Ha, ?Hct, ?Hap, ?Hdom;
      clear Hv Hc Hs Hk Hi Ha Hct Hap Hdom
  end.

(** X15. The dict that [extract_requirements] returns has exactly the
    eight keys of [SPEC_FIELDS], whatever the text.  Its ["cable_type"]
    is always its ["insulation"]; the conductor, the insulation, the
    armour and the application are [None] or one of the fixed names;
    and the result does not depend on the case of the letters. *)
Theorem extract_requirements_eight_fields :
  ∀ text : string,
    let r := extract_requirements text in
    dom r = list_to_set SPEC_FIELDS ∧
    get r "cable_type" = get r "insulation" ∧
    get r "conductor" ∈ [VNone; VStr "Copper"; VStr "Aluminum"] ∧
    get r "insulation" ∈ [VNone; VStr "XLPE"; VStr "PVC"; VStr "FR"] ∧
    get r "armour" ∈ [VNone; VStr "Steel Tape"; VStr "SWA"; VStr "GI Wire"] ∧
    get r "application" ∈ [VNone; VStr "Underground"; VStr "Overhead"] ∧
    extract_requirements (lower text) = r.
Proof.
  intros text r. subst r.
  split; [requirements text; reflexivity|].
  split.
  { requirements text.
    destruct (contains "xlpe" (lower text)); [reflexivity|].
    destruct (contains "pvc" (lower text)); [reflexivity|].
    destruct (_ || _); reflexivity. }
  split.
  { requirements text.
    destruct (contains "copper" (lower text)); [set_solver|].
    destruct (_ || _); set_solver. }
  split.
  { requirements text.
    destruct (contains "xlpe" (lower text)); [set_solver|].
    destruct (contains "pvc" (lower text)); [set_solver|].
    destruct (_ || _); set_solver. }
  split.
  { requirements text.
    destruct (_ || _); [|set_solver].
    destruct (contains "steel tape" (lower text)); [set_solver|].
    destruct (contains "swa" (lower text)); set_solver. }
  split.
  { requirements text.
    destruct (contains "underground" (lower text)); [set_solver|].
    destruct (contains "overhead" (lower text)); set_solver. }
  unfold extract_requirements. rewrite lower_idempotent. reflexivity.
Qed.

(** X16. Two of the tests of [extract_requirements] can never decide:
    a text that contains "fr-lsh" contains "fr", and one that contains
    "armoured" contains "armour".  So the insulation is ["FR"] exactly
    when the lowered text contains neither "xlpe" nor "pvc" but "fr"
    (anywhere, also inside a word) or "lszh"; and an armour is reported
    exactly when the text contains "armour" or "armored", "swa" alone
    giving none. *)
Theorem extract_requirements_redundant_tests :
  ∀ text : string,
    let t := lower text in
    let r := extract_requirements text in
    (contains "fr-lsh" t = true → contains "fr" t = true) ∧
    (contains "armoured" t = true → contains "armour" t = true) ∧
    (get r "insulation" = VStr "FR" ↔
       contains "xlpe" t = false ∧ contains "pvc" t = false ∧
       (contains "fr" t = true ∨ contains "lszh" t = true)) ∧
    (get r "armour" ≠ VNone ↔
       contains "armour" t = true ∨ contains "armored" t = true) ∧
    (get r "armour" = VStr "SWA" →
       contains "swa" t = true ∧
       (contains "armour" t = true ∨ contains "armored" t = true)).
Proof.
  intros text t r. subst r.
  assert (Hfr : contains "fr-lsh" t = true → contains "fr" t = true)
    by (apply contains_prefix; reflexivity).
  assert (Harm : contains "armoured" t = true → contains "armour" t = true)
    by (apply contains_prefix; reflexivity).
  split; [exact Hfr|]. split; [exact Harm|].
  split; [|split].
  - requirements text. fold t.
    destruct (contains "xlpe" t); [split; [discriminate | intros [? _]; discriminate]|].
    destruct (contains "pvc" t);
      [split; [discriminate | intros (_ & ? & _); discriminate]|].
    destruct (contains "fr" t) eqn:H1; cbn [orb].
    { split; [intros _; repeat split; left; reflexivity | reflexivity]. }
    destruct (contains "fr-lsh" t) eqn:H2; [specialize (Hfr eq_refl); discriminate|].
    cbn [orb].
    destruct (contains "lszh" t).
    + split; [intros _; repeat split; right; reflexivity | reflexivity].
    + split; [discriminate | intros (_ & _ & [?|?]); discriminate].
  - requirements text. fold t.
    destruct (contains "armour" t) eqn:H1; cbn [orb].
    { split; [intros _; left; reflexivity|]. intros _.
      destruct (contains "steel tape" t); [discriminate|].
      destruct (contains "swa" t); discriminate. }
    destruct (contains "armored" t) eqn:H2; cbn [orb].
    { split; [intros _; right; reflexivity|]. intros _.
      destruct (contains "steel tape" t); [discriminate|].
      destruct (contains "swa" t); discriminate. }
    destruct (contains "armoured" t) eqn:H3; [specialize (Harm eq_refl); discriminate|].
    split; [intros Habs; exfalso; apply Habs; reflexivity | intros [?|?]; discriminate].
  - requirements text. fold t.
    destruct (contains "armour" t) eqn:H1; cbn [orb].
    { destruct (contains "steel tape" t); [discriminate|].
      destruct (contains "swa" t); [|discriminate].
      intros _. split; [reflexivity | left; reflexivity]. }
    destruct (contains "armored" t) eqn:H2; cbn [orb].
    { destruct (contains "steel tape" t); [discriminate|].
      destruct (contains "swa" t); [|discriminate].
      intros _. split; [reflexivity | right; reflexivity]. }
    destruct (contains "armoured" t) eqn:H3; [specialize (Harm eq_refl); discriminate|].
    discriminate.
Qed.

(** X17. The three regular expressions of [extract_requirements] all
    start with [\d+]: from a text without a digit, no voltage and no
    size are extracted, and the number of cores comes from the words
    "single core" (1) and "three core" or "three-core" (3) alone. *)
Theorem extract_requirements_without_digits :
  ∀ text : string,
    Forall (fun c => is_digit c = false) (list_ascii_of_string text) →
    let t := lower text in
    let r := extract_requirements text in
    get r "voltage_rating" = VNone ∧
    get r "size" = VNone ∧
    get r "cores" =
      (if contains "single core" t then VInt 1
       else if contains "three core" t || contains "three-core" t then VInt 3
       else VNone).
Proof.
  intros text Hplain t r. subst r.
  pose proof (lower_no_digit text Hplain) as Hlower. fold t in Hlower.
  split; [|split]; requirements text; fold t.
  - rewrite search_group1_no_digit; [reflexivity | | exact Hlower].
    intros t' k. apply number_start.
  - rewrite search_group1_no_digit; [reflexivity | | exact Hlower].
    intros t' k. apply Plus_digit_start.
  - rewrite search_group1_no_digit; [reflexivity | | exact Hlower].
    intros t' k. apply Plus_digit_start.
Qed.

End RequirementsFacts.

(** ** The order of the stage calls *)

Module CallOrderFacts.
Import State Env Nodes Graph GraphFacts CallOrder.

Section WithCollaborators.
Context `{Collaborators}.

Lemma step_target node state target state' :
  step create_workflow node state = Ok (target, state') →
  target = END ∨ follows node target.
Proof.
  unfold step. intros Hstep.
  destruct (nodes create_workflow !! node) as [f|] eqn:Hf; [|discriminate].
  cbn [getitem mbind result_bind bind] in Hstep.
  destruct (f state) as [update|e]; [|discriminate].
  cbn [mbind result_bind bind] in Hstep.
  destruct (apply_update state update) as [merged|e]; [|discriminate].
  cbn [mbind result_bind bind] in Hstep.
  destruct (decide (node = "main_agent")) as [->|Hmain].
  { rewrite route_main_agent in Hstep. cbn in Hstep. injection Hstep as <- <-.
    unfold route_from_main, follows.
    destruct (field_eq_str _ NodeName.SALES_AGENT); [right; left; auto|].
    destruct (field_eq_str _ NodeName.TECHNICAL_AGENT); [right; left; auto|].
    left. reflexivity. }
  destruct (decide (node = "sales_agent")) as [->|Hsales].
  { rewrite route_sales_agent in Hstep. cbn in Hstep. injection Hstep as <- <-.
    left. reflexivity. }
  destruct (decide (node = "technical_agent")) as [->|Htech].
  { rewrite route_technical_agent in Hstep. cbn in Hstep. injection Hstep as <- <-.
    unfold route_from_technical, follows.
    destruct (field_eq_str _ NodeName.PRICING_AGENT); [right; right; left; auto|].
    left. reflexivity. }
  destruct (decide (node = "pricing_agent")) as [->|Hpricing].
  { rewrite route_pricing_agent in Hstep. cbn in Hstep. injection Hstep as <- <-.
    unfold route_from_pricing, follows.
    destruct (field_eq_str _ NodeName.MAIN_AGENT); [right; right; right; auto|].
    left. reflexivity. }
  rewrite route_unregistered in Hstep by assumption.
  cbn in Hstep. injection Hstep as <- <-. left. reflexivity.
Qed.

Lemma run_from_head limit node state :
  fst (run_from create_workflow limit node state) = [] ∨
  head (fst (run_from create_workflow limit node state)) = Some node.
Proof.
  destruct limit as [|limit]; cbn [run_from]; [left; reflexivity|].
  right. destruct (step create_workflow node state) as [[target state']|e];
    [|reflexivity].
  destruct (String.eqb target END); [reflexivity|].
  destruct (run_from create_workflow limit target state'). reflexivity.
Qed.

Lemma run_from_chain limit node state i a b :
  fst (run_from create_workflow limit node state) !! i = Some a →
  fst (run_from create_workflow limit node state) !! S i = Some b →
  follows a b.
Proof.
  revert node state i.
  induction limit as [|limit IH]; intros node state i; cbn [run_from].
  - cbn. discriminate.
  - destruct (step create_workflow node state) as [[target state']|e] eqn:Hstep;
      [|cbn; intros _; discriminate].
    destruct (String.eqb target END) eqn:Hend; [cbn; intros _; discriminate|].
    pose proof (run_from_head limit target state') as Hhead.
    specialize (IH target state').
    destruct (run_from create_workflow limit target state') as [calls outcome].
    cbn [fst] in *.
    destruct i as [|i].
    + cbn. intros [= <-] Hb.
      destruct Hhead as [->|Hhead]; [discriminate Hb|].
      destruct calls as [|c calls]; [discriminate Hb|].
      cbn in Hhead, Hb. injection Hhead as ->. injection Hb as <-.
      destruct (step_target node state target state' Hstep) as [->|Hfollows];
        [|exact Hfollows].
      rewrite String.eqb_refl in Hend. discriminate Hend.
    + cbn. apply IH.
Qed.

(** X18. In every run of the engine over the workflow graph, from any
    stage and state and under any recursion limit, each stage call is
    followed only along an edge of the graph: the main agent by the
    sales or the technical agent, the technical agent by the pricing
    agent, the pricing agent by the main agent.  Nothing follows the
    sales agent: when it is called, it is the last call of the run. *)
Theorem run_from_calls_follow_edges :
  ∀ (limit : nat) (node : string) (state : AgentState),
    let calls := fst (run_from create_workflow limit node state) in
    (∀ (i : nat) (a b : string),
       calls !! i = Some a → calls !! S i = Some b → follows a b) ∧
    (∀ i : nat, calls !! i = Some "sales_agent" → S i = length calls).
Proof.
  intros limit node state calls. split.
  - intros i a b. apply run_from_chain.
  - intros i Hi.
    destruct (calls !! S i) as [b|] eqn:Hnext.
    + pose proof (run_from_chain limit node state i _ b Hi Hnext) as Hfollows.
      destruct Hfollows as [[Ha _]|[[Ha _]|[Ha _]]]; discriminate Ha.
    + apply lookup_ge_None in Hnext. apply lookup_lt_Some in Hi. lia.
Qed.

End WithCollaborators.
End CallOrderFacts.

(** ** The last reply *)

Module ReplyFacts.
Import State.

Lemma first_ai_content_app l1 l2 :
  first_ai_content (l1 ++ l2) =
    match first_ai_content l1 with
    | Some c => Some c
    | None => first_ai_content l2
    end.
Proof.
  induction l1 as [|f l1 IH]; cbn [app first_ai_content]; [reflexivity|].
  destruct (is_ai_message f); [reflexivity | exact IH].
Qed.

Lemma first_ai_content_None l :
  Forall (fun f => is_ai_message f = None) l → first_ai_content l = None.
Proof.
  induction 1 as [|f l Hf _ IH]; cbn [first_ai_content]; [reflexivity|].
  rewrite Hf. exact IH.
Qed.

(** The reply read off a message list: the content of its last
    [AIMessage]. *)
Lemma last_ai_content before c after :
  Forall (fun f => is_ai_message f = None) after →
  first_ai_content (rev (before ++ FMsg (AIMessage c) :: after)) = Some c.
Proof.
  intros Hafter. rewrite rev_app_distr. cbn [rev].
  rewrite <- app_assoc, first_ai_content_app.
  rewrite first_ai_content_None by (apply Forall_rev, Hafter).
  reflexivity.
Qed.

(** X19. [get_last_ai_message_content] returns the content of the
    last [AIMessage] of ["messages"], passing over the human and
    system messages that come after it; it returns the text
    "Processing your request..." when the list holds no [AIMessage],
    and raises [KeyError('messages')] when the state has no
    ["messages"] key. *)
Theorem get_last_ai_message_content_is_last_reply :
  ∀ state : AgentState,
    (state !! "messages" = None →
     get_last_ai_message_content state = Raise (Exn "KeyError" "'messages'")) ∧
    (∀ (before after : list Field) (c : string),
       state !! "messages" = Some (FList (before ++ FMsg (AIMessage c) :: after)) →
       Forall (fun f => is_ai_message f = None) after →
       get_last_ai_message_content state = Ok c) ∧
    (∀ l : list Field,
       state !! "messages" = Some (FList l) →
       Forall (fun f => is_ai_message f = None) l →
       get_last_ai_message_content state = Ok "Processing your request...").
Proof.
  intros state. unfold get_last_ai_message_content, messages_of.
  split; [|split].
  - intros ->. reflexivity.
  - intros before after c -> Hafter.
    cbn [getitem mbind result_bind bind mret result_ret].
    rewrite last_ai_content by exact Hafter. reflexivity.
  - intros l -> Hnone.
    cbn [getitem mbind result_bind bind mret result_ret].
    rewrite first_ai_content_None by (apply Forall_rev, Hnone). reflexivity.
Qed.

End ReplyFacts.

(** ** The conversation buffers *)

Module MemoryFacts.
Import State Chat Memory.

Lemma get_memory_lookup session_id s :
  memory_cache (get_memory session_id s) !! session_id =
    Some (default [] (memory_cache s !! session_id)).
Proof.
  unfold get_memory. destruct (memory_cache s !! session_id) as [l|] eqn:Hl.
  - rewrite Hl. reflexivity.
  - cbn. apply lookup_insert_eq.
Qed.

Lemma get_memory_lookup_ne session_id other s :
  other ≠ session_id →
  memory_cache (get_memory session_id s) !! other = memory_cache s !! other.
Proof.
  intros Hne. unfold get_memory.
  destruct (memory_cache s !! session_id); [reflexivity|].
  cbn. apply lookup_insert_ne. congruence.
Qed.

Lemma get_messages_fst session_id s :
  fst (get_messages session_id s) = default [] (memory_cache s !! session_id).
Proof. unfold get_messages. cbn [fst]. rewrite get_memory_lookup. reflexivity. Qed.

Lemma remember_memory_cache session_id m s :
  memory_cache (remember session_id m s) =
    <[session_id := default [] (memory_cache s !! session_id) ++ [m]]>
      (memory_cache s).
Proof.
  unfold remember. cbn [memory_cache with_memory_cache].
  rewrite get_memory_lookup. cbn [default].
  unfold get_memory. destruct (memory_cache s !! session_id) as [l|] eqn:Hl;
    [reflexivity|].
  cbn. apply insert_insert_eq.
Qed.

Lemma save_chat_message_memory session_id m s :
  memory_cache (snd (save_chat_message session_id m s)) = memory_cache s.
Proof. unfold save_chat_message. destruct (db_available s); reflexivity. Qed.

Lemma save_agent_state_memory now session_id state s :
  memory_cache (snd (save_agent_state now session_id state s)) = memory_cache s.
Proof.
  unfold save_agent_state, save_chat_session. destruct (db_available s); reflexivity.
Qed.

Lemma sync_session_state_memory now session_id s :
  memory_cache (_sync_session_state now session_id s) = memory_cache s.
Proof.
  unfold _sync_session_state.
  destruct (match last_sync s !! session_id with
            | Some t => 30 <? now - t
            | None => true
            end); [apply save_agent_state_memory | reflexivity].
Qed.

Lemma log_agent_interaction_memory session_id agent input output reasoning s :
  memory_cache (snd (log_agent_interaction session_id agent input output reasoning s))
    = memory_cache s.
Proof.
  unfold log_agent_interaction, save_agent_interaction.
  destruct (db_available s); reflexivity.
Qed.

Lemma add_user_message_memory now session_id message s :
  memory_cache (snd (add_user_message now session_id message s)) =
    <[session_id :=
        default [] (memory_cache s !! session_id) ++ [HumanMessage message]]>
      (memory_cache s).
Proof.
  unfold add_user_message.
  pose proof (save_chat_message_memory session_id
                {| sm_type := "user"; sm_content := message; sm_metadata := ∅ |}
                (remember session_id (HumanMessage message) s)) as Hsave.
  destruct (save_chat_message _ _ _) as [ok s1]. cbn [snd] in *.
  rewrite sync_session_state_memory, Hsave. apply remember_memory_cache.
Qed.

Lemma add_ai_message_memory now session_id message metadata s :
  memory_cache (snd (add_ai_message now session_id message metadata s)) =
    <[session_id :=
        default [] (memory_cache s !! session_id) ++ [AIMessage message]]>
      (memory_cache s).
Proof.
  unfold add_ai_message.
  pose proof (save_chat_message_memory session_id
                {| sm_type := "assistant"; sm_content := message;
                   sm_metadata := metadata |}
                (remember session_id (AIMessage message) s)) as Hsave.
  destruct (save_chat_message _ _ _) as [ok s1]. cbn [snd] in *.
  rewrite sync_session_state_memory, Hsave. apply remember_memory_cache.
Qed.

(** X20. [get_recent_messages] returns the last [limit] messages of
    the session's buffer when [limit] is positive, and all of them when
    the buffer has no more than [limit].  For [limit = 0] the slice
    [all_messages[-0:]] is the whole list, so that all messages are
    returned, not none; a negative [limit] drops that many messages
    from the front. *)
Theorem get_recent_messages_limit_zero_returns_all :
  ∀ (session_id : string) (limit : Z) (s : Server),
    let all_messages := fst (get_messages session_id s) in
    let recent := fst (get_recent_messages session_id limit s) in
    (0 < limit →
       recent = drop (length all_messages - Z.to_nat limit) all_messages ∧
       length recent = (Z.to_nat limit `min` length all_messages)%nat) ∧
    (limit = 0 → recent = all_messages) ∧
    (limit < 0 → recent = drop (Z.to_nat (- limit)) all_messages) ∧
    recent `suffix_of` all_messages ∧
    snd (get_recent_messages session_id limit s) = get_memory session_id s.
Proof.
  intros session_id limit s all_messages recent.
  assert (Hrecent : recent =
            if limit <? Z.of_nat (length all_messages)
            then slice_from (- limit) all_messages else all_messages).
  { unfold recent, all_messages, get_recent_messages.
    destruct (get_messages session_id s) as [l s']. reflexivity. }
  split; [|split; [|split; [|split]]].
  - intros Hpos. rewrite Hrecent.
    destruct (limit <? Z.of_nat (length all_messages)) eqn:Hlt.
    + apply Z.ltb_lt in Hlt. unfold slice_from.
      destruct (0 <=? - limit) eqn:Hneg; [apply Z.leb_le in Hneg; lia|].
      replace (- - limit) with limit by lia.
      split; [reflexivity|]. rewrite length_drop. lia.
    + apply Z.ltb_ge in Hlt.
      replace (length all_messages - Z.to_nat limit)%nat with 0%nat by lia.
      split; [reflexivity | lia].
  - intros ->. rewrite Hrecent.
    destruct (0 <? Z.of_nat (length all_messages)); reflexivity.
  - intros Hneg. rewrite Hrecent.
    destruct (limit <? Z.of_nat (length all_messages)) eqn:Hlt;
      [|apply Z.ltb_ge in Hlt; lia].
    unfold slice_from.
    destruct (0 <=? - limit) eqn:Hle; [reflexivity | apply Z.leb_gt in Hle; lia].
  - rewrite Hrecent.
    destruct (limit <? Z.of_nat (length all_messages)); [|reflexivity].
    unfold slice_from. destruct (0 <=? - limit); apply suffix_drop.
  - unfold get_recent_messages, get_messages. reflexivity.
Qed.

(** X21. The buffer of a session holds what was added to it, in
    order: after [add_user_message] (or [add_ai_message]) the messages
    of the session are the earlier ones followed by the new human (or
    assistant) message, also when the database is unavailable, and the
    buffers of the other sessions are as before.  A session that is not
    in the cache starts from an empty buffer whatever the database
    holds: the coroutine that would load the stored messages is never
    awaited. *)
Theorem memory_buffer_keeps_added_messages :
  ∀ (now : Z) (session_id message : string) (metadata : AgentState) (s : Server),
    let old := fst (get_messages session_id s) in
    let s1 := snd (add_user_message now session_id message s) in
    let s2 := snd (add_ai_message now session_id message metadata s) in
    fst (get_messages session_id s1) = old ++ [HumanMessage message] ∧
    fst (get_messages session_id s2) = old ++ [AIMessage message] ∧
    (∀ other, other ≠ session_id →
       memory_cache s1 !! other = memory_cache s !! other ∧
       memory_cache s2 !! other = memory_cache s !! other) ∧
    (memory_cache s !! session_id = None → old = []).
Proof.
  intros now session_id message metadata s old s1 s2.
  unfold old, s1, s2. rewrite !get_messages_fst.
  rewrite add_user_message_memory, add_ai_message_memory.
  rewrite !lookup_insert_eq. cbn [default].
  split; [reflexivity|]. split; [reflexivity|]. split.
  - intros other Hne. rewrite !lookup_insert_ne by congruence. split; reflexivity.
  - intros ->. reflexivity.
Qed.

Lemma length_filter_isinstance (messages : list Message) :
  Forall (fun m => role m ≠ System) messages →
  length messages =
    (length (filter (fun m => isinstance m Human = true) messages) +
     length (filter (fun m => isinstance m AI = true) messages))%nat.
Proof.
  induction 1 as [|m l Hm _ IH]; [reflexivity|].
  rewrite !filter_cons.
  destruct (decide (isinstance m Human = true)) as [Hh|Hh],
           (decide (isinstance m AI = true)) as [Ha|Ha];
    unfold isinstance in Hh, Ha; destruct (role m); cbn [length];
    try discriminate; try congruence; try lia.
Qed.

(** X22. [get_session_stats] counts the messages of the session's
    buffer.  As long as the buffer holds human and assistant messages
    only, which is all that [add_user_message] and [add_ai_message]
    put there, the total is the sum of the two counts.  Asking for the
    statistics of a session that is not cached reports zero messages
    and leaves an empty buffer for it in the cache. *)
Theorem get_session_stats_counts_buffer :
  ∀ (session_id : string) (s : Server),
    let stats := fst (get_session_stats session_id s) in
    let s' := snd (get_session_stats session_id s) in
    st_total_messages stats = length (default [] (memory_cache s !! session_id)) ∧
    (Forall (fun m => role m ≠ System) (default [] (memory_cache s !! session_id)) →
     st_total_messages stats = (st_user_messages stats + st_ai_messages stats)%nat) ∧
    (∀ now message metadata l,
       memory_cache s !! session_id = Some l →
       Forall (fun m => role m ≠ System) l →
       Forall (fun m => role m ≠ System)
         (fst (get_messages session_id
                 (snd (add_user_message now session_id message s)))) ∧
       Forall (fun m => role m ≠ System)
         (fst (get_messages session_id
                 (snd (add_ai_message now session_id message metadata s))))) ∧
    (memory_cache s !! session_id = None →
     st_total_messages stats = 0%nat ∧ memory_cache s' !! session_id = Some []) ∧
    st_window_size stats = 10 ∧
    st_last_sync stats = last_sync s !! session_id.
Proof.
  intros session_id s stats s'.
  assert (Hstats : stats =
    {| st_session_id := session_id;
       st_total_messages := length (default [] (memory_cache s !! session_id));
       st_user_messages :=
         length (filter (fun m => isinstance m Human = true)
                   (default [] (memory_cache s !! session_id)));
       st_ai_messages :=
         length (filter (fun m => isinstance m AI = true)
                   (default [] (memory_cache s !! session_id)));
       st_window_size := window_size;
       st_last_sync := last_sync s !! session_id;
       st_database_available := db_available s |} ∧
    s' = get_memory session_id s).
  { unfold stats, s', get_session_stats, get_messages.
    rewrite get_memory_lookup. cbn [default fst snd].
    unfold get_memory. destruct (memory_cache s !! session_id); split; reflexivity. }
  destruct Hstats as [-> ->]. cbn [st_total_messages st_user_messages st_ai_messages
                                   st_window_size st_last_sync].
  split; [reflexivity|]. split; [apply length_filter_isinstance|].
  split; [|split; [|split; reflexivity]].
  - intros now message metadata l Hl Hplain.
    rewrite !get_messages_fst, add_user_message_memory, add_ai_message_memory.
    rewrite !lookup_insert_eq, Hl. cbn [default].
    split; apply Forall_app; (split; [exact Hplain|]); repeat constructor; discriminate.
  - intros Hnone. rewrite Hnone. split; [reflexivity|].
    rewrite get_memory_lookup, Hnone. reflexivity.
Qed.

(** *** Clearing *)

Lemma clear_memory_fold (sessions : list string) (s : Server) :
  let s' := foldl (fun s session_id => snd (clear_memory session_id s)) s sessions in
  (∀ sid,
     memory_cache s' !! sid =
       if decide (sid ∈ sessions) then None else memory_cache s !! sid) ∧
  (∀ sid,
     last_sync s' !! sid =
       if decide (sid ∈ sessions) then None else last_sync s !! sid) ∧
  chat_sessions s' = chat_sessions s ∧ db_sessions s' = db_sessions s ∧
  db_messages s' = db_messages s ∧ checkpoints s' = checkpoints s ∧
  db_available s' = db_available s.
Proof.
  revert s. induction sessions as [|x sessions IH]; intros s; cbn [foldl].
  - cbn zeta. repeat split; intros; rewrite decide_False by apply not_elem_of_nil;
      reflexivity.
  - specialize (IH (snd (clear_memory x s))). cbn zeta in *.
    destruct IH as (Hm & Hl & Hc & Hd & Hdm & Hk & Ha).
    repeat split; try (etransitivity; [eassumption | reflexivity]).
    + intros sid. rewrite Hm. cbn.
      destruct (decide (sid ∈ sessions)) as [Hin|Hout].
      * rewrite decide_True; [reflexivity | apply elem_of_cons; right; exact Hin].
      * destruct (decide (sid = x)) as [->|Hne].
        -- rewrite lookup_delete_eq, decide_True; [reflexivity|].
           apply elem_of_cons. left. reflexivity.
        -- rewrite lookup_delete_ne by congruence.
           rewrite decide_False; [reflexivity|].
           rewrite elem_of_cons. intros [?|?]; contradiction.
    + intros sid. rewrite Hl. cbn.
      destruct (decide (sid ∈ sessions)) as [Hin|Hout].
      * rewrite decide_True; [reflexivity | apply elem_of_cons; right; exact Hin].
      * destruct (decide (sid = x)) as [->|Hne].
        -- rewrite lookup_delete_eq, decide_True; [reflexivity|].
           apply elem_of_cons. left. reflexivity.
        -- rewrite lookup_delete_ne by congruence.
           rewrite decide_False; [reflexivity|].
           rewrite elem_of_cons. intros [?|?]; contradiction.
Qed.

Lemma stale_sessions (sync : gmap string Z) (cutoff : Z) (sid : string) :
  sid ∈ (map_to_list (filter (fun entry => entry.2 < cutoff) sync)).*1 ↔
  ∃ t, sync !! sid = Some t ∧ t < cutoff.
Proof.
  rewrite list_elem_of_fmap. split.
  - intros ([k t] & -> & Hin). apply elem_of_map_to_list in Hin.
    apply map_lookup_filter_Some in Hin. destruct Hin as [Hk Ht].
    exists t. split; assumption.
  - intros (t & Hk & Ht). exists (sid, t). split; [reflexivity|].
    apply elem_of_map_to_list, map_lookup_filter_Some. split; assumption.
Qed.

(** X23. When [cleanup_old_sessions] returns, it has removed from the
    memory cache and from the last-sync table exactly the sessions
    whose last sync is older than [days_old] days, and has left the
    session cache, the database and the checkpoints alone.  A session
    that was never synced (its state was never saved to the database)
    has no last-sync entry and keeps its buffer however old it is. *)
Theorem cleanup_old_sessions_removes_only_synced_sessions :
  ∀ (now days_old : Z) (s s' : Server),
    cleanup_old_sessions now days_old s = Ok s' →
    let cutoff := now - days_old * 86400 in
    (∀ sid,
       last_sync s' !! sid =
         match last_sync s !! sid with
         | Some t => if decide (t < cutoff) then None else Some t
         | None => None
         end) ∧
    (∀ sid,
       memory_cache s' !! sid =
         match last_sync s !! sid with
         | Some t => if decide (t < cutoff) then None else memory_cache s !! sid
         | None => memory_cache s !! sid
         end) ∧
    chat_sessions s' = chat_sessions s ∧
    db_sessions s' = db_sessions s ∧
    db_messages s' = db_messages s ∧
    checkpoints s' = checkpoints s.
Proof.
  intros now days_old s s'. unfold cleanup_old_sessions, days_before.
  destruct (_ && _); [|discriminate].
  destruct (_ && _); [|discriminate].
  cbn [mbind result_bind bind mret result_ret]. intros [= <-].
  set (cutoff := now - days_old * 86400).
  destruct (clear_memory_fold
              (map_to_list (filter (fun entry => entry.2 < cutoff) (last_sync s))).*1 s)
    as (Hm & Hl & Hc & Hd & Hdm & Hk & _).
  cbn zeta in *.
  split; [|split; [|repeat split; assumption]].
  - intros sid. rewrite Hl.
    destruct (decide (sid ∈ _)) as [Hin|Hout].
    + apply stale_sessions in Hin. destruct Hin as (t & -> & Ht).
      rewrite decide_True by exact Ht. reflexivity.
    + destruct (last_sync s !! sid) as [t|] eqn:Hsync; [|reflexivity].
      destruct (decide (t < cutoff)) as [Ht|Ht]; [|reflexivity].
      exfalso. apply Hout, stale_sessions. exists t. split; assumption.
  - intros sid. rewrite Hm.
    destruct (decide (sid ∈ _)) as [Hin|Hout].
    + apply stale_sessions in Hin. destruct Hin as (t & -> & Ht).
      rewrite decide_True by exact Ht. reflexivity.
    + destruct (last_sync s !! sid) as [t|] eqn:Hsync; [|reflexivity].
      destruct (decide (t < cutoff)) as [Ht|Ht]; [|reflexivity].
      exfalso. apply Hout, stale_sessions. exists t. split; assumption.
Qed.

(** X24. Clearing a session twice is the same as clearing it once, and
    clearing a session that is nowhere in memory changes nothing and
    still answers that the session was cleared.  The other delete
    handler, [DELETE /api/chat/{session_id}], removes the session from
    the session cache only: its conversation buffer and its last-sync
    entry stay. *)
Theorem clear_session_idempotent :
  ∀ (session_id : string) (s : Server),
    let s1 := snd (clear_session session_id s) in
    snd (clear_session session_id s1) = s1 ∧
    fst (clear_session session_id s1) = fst (clear_session session_id s) ∧
    (memory_cache s !! session_id = None →
     last_sync s !! session_id = None →
     chat_sessions s !! session_id = None →
     s1 = s) ∧
    chat_sessions (snd (clear_session_pop session_id s)) = chat_sessions s1 ∧
    memory_cache (snd (clear_session_pop session_id s)) = memory_cache s ∧
    last_sync (snd (clear_session_pop session_id s)) = last_sync s.
Proof.
  intros session_id s s1.
  assert (Hs1 : s1 =
    {| db_available := db_available s; db_sessions := db_sessions s;
       db_messages := db_messages s; db_interactions := db_interactions s;
       memory_cache := delete session_id (memory_cache s);
       last_sync := delete session_id (last_sync s);
       chat_sessions := delete session_id (chat_sessions s);
       checkpoints := checkpoints s |}).
  { unfold s1, clear_session, clear_memory. cbn.
    destruct (chat_sessions s !! session_id) eqn:Hc; cbn; [reflexivity|].
    rewrite (delete_id _ _ Hc). reflexivity. }
  assert (Htwice : snd (clear_session session_id s1) = s1).
  { rewrite Hs1. unfold clear_session, clear_memory. cbn.
    rewrite lookup_delete_eq. cbn.
    rewrite !delete_delete_eq. reflexivity. }
  split; [exact Htwice|]. split; [reflexivity|]. split; [|split; [|split]].
  - intros Hm Hl Hc. rewrite Hs1.
    rewrite (delete_id _ _ Hm), (delete_id _ _ Hl), (delete_id _ _ Hc).
    destruct s; reflexivity.
  - rewrite Hs1. reflexivity.
  - reflexivity.
  - reflexivity.
Qed.

End MemoryFacts.

(** ** A turn of the conversation *)

Module TurnFacts.
Import SalesTools TechTools State Env Nodes Graph Chat Memory.
Import GraphFacts NodesFacts EngineFacts ChatFacts ReplyFacts MemoryFacts.

Section WithCollaborators.
Context `{Collaborators}.
Context (recursion_limit : nat).

Lemma chat_failed_memory now session_id message e s :
  memory_cache (snd (chat_failed now session_id message e s)) = memory_cache s.
Proof.
  unfold chat_failed.
  pose proof (log_agent_interaction_memory session_id "main_agent" message ∅
                (ErrorOccurred (exn_str e)) s) as Hlog.
  destruct (log_agent_interaction _ _ _ _ _ _) as [ok s']. exact Hlog.
Qed.

(** The conversation buffers after [chat]. *)
Lemma chat_memory t1 t2 session_id message s :
  memory_cache (snd (chat recursion_limit t1 t2 session_id message s)) =
    let remembered :=
      <[session_id :=
          default [] (memory_cache s !! session_id) ++ [HumanMessage message]]>
        (memory_cache s) in
    match
      fst (ainvoke create_workflow recursion_limit (checkpoints s) session_id
             (chat_input session_id message s))
        ≫= get_last_ai_message_content
    with
    | Ok response_text =>
        <[session_id :=
            default [] (memory_cache s !! session_id)
              ++ [HumanMessage message; AIMessage response_text]]>
          (memory_cache s)
    | Raise _ => remembered
    end.
Proof.
  cbn zeta. unfold chat.
  pose proof (add_user_message_frame t1 session_id message s) as Huser.
  pose proof (add_user_message_memory t1 session_id message s) as Hum.
  destruct (add_user_message t1 session_id message s) as [ok0 s0].
  pose proof (log_agent_interaction_frame session_id "main_agent" message ∅
                StartingWorkflow s0) as Hlog.
  pose proof (log_agent_interaction_memory session_id "main_agent" message ∅
                StartingWorkflow s0) as Hlm.
  destruct (log_agent_interaction session_id "main_agent" message ∅
              StartingWorkflow s0) as [ok1 s1].
  cbn [snd] in *. cbn zeta in Huser, Hlog.
  destruct Huser as (Hu1 & _). destruct Hlog as (Hl1 & _).
  replace (checkpoints s1) with (checkpoints s) by congruence.
  destruct (ainvoke _ _ _ _ _) as [[result|e] checkpoints']; cbn [fst].
  - cbn [mbind result_bind bind].
    destruct (get_last_ai_message_content result) as [text|e].
    + match goal with
      | |- context [add_ai_message t2 session_id text ?m ?s2] =>
          pose proof (add_ai_message_memory t2 session_id text m s2) as Hai;
          destruct (add_ai_message t2 session_id text m s2) as [ok3 s3]
      end.
      pose proof (save_agent_state_memory t2 session_id result s3) as Hsave.
      destruct (save_agent_state t2 session_id result s3) as [ok4 s4].
      match goal with
      | |- context [log_agent_interaction session_id ?a message ?o ?r ?s5] =>
          pose proof (log_agent_interaction_memory session_id a message o r s5) as Hdone;
          destruct (log_agent_interaction session_id a message o r s5) as [ok6 s6]
      end.
      cbn [snd memory_cache with_chat_sessions with_checkpoints] in *.
      rewrite Hdone, Hsave, Hai, Hlm, Hum.
      rewrite lookup_insert_eq. cbn [default].
      rewrite insert_insert_eq. unfold id. rewrite <- app_assoc. reflexivity.
    + rewrite chat_failed_memory. cbn [memory_cache with_checkpoints]. congruence.
  - cbn [mbind result_bind bind].
    rewrite chat_failed_memory. cbn [memory_cache with_checkpoints]. congruence.
Qed.

(** The response of a turn that ends normally. *)
Lemma chat_response t1 t2 session_id message s result saved text :
  ainvoke create_workflow recursion_limit (checkpoints s) session_id
    (chat_input session_id message s) = (Ok result, saved) →
  get_last_ai_message_content result = Ok text →
  let r := fst (chat recursion_limit t1 t2 session_id message s) in
  response r = text ∧
  workflow_state r =
    list_to_map
      [ ("current_step", get_or result "current_step" (FStr "COMPLETE"));
        ("rfps_identified", get_or result "rfps_identified" (FList []));
        ("report_url", get result "report_url") ].
Proof.
  intros Hrun Htext r. subst r.
  destruct (chat_run recursion_limit t1 t2 session_id message s)
    as (s1 & _ & _ & _ & _ & Hchat).
  rewrite Hchat, Hrun, Htext. cbn zeta. split; reflexivity.
Qed.

(** The result of a run that ends normally has messages and is put in
    the session cache. *)
Lemma chat_caches_result t1 t2 session_id message s result saved :
  ainvoke create_workflow recursion_limit (checkpoints s) session_id
    (chat_input session_id message s) = (Ok result, saved) →
  (∃ l, result !! "messages" = Some (FList l)) ∧
  chat_sessions (snd (chat recursion_limit t1 t2 session_id message s)) !! session_id
    = Some result.
Proof.
  intros Hrun.
  assert (Hmessages : ∃ l, result !! "messages" = Some (FList l)).
  { unfold ainvoke in Hrun.
    destruct (apply_update (default ∅ (checkpoints s !! session_id))
                (chat_input session_id message s)) as [state|e] eqn:Happly;
      [|discriminate].
    assert (Hstate : ∃ l0, state !! "messages" = Some (FList l0)).
    { unfold apply_update in Happly. rewrite chat_input_messages in Happly.
      destruct (default ∅ (checkpoints s !! session_id) !! "messages")
        as [[| | |l| | |]|]; try discriminate;
        injection Happly as <-; eexists; apply lookup_insert_eq. }
    destruct Hstate as [l0 Hl0].
    destruct (run_from_messages create_workflow recursion_limit
                (entry_point create_workflow) state l0 Hl0) as [new Hnew].
    destruct (run_from create_workflow recursion_limit
                (entry_point create_workflow) state) as [calls [st|e st|st]];
      try discriminate.
    injection Hrun as <- <-. exists (l0 ++ new). exact Hnew. }
  split; [exact Hmessages|].
  destruct Hmessages as [l Hl].
  destruct (chat_run recursion_limit t1 t2 session_id message s)
    as (s1 & _ & _ & _ & _ & Hchat).
  rewrite Hchat, Hrun.
  assert (Hlast : ∃ text, get_last_ai_message_content result = Ok text).
  { unfold get_last_ai_message_content, messages_of. rewrite Hl.
    eexists. reflexivity. }
  destruct Hlast as [text ->]. cbn zeta. cbn [snd].
  match goal with
  | |- chat_sessions (snd (log_agent_interaction session_id ?a message ?o ?r ?s5))
         !! _ = _ =>
      pose proof (log_agent_interaction_frame session_id a message o r s5) as Hlog
  end.
  cbn zeta in Hlog. destruct Hlog as (_ & -> & _).
  cbn [chat_sessions with_chat_sessions]. apply lookup_insert_eq.
Qed.

(** X25. Whatever the workflow does, [chat] appends the user's message
    to the conversation buffer of the session, and, when the run ends
    normally, the response text after it; when the run or the reading
    of the reply raises, the buffer ends with the user's message.  The
    buffers of the other sessions are left as they were. *)
Theorem chat_remembers_the_turn :
  ∀ (t1 t2 : Z) (session_id message : string) (s : Server),
    let old := default [] (memory_cache s !! session_id) in
    let r := fst (chat recursion_limit t1 t2 session_id message s) in
    let s' := snd (chat recursion_limit t1 t2 session_id message s) in
    let outcome :=
      fst (ainvoke create_workflow recursion_limit (checkpoints s) session_id
             (chat_input session_id message s))
        ≫= get_last_ai_message_content in
    memory_cache s' !! session_id =
      Some (old ++ HumanMessage message ::
              match outcome with
              | Ok response_text => [AIMessage response_text]
              | Raise _ => []
              end) ∧
    (∀ response_text, outcome = Ok response_text → response r = response_text) ∧
    (∀ e, outcome = Raise e → response r = "Error: " +:+ exn_str e) ∧
    (∀ other, other ≠ session_id →
       memory_cache s' !! other = memory_cache s !! other).
Proof.
  intros t1 t2 session_id message s old r s' outcome.
  pose proof (chat_memory t1 t2 session_id message s) as Hmem.
  cbn zeta in Hmem. fold s' outcome old in Hmem.
  split; [|split; [|split]].
  - rewrite Hmem. destruct outcome; apply lookup_insert_eq.
  - intros text Hout. unfold outcome in Hout.
    destruct (ainvoke _ _ _ _ _) as [[result|e] saved] eqn:Hrun;
      [|discriminate Hout].
    cbn [fst mbind result_bind bind] in Hout.
    apply (chat_response t1 t2 session_id message s result saved text Hrun Hout).
  - intros e Hout. unfold outcome in Hout. unfold r.
    destruct (chat_run recursion_limit t1 t2 session_id message s)
      as (s1 & _ & _ & _ & _ & Hchat).
    rewrite Hchat. clear Hchat.
    destruct (ainvoke _ _ _ _ _) as [[result|e'] saved] eqn:Hrun;
      cbn [fst mbind result_bind bind] in Hout.
    + rewrite Hout. cbn zeta.
      pose proof (chat_failed_frame t2 session_id message e
                    (with_checkpoints saved s1)) as Hfail.
      destruct (chat_failed _ _ _ _ _) as [r0 s0]. apply Hfail.
    + injection Hout as ->. cbn zeta.
      pose proof (chat_failed_frame t2 session_id message e
                    (with_checkpoints saved s1)) as Hfail.
      destruct (chat_failed _ _ _ _ _) as [r0 s0]. apply Hfail.
  - intros other Hne. rewrite Hmem.
    destruct outcome; apply lookup_insert_ne; congruence.
Qed.

(** X26. The response of [chat] is read off all the messages of the
    result, and these start with the messages checkpointed for the
    session.  So when no stage adds an assistant message during the
    turn, the response repeats the last assistant message of the
    earlier turns (or is "Processing your request..." when there is
    none). *)
Theorem chat_repeats_the_last_reply :
  ∀ (t1 t2 : Z) (session_id message : string) (s : Server)
    (result : AgentState) (saved : gmap string AgentState) (replies : list Field),
    ainvoke create_workflow recursion_limit (checkpoints s) session_id
      (chat_input session_id message s) = (Ok result, saved) →
    let old := messages_or_empty (default ∅ (checkpoints s !! session_id)) in
    result !! "messages" =
      Some (FList (old ++ FMsg (HumanMessage message) :: replies)) →
    Forall (fun f => is_ai_message f = None) replies →
    response (fst (chat recursion_limit t1 t2 session_id message s)) =
      default "Processing your request..." (first_ai_content (rev old)).
Proof.
  intros t1 t2 session_id message s result saved replies Hrun old Hresult Hsilent.
  assert (Htext : get_last_ai_message_content result =
            Ok (default "Processing your request..." (first_ai_content (rev old)))).
  { unfold get_last_ai_message_content, messages_of. rewrite Hresult.
    cbn [getitem mbind result_bind bind mret result_ret].
    rewrite rev_app_distr, first_ai_content_app.
    assert (first_ai_content (rev (FMsg (HumanMessage message) :: replies)) = None)
      as ->; [|reflexivity].
    apply first_ai_content_None, Forall_rev. constructor; [reflexivity | exact Hsilent]. }
  apply (chat_response t1 t2 session_id message s result saved _ Hrun Htext).
Qed.

(** X27. After a turn that ends normally, [get_workflow_state] finds
    the session and reports the result of the run: the step, the next
    node, the error and the report URL that it shows are those of the
    result, and the step is the one that the response of [chat]
    carried, provided the result has a ["current_step"]. *)
Theorem chat_then_get_workflow_state :
  ∀ (t1 t2 : Z) (session_id message : string) (s : Server)
    (result : AgentState) (saved : gmap string AgentState)
    (summary : list RfpSummary),
    ainvoke create_workflow recursion_limit (checkpoints s) session_id
      (chat_input session_id message s) = (Ok result, saved) →
    rfps_summary (get_or result "rfps_identified" (FList [])) = Ok summary →
    let r := fst (chat recursion_limit t1 t2 session_id message s) in
    let s' := snd (chat recursion_limit t1 t2 session_id message s) in
    ∃ selected,
      fst (get_workflow_state session_id s') =
        Ok (Session session_id
              (get result "current_step") (get result "next_node")
              (get_or result "waiting_for_user" (FBool false))
              summary selected
              (get result "report_url") (get result "error")) ∧
      (is_Some (result !! "current_step") →
       workflow_state r !! "current_step" = Some (get result "current_step")).
Proof.
  intros t1 t2 session_id message s result saved summary Hrun Hsummary r s'.
  destruct (chat_caches_result t1 t2 session_id message s result saved Hrun)
    as (Hmessages & Hcached).
  fold s' in Hcached.
  destruct Hmessages as [l Hl].
  assert (Hdom : bool_decide (dom result = ∅) = false).
  { apply bool_decide_eq_false. intros Hempty.
    apply dom_empty_iff_L in Hempty. rewrite Hempty, lookup_empty in Hl.
    discriminate Hl. }
  eexists. split.
  - unfold get_workflow_state. rewrite Hcached, Hdom, Hsummary. reflexivity.
  - intros [step Hstep].
    assert (Htext : ∃ text, get_last_ai_message_content result = Ok text).
    { unfold get_last_ai_message_content, messages_of. rewrite Hl.
      eexists. reflexivity. }
    destruct Htext as [text Htext].
    destruct (chat_response t1 t2 session_id message s result saved text Hrun Htext)
      as [_ Hstate].
    fold r in Hstate. rewrite Hstate.
    unfold get_or, get. rewrite Hstep. reflexivity.
Qed.

End WithCollaborators.
End TurnFacts.

(** ** What the assessment stage stores *)

Module AssessmentFacts.
Import SalesTools TechTools State Env Nodes Graph PyFacts.

Section WithCollaborators.
Context `{Collaborators}.

Lemma match_oem_products_nil requirements top_n :
  match_oem_products [] requirements top_n = [].
Proof. unfold match_oem_products, slice_to. destruct (0 <=? top_n); apply take_nil. Qed.

(** X28. When the update of the assessment stage carries a
    ["technical_analysis"], the step is [PRICING], the analysis text is
    the assistant message of the update, and the [rfp_id] is that of the
    selected RFP.  The recommended products are those that
    [match_oem_products] ranks first for the extracted requirements, at
    most three (the test for an empty catalog changes nothing), and the
    comparison table has no row when nothing is recommended and eight
    rows otherwise. *)
Theorem technical_agent_node_analysis_shape :
  ∀ (state update : AgentState) (a : TechnicalAnalysis),
    technical_agent_node state = Ok update →
    update !! "technical_analysis" = Some (FAnalysis a) →
    ∃ rfp : Rfp,
      as_dict (get state "selected_rfp") = Some rfp ∧
      update !! "current_step" = Some (FStr WorkflowStep.PRICING) ∧
      update !! "messages" = Some (FList [FMsg (AIMessage (ta_analysis a))]) ∧
      ta_rfp_id a = r_rfp_id rfp ∧
      ta_requirements a =
        extract_requirements
          (default "" (r_title rfp) +:+ " " +:+ default "" (r_description rfp)) ∧
      ta_recommended_products a =
        match_oem_products load_oem_catalog (ta_requirements a) 3 ∧
      (length (ta_recommended_products a) ≤ 3)%nat ∧
      ta_comparison_table a =
        match ta_recommended_products a with
        | [] => []
        | _ :: _ => build_comparison_table (ta_recommended_products a)
        end ∧
      length (ta_comparison_table a) =
        match ta_recommended_products a with [] => 0%nat | _ :: _ => 8%nat end.
Proof.
  intros state update a. unfold technical_agent_node.
  destruct get_shared_llm as [llm|e]; [|discriminate].
  cbn [mbind result_bind bind mret result_ret].
  destruct (negb (field_truthy (get state "selected_rfp")));
    [intros [= <-]; discriminate|].
  destruct (as_dict (get state "selected_rfp")) as [rfp|]; [|discriminate].
  intros [= <-]. unfold technical_analysis_of.
  destruct (llm _) as [reply|e];
    cbn [mbind result_bind bind mret result_ret try_except]; [|discriminate].
  intros Ha.
  match type of Ha with
  | ?m !! _ = _ =>
      match m with
      | context [FAnalysis ?record] =>
          assert (m !! "technical_analysis" = Some (FAnalysis record)) as Hkey
            by reflexivity
      end
  end.
  rewrite Hkey in Ha. injection Ha as <-. clear Hkey.
  cbn [ta_rfp_id ta_analysis ta_requirements ta_recommended_products
       ta_comparison_table].
  set (requirements := extract_requirements _).
  assert (Hrecs :
    match load_oem_catalog with
    | [] => []
    | _ :: _ => match_oem_products load_oem_catalog requirements 3
    end = match_oem_products load_oem_catalog requirements 3).
  { destruct load_oem_catalog; [symmetry; apply match_oem_products_nil | reflexivity]. }
  rewrite Hrecs.
  exists rfp. split; [reflexivity|]. split; [reflexivity|]. split; [reflexivity|].
  split; [reflexivity|]. split; [reflexivity|]. split; [reflexivity|].
  split; [|split].
  - unfold match_oem_products. rewrite slice_to_length by lia. lia.
  - reflexivity.
  - destruct (match_oem_products load_oem_catalog requirements 3); [reflexivity|].
    unfold build_comparison_table. rewrite length_map. reflexivity.
Qed.

End WithCollaborators.
End AssessmentFacts.

(** ** Reading a number with a regular expression *)

Module ReFacts.
Import TechTools Re Requirements RequirementsFacts.

Lemma append_nil s : "" +:+ s = s.
Proof. destruct s; reflexivity. Qed.

Lemma append_cons c a b : String c a +:+ b = String c (a +:+ b).
Proof. destruct a; reflexivity. Qed.

(** A greedy repetition of a character class takes the whole run when
    what follows can go on from its end. *)
Lemma match_here_star_run {R} (p : ascii → bool) (run rest : string)
    (k : string → option R) (x : R) :
  Forall (fun c => p c = true) (list_ascii_of_string run) →
  match rest with EmptyString => True | String c _ => p c = false end →
  k rest = Some x →
  match_here (Star (Chr p)) (run +:+ rest) k = Some x.
Proof.
  intros Hrun Hrest Hk. cbn [match_here].
  generalize (Nat.le_refl (String.length (run +:+ rest))).
  generalize (String.length (run +:+ rest)) at 2 3 as fuel.
  intros fuel. revert fuel Hrun.
  induction run as [|c run IH]; intros fuel Hrun Hfuel.
  - change ("" +:+ rest) with rest in *. destruct fuel as [|fuel]; [exact Hk|].
    destruct rest as [|c rest]; cbn; [exact Hk|]. rewrite Hrest. exact Hk.
  - change (String c run +:+ rest) with (String c (run +:+ rest)) in *. cbn in Hrun.
    apply Forall_cons in Hrun. destruct Hrun as [Hc Hrun].
    destruct fuel as [|fuel]; [cbn in Hfuel; lia|].
    cbn [match_here]. rewrite Hc.
    assert ((String.length (run +:+ rest) <? String.length (String c (run +:+ rest)))%nat
            = true) as ->
      by (apply Nat.ltb_lt; cbn; lia).
    rewrite IH; [reflexivity | exact Hrun | cbn in Hfuel; lia].
Qed.

Lemma length_append a b :
  String.length (a +:+ b) = (String.length a + String.length b)%nat.
Proof.
  induction a as [|c a IH]; [reflexivity|].
  rewrite append_cons. cbn. f_equal. exact IH.
Qed.

Lemma substring_append a b :
  substring 0 (String.length (a +:+ b) - String.length b) (a +:+ b) = a.
Proof.
  rewrite length_append.
  replace (String.length a + String.length b - String.length b)%nat
    with (String.length a) by lia.
  induction a as [|c a IH].
  - rewrite append_nil. destruct b; reflexivity.
  - rewrite append_cons. cbn. f_equal. exact IH.
Qed.

(** A pattern that starts with a digit passes over a prefix without
    digits. *)
Lemma search_group1_skip (a b : regex) (pre s : string) :
  (∀ t (k : string → option string),
     ∃ k', match_here a t k = match_here digit t k') →
  Forall (fun c => is_digit c = false) (list_ascii_of_string pre) →
  search_group1 a b (pre +:+ s) = search_group1 a b s.
Proof.
  intros Hstart. induction pre as [|c pre IH]; intros Hpre;
    [rewrite append_nil; reflexivity|].
  rewrite append_cons.
  cbn in Hpre. apply Forall_cons in Hpre. destruct Hpre as [Hc Hpre].
  cbn [search_group1]. unfold match_group1 at 1.
  destruct (Hstart (String c (pre +:+ s))
              (fun s1 =>
                 match_here b s1
                   (fun _ =>
                      Some (substring 0
                              (String.length (String c (pre +:+ s)) - String.length s1)
                              (String c (pre +:+ s)))))) as [k' ->].
  cbn [match_here digit]. rewrite Hc. apply IH, Hpre.
Qed.

Lemma is_space_not_digit c : is_space c = true → is_digit c = false.
Proof. destruct c as [[] [] [] [] [] [] [] []]; vm_compute; congruence. Qed.

(** The match of [(\d+)\s*core] at a number that is followed by blanks
    and "core". *)
Lemma match_group1_cores (number blanks rest : string) c :
  Forall (fun c => is_digit c = true) (list_ascii_of_string (String c number)) →
  Forall (fun c => is_space c = true) (list_ascii_of_string blanks) →
  match_group1 (Plus digit) (Cat (Star space) (Lit "core"))
    (String c number +:+ blanks +:+ "core" +:+ rest)
  = Some (String c number).
Proof.
  intros Hnumber Hblanks.
  set (text := String c number +:+ blanks +:+ "core" +:+ rest).
  unfold match_group1, Plus. cbn [match_here digit].
  cbn in Hnumber. apply Forall_cons in Hnumber. destruct Hnumber as [Hc Hnumber].
  unfold text at 1. rewrite append_cons. rewrite Hc.
  apply match_here_star_run; [exact Hnumber | |].
  - destruct blanks as [|b blanks]; [reflexivity|].
    cbn in Hblanks. apply Forall_cons in Hblanks.
    apply is_space_not_digit, Hblanks.
  - cbn [match_here]. fold (match_here (R := string) (Star space)).
    change (match_here (Star space) (blanks +:+ "core" +:+ rest)
              (fun s' =>
                 match_here (Lit "core") s'
                   (fun _ =>
                      Some (substring 0
                              (String.length text
                               - String.length (blanks +:+ "core" +:+ rest)) text)))
            = Some (String c number)).
    apply match_here_star_run; [exact Hblanks | reflexivity |].
    cbn. f_equal. unfold text.
    apply (substring_append (String c number) (blanks +:+ "core" +:+ rest)).
Qed.

(** *** The digits of a number *)

Ltac digit_value :=
  match goal with
  | |- context [Z.of_nat (nat_of_ascii ?c)] =>
      let v := eval vm_compute in (Z.of_nat (nat_of_ascii c)) in
      change (Z.of_nat (nat_of_ascii c)) with v
  end.

Lemma fold_of_uint_acc d acc :
  fold_left (fun acc c => acc * 10 + (Z.of_nat (nat_of_ascii c) - 48))
    (list_ascii_of_string (NilEmpty.string_of_uint d)) (Z.pos acc)
  = Z.pos (Pos.of_uint_acc d acc).
Proof.
  revert acc. induction d; intros acc; cbn [NilEmpty.string_of_uint
    list_ascii_of_string fold_left Pos.of_uint_acc]; [reflexivity|..];
    rewrite <- IHd; f_equal; digit_value; lia.
Qed.

Lemma int_of_digits_of_uint d :
  int_of_digits (NilEmpty.string_of_uint d) = Z.of_N (Pos.of_uint d).
Proof.
  unfold int_of_digits.
  induction d; cbn [NilEmpty.string_of_uint list_ascii_of_string fold_left
                    Pos.of_uint]; [reflexivity| |..];
    digit_value; [exact IHd|..];
    cbn [Z.of_N]; rewrite <- fold_of_uint_acc; reflexivity.
Qed.

Lemma string_of_uint_digits d :
  Forall (fun c => is_digit c = true)
    (list_ascii_of_string (NilEmpty.string_of_uint d)).
Proof. induction d; cbn; constructor; try assumption; reflexivity. Qed.

(** [str(n)] of a positive int: a non-empty text of digits that [int]
    reads back. *)
Lemma str_of_Z_pos p :
  ∃ c number,
    str_of_Z (Z.pos p) = String c number ∧
    Forall (fun c => is_digit c = true) (list_ascii_of_string (String c number)) ∧
    int_of_digits (String c number) = Z.pos p.
Proof.
  unfold str_of_Z. cbn [Z.to_int NilZero.string_of_int].
  pose proof (Unsigned.to_uint_nonnil p) as Hnonnil.
  pose proof (Unsigned.of_to p) as Hback.
  pose proof (string_of_uint_digits (Pos.to_uint p)) as Hdigits.
  pose proof (int_of_digits_of_uint (Pos.to_uint p)) as Hint.
  rewrite Hback in Hint. cbn [Z.of_N] in Hint.
  assert (NilZero.string_of_uint (Pos.to_uint p)
          = NilEmpty.string_of_uint (Pos.to_uint p)) as ->.
  { unfold NilZero.string_of_uint. destruct (Pos.to_uint p); congruence. }
  destruct (NilEmpty.string_of_uint (Pos.to_uint p)) as [|c number] eqn:Hstr.
  - destruct (Pos.to_uint p); try congruence; discriminate Hstr.
  - exists c, number. repeat split; assumption.
Qed.

(** X29. The number of cores is read by [(\d+)\s*core] at the first
    place where it matches.  When the lowered text is a part without
    digits, then the decimal digits of a positive number, any blanks,
    and "core", the extracted ["cores"] is that number, whatever comes
    after, also the words "single core". *)
Theorem extract_requirements_reads_cores :
  ∀ (text before blanks rest : string) (p : positive),
    lower text = before +:+ str_of_Z (Z.pos p) +:+ blanks +:+ "core" +:+ rest →
    Forall (fun c => is_digit c = false) (list_ascii_of_string before) →
    Forall (fun c => is_space c = true) (list_ascii_of_string blanks) →
    get (extract_requirements text) "cores" = VInt (Z.pos p).
Proof.
  intros text before blanks rest p Hlower Hbefore Hblanks.
  destruct (str_of_Z_pos p) as (c & number & Hstr & Hdigits & Hint).
  rewrite Hstr in Hlower.
  requirements text. rewrite Hlower.
  rewrite search_group1_skip; [| intros t k; apply Plus_digit_start | exact Hbefore].
  rewrite append_cons. cbn [search_group1]. rewrite <- append_cons.
  rewrite (match_group1_cores number blanks rest c Hdigits Hblanks).
  rewrite Hint. reflexivity.
Qed.

End ReFacts.

(** ** The properties at concrete inputs *)

Module Cases.
Import SalesTools TechTools State Env Nodes Graph Chat Memory Examples Samples MoreSamples.

(** X2 (witness). Forty days against three, the same tender value and
    the same town. *)
Lemma roomy_rfp_scores_no_less_than_late_rfp :
  ∃ q1 q2 : Qualification,
    qualify_rfp_tool late_rfp sales_criteria = Ok q1 ∧
    qualify_rfp_tool roomy_rfp sales_criteria = Ok q2 ∧
    q_score q1 ≤ q_score q2 ∧
    (q_qualified q1 = true → q_qualified q2 = true).
Proof.
  destruct (qualify_rfp_tool late_rfp sales_criteria) as [q1|e] eqn:H1;
    [|vm_compute in H1; discriminate H1].
  destruct (qualify_rfp_tool roomy_rfp sales_criteria) as [q2|e] eqn:H2;
    [|vm_compute in H2; discriminate H2].
  exists q1, q2. split; [reflexivity|]. split; [reflexivity|].
  apply (SalesRankingFacts.qualify_rfp_tool_monotone
           late_rfp roomy_rfp sales_criteria q1 q2 H1 H2);
    [reflexivity | vm_compute; discriminate | vm_compute; discriminate].
Defined.

(** X3 (witness). The best one of three records, two of them
    qualified. *)
Lemma prioritize_rfps_tool_demo_top_one :
  ∃ ranked : list Rfp,
    prioritize_rfps_tool [late_rfp; roomy_rfp; small_rfp] demo_qualifications 1
      = Ok ranked ∧
    Z.of_nat (length ranked) ≤ 1 ∧
    Forall (fun r => ∃ qual, qual ∈ demo_qualifications ∧ q_qualified qual = true ∧
                             r_priority_score r = Some (q_score qual))
      ranked.
Proof.
  destruct (prioritize_rfps_tool [late_rfp; roomy_rfp; small_rfp]
              demo_qualifications 1) as [ranked|e] eqn:Hranked;
    [|vm_compute in Hranked; discriminate Hranked].
  exists ranked. split; [reflexivity|].
  destruct (SalesRankingFacts.prioritize_rfps_tool_ranks_qualified
              [late_rfp; roomy_rfp; small_rfp] demo_qualifications 1 ranked
              ltac:(lia) Hranked) as (Hlen & _ & Hall).
  split; [exact Hlen|].
  eapply Forall_impl; [exact Hall|].
  intros r (rfp & qual & _ & Hqual & _ & _ & Hqualified & _ & Hscore & _).
  exists qual. repeat split; assumption.
Defined.


(** X6 (witness). The discovery stage over the demo records at noon of
    2025-01-07. *)
Lemma sales_agent_node_scanning_identifies :
  ∃ (update : AgentState) (l : list Field),
    @sales_agent_node scanning (create_initial_state "s1" "find cable tenders")
      = Ok update ∧
    update !! "rfps_identified" = Some (FList l) ∧
    update !! "current_step" = Some (FStr WorkflowStep.WAITING_USER) ∧
    (1 ≤ length l ≤ 5)%nat.
Proof.
  pose (update :=
          returned (@sales_agent_node scanning
                      (create_initial_state "s1" "find cable tenders")) ∅).
  pose (l := match update !! "rfps_identified" with
             | Some (FList l) => l
             | _ => []
             end).
  assert (Hupdate : @sales_agent_node scanning
                      (create_initial_state "s1" "find cable tenders") = Ok update)
    by (vm_compute; reflexivity).
  assert (Hl : update !! "rfps_identified" = Some (FList l))
    by (vm_compute; reflexivity).
  clearbody l. clearbody update.
  destruct (@DiscoveryFacts.sales_agent_node_identifies_qualified_rfps scanning
              (create_initial_state "s1" "find cable tenders") update l Hupdate Hl)
    as (Hstep & top & Htop & Hlen & _).
  exists update, l. split; [exact Hupdate|]. split; [exact Hl|].
  split; [exact Hstep|]. rewrite Htop, length_fmap. exact Hlen.
Defined.

(** X7 (witness). No API key. *)
Lemma keyless_stages_raise :
  @get_shared_llm keyless
    = Raise (Exn "ValueError" "GROQ_API_KEY not set in environment") ∧
  @sales_agent_node keyless (create_initial_state "s1" "find tenders")
    = Raise (Exn "ValueError" "GROQ_API_KEY not set in environment") ∧
  fst (run_from (@create_workflow keyless) 25 "technical_agent" selected_state)
    = ["technical_agent"].
Proof.
  split; [reflexivity|].
  destruct (@DiscoveryFacts.stages_raise_without_llm_client keyless
              (Exn "ValueError" "GROQ_API_KEY not set in environment")
              (create_initial_state "s1" "find tenders") eq_refl)
    as (Hsales & _ & _).
  split; [exact Hsales|].
  destruct (@DiscoveryFacts.stages_raise_without_llm_client keyless
              (Exn "ValueError" "GROQ_API_KEY not set in environment")
              selected_state eq_refl) as (_ & _ & Hrun).
  destruct (Hrun 24%nat) as [_ ->]. reflexivity.
Defined.

(** X8 (witness). A scan for "Cable" thirty days ahead. *)
Lemma scan_demo_days_remaining :
  (∀ n, demo_now 0 ≤ demo_now n) ∧
  ∃ found : list Rfp,
    SalesScan.scan_rfps_tool demo_mock_rfps demo_strptime demo_now ["Cable"] 30
      = Ok found ∧
    Forall (fun r => ∃ d, r_days_remaining r = Some d ∧ 0 ≤ d ≤ 30) found.
Proof.
  assert (Hclock : ∀ n, demo_now 0 ≤ demo_now n) by (intros n; unfold demo_now; lia).
  split; [exact Hclock|].
  destruct (SalesScan.scan_rfps_tool demo_mock_rfps demo_strptime demo_now ["Cable"] 30)
    as [found|e] eqn:Hfound; [|vm_compute in Hfound; discriminate Hfound].
  exists found. split; [reflexivity|].
  eapply Forall_impl;
    [exact (SalesScanFacts.scan_rfps_tool_days_remaining_within_window
              demo_mock_rfps demo_strptime demo_now ["Cable"] 30 found Hclock Hfound)|].
  intros r (rfp & d & _ & _ & _ & _ & Hd & Hrange). exists d. split; [exact Hd | lia].
Defined.

(** X9 (witness). The tender that closed on 2024-12-01 is returned by
    a scan on 2025-01-07. *)
Lemma scan_demo_returns_overdue_rfp :
  ∃ found : list Rfp,
    SalesScan.scan_rfps_tool demo_mock_rfps demo_strptime demo_now ["Cable"] 30
      = Ok found ∧
    SalesScan.set_days_remaining 0 overdue_rfp ∈ found.
Proof.
  destruct (SalesScan.scan_rfps_tool demo_mock_rfps demo_strptime demo_now ["Cable"] 30)
    as [found|e] eqn:Hfound; [|vm_compute in Hfound; discriminate Hfound].
  exists found. split; [reflexivity|].
  destruct (SalesScanFacts.scan_rfps_tool_returns_overdue_records
              demo_mock_rfps demo_strptime demo_now ["Cable"] 30 found Hfound)
    as (_ & Hoverdue & _).
  apply (Hoverdue overdue_rfp (739220 * SalesScan.day));
    [left | reflexivity | reflexivity | lia |].
  intros n. unfold demo_now, SalesScan.day. lia.
Defined.

(** X12 (witness). A product without a ["cable_type"] of its own. *)
Lemma copper_xlpe_cable_type_is_insulation :
  TechTools.get demo_requirements "cable_type" = TechTools.get demo_requirements "insulation" ∧
  default ∅ (p_specifications copper_xlpe) !! "cable_type" = None ∧
  is_match (TechTools.get demo_requirements "cable_type")
    (derive_product_field (default ∅ (p_specifications copper_xlpe)) "cable_type")
    = is_match (TechTools.get demo_requirements "insulation")
        (derive_product_field (default ∅ (p_specifications copper_xlpe)) "insulation").
Proof.
  split; [reflexivity|]. split; [reflexivity|].
  destruct (ScoringFacts.insulation_match_counts_for_cable_type
              copper_xlpe demo_requirements eq_refl eq_refl) as (_ & Hsame & _).
  exact Hsame.
Defined.

(** X17 (witness). A text without a digit. *)
Lemma three_core_in_words :
  TechTools.get (Requirements.extract_requirements "Three core XLPE cable") "voltage_rating"
    = VNone ∧
  TechTools.get (Requirements.extract_requirements "Three core XLPE cable") "cores" = VInt 3.
Proof.
  destruct (RequirementsFacts.extract_requirements_without_digits
              "Three core XLPE cable") as (Hvoltage & _ & Hcores).
  - repeat constructor.
  - split; [exact Hvoltage | exact Hcores].
Defined.

(** X23 (witness). A clean-up at noon of 2025-01-07 of what is older
    than seven days. *)
Lemma cleanup_synced_server :
  ∃ s' : Server,
    cleanup_old_sessions 63871848000 7 synced_server = Ok s' ∧
    memory_cache s' !! "old" = None ∧
    memory_cache s' !! "new" = Some [HumanMessage "hi"] ∧
    memory_cache s' !! "unsynced" = Some [HumanMessage "anyone there?"].
Proof.
  destruct (cleanup_old_sessions 63871848000 7 synced_server) as [s'|e] eqn:Hs;
    [|vm_compute in Hs; discriminate Hs].
  exists s'. split; [reflexivity|].
  destruct (MemoryFacts.cleanup_old_sessions_removes_only_synced_sessions
              63871848000 7 synced_server s' Hs) as (_ & Hcache & _).
  rewrite !Hcache. repeat split.
Defined.

(** X26 (witness). A first turn with a main agent that replies, then
    a turn with one that adds no message: the old reply comes again. *)
Lemma silent_turn_repeats_the_reply :
  response
    (fst (@chat silent 25 300 400 "s1" "and now?"
            (snd (@chat replying 25 100 200 "s1" "hello" empty_server))))
  = "How can I help?".
Proof.
  pose (s := snd (@chat replying 25 100 200 "s1" "hello" empty_server)).
  pose (run := ainvoke (@create_workflow silent) 25 (checkpoints s) "s1"
                 (chat_input "s1" "and now?" s)).
  pose proof (@TurnFacts.chat_repeats_the_last_reply silent 25 300 400 "s1"
                "and now?" s (returned (fst run) ∅) (snd run) []) as Hreply.
  cbv zeta in Hreply.
  change (response (fst (@chat silent 25 300 400 "s1" "and now?" s))
          = "How can I help?").
  rewrite Hreply;
    [vm_compute; reflexivity | vm_compute; reflexivity | vm_compute; reflexivity
    | constructor].
Defined.

(** X27 (witness). A first turn, then a look at the session. *)
Lemma first_turn_then_get_workflow_state :
  ∃ selected,
    fst (get_workflow_state "s1"
           (snd (@chat replying 25 100 200 "s1" "hello" empty_server)))
    = Ok (Session "s1" (FStr WorkflowStep.IDLE) (FStr NodeName.END) (FBool false)
            [] selected FNone FNone).
Proof.
  pose (run := ainvoke (@create_workflow replying) 25 (checkpoints empty_server) "s1"
                 (chat_input "s1" "hello" empty_server)).
  destruct (@TurnFacts.chat_then_get_workflow_state replying 25 100 200 "s1" "hello"
              empty_server (returned (fst run) ∅) (snd run) [])
    as (selected & Hstate & _);
    [vm_compute; reflexivity | vm_compute; reflexivity |].
  exists selected. rewrite Hstate. vm_compute. reflexivity.
Defined.

(** X28 (witness). The assessment of "Supply of 11 kV XLPE cable",
    "Three core armoured copper cable" against the demo catalog. *)
Lemma assessment_of_late_rfp :
  ∃ (update : AgentState) (a : TechnicalAnalysis),
    @technical_agent_node scanning selected_state = Ok update ∧
    update !! "technical_analysis" = Some (FAnalysis a) ∧
    ta_rfp_id a = Some "RFP-001" ∧
    TechTools.get (ta_requirements a) "voltage_rating" = VStr "11 kV" ∧
    (length (ta_recommended_products a) ≤ 3)%nat.
Proof.
  pose (update := returned (@technical_agent_node scanning selected_state) ∅).
  pose (a := match update !! "technical_analysis" with
             | Some (FAnalysis a) => a
             | _ => no_analysis
             end).
  assert (Hupdate : @technical_agent_node scanning selected_state = Ok update)
    by (vm_compute; reflexivity).
  assert (Ha : update !! "technical_analysis" = Some (FAnalysis a))
    by (vm_compute; reflexivity).
  clearbody a. clearbody update.
  destruct (@AssessmentFacts.technical_agent_node_analysis_shape scanning
              selected_state update a Hupdate Ha)
    as (rfp & Hrfp & _ & _ & Hid & Hreq & _ & Hlen & _).
  assert (Hsel : as_dict (State.get selected_state "selected_rfp") = Some late_rfp)
    by (vm_compute; reflexivity).
  rewrite Hsel in Hrfp. injection Hrfp as <-.
  exists update, a. split; [exact Hupdate|]. split; [exact Ha|].
  split; [rewrite Hid; reflexivity|].
  split; [rewrite Hreq; vm_compute; reflexivity | exact Hlen].
Defined.

(** X29 (witness). The digits win over the words. *)
Lemma three_core_in_digits :
  lower "XLPE cable, 3 Core, single core"
    = "xlpe cable, " +:+ str_of_Z 3 +:+ " " +:+ "core" +:+ ", single core" ∧
  TechTools.get (Requirements.extract_requirements "XLPE cable, 3 Core, single core")
    "cores"
    = VInt 3.
Proof.
  split; [reflexivity|].
  apply (ReFacts.extract_requirements_reads_cores
           "XLPE cable, 3 Core, single core" "xlpe cable, " " " ", single core" 3%positive);
    [reflexivity | repeat constructor | repeat constructor].
Defined.

End Cases.
